(** * iRacing SDK: request executor and chunked-response resolution

    A shallow embedding of [iRacingSDK.request], [iRacingSDK.authenticate],
    [iRacingSDK.handleChunkedResponse] and [iRacingSDK.requestWithChunking]
    (iracingApi.ts), together with the part of the JavaScript run time these
    four methods rely on: property access on decoded JSON, truthiness,
    string conversion, iteration, object spread. The data methods built on
    them, the endpoint paths (endpoints.ts) and the parameter schemas
    (types.ts) follow, with the part of zod the schemas use.

    Conventions of the data model:
    - a JavaScript string is a [string] whose characters are UTF-16 code
      units below 256;
    - a JavaScript number is an integer [Z] (row counts, chunk counts, HTTP
      status codes, epoch seconds and milliseconds are integral); [None]
      stands for NaN where a conversion can produce it;
    - an object is the list of its own properties in enumeration order; it
      inherits from [Object.prototype], and an own property named
      [toString] or [valueOf] hides the inherited method, so that the
      conversion of an object to a string or to a number can raise. *)

From Stdlib Require Import ZArith List String Ascii Bool Lia DecimalString.
Import ListNotations.
Local Open Scope string_scope.
Local Open Scope Z_scope.
#[local] Set Warnings "-register-all".

(** ** JavaScript values *)

(** The values met while running the four methods: what [JSON.parse] can
    produce, [undefined], and the built-in methods a property read can yield
    ([String.prototype.link], [String.prototype.replace]). *)
Inductive value : Type :=
| VUndef
| VNull
| VBool (b : bool)
| VNum (n : Z)
| VStr (s : string)
| VArr (items : list value)
| VObj (fields : list (string * value))
| VNative (name : string).

(** Exceptions the methods can raise or let through. *)
Inductive exn : Type :=
| Error (msg : string)          (* throw new Error(msg) *)
| TypeError (msg : string)      (* raised by the run time *)
| RangeError (msg : string)     (* Date.prototype.toISOString *)
| ZodError (issue : string)     (* throw parsed.error *)
| Rejected (reason : string).   (* a promise of the host rejected *)

Inductive result (A : Type) : Type :=
| Ok (a : A)
| Throw (e : exn).
Arguments Ok {A} a.
Arguments Throw {A} e.

(** ** Strings *)

Definition chars (s : string) : list ascii := list_ascii_of_string s.
Definition of_chars (l : list ascii) : string := string_of_list_ascii l.

Definition code (c : ascii) : Z := Z.of_nat (nat_of_ascii c).

Definition str_length (s : string) : Z := Z.of_nat (String.length s).

Definition str_empty (s : string) : bool :=
  match s with EmptyString => true | String _ _ => false end.

Fixpoint prefixb (p s : string) : bool :=
  match p, s with
  | EmptyString, _ => true
  | String a p', String b s' => Ascii.eqb a b && prefixb p' s'
  | String _ _, EmptyString => false
  end.

(** [String.prototype.includes]. *)
Fixpoint includes (s needle : string) : bool :=
  prefixb needle s ||
  match s with
  | EmptyString => false
  | String _ s' => includes s' needle
  end.

(** [Number.prototype.toString] on an integer below 10^21 in magnitude. *)
Definition NumberToString (n : Z) : string :=
  NilZero.string_of_int (Z.to_int n).

(** [String.prototype.toLowerCase] on code units below 256: A-Z, and the
    Latin-1 capitals U+00C0..U+00DE except the multiplication sign. *)
Definition lower_char (c : ascii) : ascii :=
  let n := code c in
  if ((65 <=? n) && (n <=? 90)) || ((192 <=? n) && (n <=? 222) && negb (n =? 215))
  then ascii_of_nat (Z.to_nat (n + 32))
  else c.

Definition toLowerCase (s : string) : string := of_chars (map lower_char (chars s)).

(** [\w] of a regular expression without the unicode flag. *)
Definition is_word_char (c : ascii) : bool :=
  let n := code c in
  ((48 <=? n) && (n <=? 57)) || ((65 <=? n) && (n <=? 90)) ||
  ((97 <=? n) && (n <=? 122)) || (n =? 95).

Fixpoint span_word (l : list ascii) : list ascii * list ascii :=
  match l with
  | c :: l' =>
      if is_word_char c then let (w, r) := span_word l' in (c :: w, r)
      else ([], l)
  | [] => ([], [])
  end.

(** [s.replace(/\.\w+$/, '')]: the match, if any, starts at the last dot
    of [s] and runs to the end of the string; it is computed on the
    reversed string, where it is a non-empty run of word characters
    followed by a dot. *)
Definition strip_extension (s : string) : string :=
  match span_word (rev (chars s)) with
  | (_ :: _, dot :: rest) =>
      if Ascii.eqb dot "."%char then of_chars (rev rest) else s
  | _ => s
  end.

(** ** Objects *)

Fixpoint lookup (k : string) (fs : list (string * value)) : option value :=
  match fs with
  | [] => None
  | (k', v) :: fs' => if String.eqb k k' then Some v else lookup k fs'
  end.

(** Assignment of a non-index key: an existing property keeps its place,
    a new one goes last. *)
Fixpoint assign (k : string) (v : value) (fs : list (string * value))
  : list (string * value) :=
  match fs with
  | [] => [(k, v)]
  | (k', v') :: fs' =>
      if String.eqb k k' then (k, v) :: fs' else (k', v') :: assign k v fs'
  end.

(** ** Run-time operations on values *)

(** ToBoolean. *)
Definition truthy (v : value) : bool :=
  match v with
  | VUndef | VNull => false
  | VBool b => b
  | VNum n => negb (n =? 0)
  | VStr s => negb (str_empty s)
  | VArr _ | VObj _ | VNative _ => true
  end.

Definition native_arity (name : string) : Z :=
  if String.eqb name "link" then 1 else 2.

(** Property read [v.k] for the property names the methods use ([link],
    [chunk_info], [data], [num_chunks], [rows], [chunk_file_names],
    [chunk_file_name], [total_chunks], [base_download_url], [length],
    [replace], [ssoCookieValue], [authcode]): own properties of an object,
    [length] of an array or string, the [link] and [replace] methods every
    string inherits; a read on [undefined] or [null] raises. *)
Definition prop (v : value) (k : string) : result value :=
  match v with
  | VUndef =>
      Throw (TypeError ("Cannot read properties of undefined (reading '" ++ k ++ "')"))
  | VNull =>
      Throw (TypeError ("Cannot read properties of null (reading '" ++ k ++ "')"))
  | VObj fs =>
      match lookup k fs with Some x => Ok x | None => Ok VUndef end
  | VArr xs =>
      if String.eqb k "length" then Ok (VNum (Z.of_nat (List.length xs)))
      else Ok VUndef
  | VStr s =>
      if String.eqb k "length" then Ok (VNum (str_length s))
      else if String.eqb k "link" || String.eqb k "replace" then Ok (VNative k)
      else Ok VUndef
  | VBool _ | VNum _ => Ok VUndef
  | VNative f =>
      if String.eqb k "length" then Ok (VNum (native_arity f))
      else if String.eqb k "name" then Ok (VStr f)
      else Ok VUndef
  end.

(** [a && a.k], as a value. *)
Definition and_prop (a : value) (k : string) : result value :=
  if truthy a then prop a k else Ok a.

(** The two ways the conversion of an object to a primitive fails: no
    method of the object yields a primitive, or a method calls the
    conversion again and never returns. *)
Definition not_primitive : exn :=
  TypeError "Cannot convert object to primitive value".

Definition no_return : exn :=
  RangeError "Maximum call stack size exceeded".

(** ToString, as applied by template literals and [String(v)]. An object
    is converted by its [toString] method or, failing that, by its [valueOf]
    method (OrdinaryToPrimitive, hint string). A decoded object inherits
    both from [Object.prototype] unless it has an own property of that name:
    without an own [toString] the inherited one gives the text
    [object Object] in brackets; an own [toString] that is not callable is
    passed over, the inherited [valueOf] returns the object itself, and the
    conversion raises; an own property that holds a method of strings
    ([link], [replace]) is called on the object, starts by converting the
    object again, and so overflows the stack. An array joins the conversions
    of its elements with commas, [null] and [undefined] counting as empty,
    and raises when an element does. *)
Fixpoint ToString (v : value) : result string :=
  match v with
  | VUndef => Ok "undefined"
  | VNull => Ok "null"
  | VBool true => Ok "true"
  | VBool false => Ok "false"
  | VNum n => Ok (NumberToString n)
  | VStr s => Ok s
  | VArr xs =>
      (fix join (l : list value) : result string :=
         match l with
         | [] => Ok ""
         | x :: l' =>
             match (match x with VNull | VUndef => Ok "" | _ => ToString x end) with
             | Throw e => Throw e
             | Ok e =>
                 match l' with
                 | [] => Ok e
                 | _ :: _ =>
                     match join l' with
                     | Ok r => Ok (e ++ "," ++ r)
                     | Throw e' => Throw e'
                     end
                 end
             end
         end) xs
  | VObj fs =>
      match lookup "toString" fs with
      | None => Ok "[object Object]"
      | Some (VNative _) => Throw no_return
      | Some _ =>
          match lookup "valueOf" fs with
          | Some (VNative _) => Throw no_return
          | _ => Throw not_primitive
          end
      end
  | VNative f => Ok ("function " ++ f ++ "() { [native code] }")
  end.

(** The elements an iteration ([for ... of], spread into an argument list)
    visits: the items of an array, the characters of a string; no other
    value met here is iterable. The message of the TypeError, which names
    the expression iterated, is not modelled. *)
Definition iterate (v : value) : result (list value) :=
  match v with
  | VArr xs => Ok xs
  | VStr s => Ok (map (fun c => VStr (String c EmptyString)) (chars s))
  | _ => Throw (TypeError "object is not iterable")
  end.

(** The own enumerable properties [{...v}] copies. Only objects reach the
    two spreads of the resolver; arrays and strings contribute their indexed
    items, any other value nothing. *)
Definition spread (v : value) : list (string * value) :=
  let index := fix index (i : Z) (l : list value) : list (string * value) :=
    match l with
    | [] => []
    | x :: l' => (NumberToString i, x) :: index (i + 1) l'
    end in
  match v with
  | VObj fs => fs
  | VArr xs => index 0 xs
  | VStr s => index 0 (map (fun c => VStr (String c EmptyString)) (chars s))
  | _ => []
  end.

(** [Number(s)] on a string: the empty string reads as 0, any other text
    is read by the host's [StringToNumber]. *)
Definition NumberOfString (StringToNumber : string -> option Z) (s : string)
  : option Z :=
  if str_empty s then Some 0 else StringToNumber s.

(** [s.link(url)]: the anchor element around [s]. *)
Definition anchor (url s : string) : string :=
  "<a href=" ++ String (ascii_of_nat 34) url ++ String (ascii_of_nat 34) ">" ++ s ++ "</a>".

(** What a method of strings returns when the conversion to a number calls
    it, without arguments, as the [valueOf] of an object whose text is [s]:
    [link] wraps the text in an anchor, [replace] finds nothing to replace. *)
Definition native_valueOf (f s : string) : string :=
  if String.eqb f "link" then anchor "undefined" s else s.

(** ToNumber. An array or object is first converted to a primitive
    (OrdinaryToPrimitive, hint number): [valueOf] comes first, and the
    inherited one returns the object itself, so that the text [toString]
    gives is read as a number; the conversion raises where that of ToString
    does. An own [valueOf] that holds a method of strings is called on the
    object and converts it to its text first. *)
Definition ToNumber (StringToNumber : string -> option Z) (v : value)
  : result (option Z) :=
  match v with
  | VUndef => Ok None
  | VNull => Ok (Some 0)
  | VBool b => Ok (Some (if b then 1 else 0))
  | VNum n => Ok (Some n)
  | VStr s => Ok (NumberOfString StringToNumber s)
  | VArr _ | VNative _ =>
      match ToString v with
      | Ok s => Ok (NumberOfString StringToNumber s)
      | Throw e => Throw e
      end
  | VObj fs =>
      match ToString v with
      | Ok s =>
          match lookup "valueOf" fs with
          | Some (VNative f) => Ok (NumberOfString StringToNumber (native_valueOf f s))
          | _ => Ok (NumberOfString StringToNumber s)
          end
      | Throw e => Throw e
      end
  end.

(** [a < b] on numbers, false as soon as one side is NaN. *)
Definition num_lt (a b : option Z) : bool :=
  match a, b with Some x, Some y => x <? y | _, _ => false end.

(** [v === n] for a number literal [n]. *)
Definition strict_eq_num (v : value) (n : Z) : bool :=
  match v with VNum m => m =? n | _ => false end.

(** ** The host: transport, clock, timers, library functions *)

Inductive HeadersInit : Type :=
| HeadersObject (entries : list (string * string))   (* a Headers instance *)
| HeadersPairs (entries : list (string * string))    (* an array of pairs *)
| HeadersRecord (entries : list (string * string)).  (* a plain object *)

Definition header_entries (h : HeadersInit) : list (string * string) :=
  match h with
  | HeadersObject l | HeadersPairs l | HeadersRecord l => l
  end.

Inductive BodyInit : Type :=
| BodyText (s : string)
| BodyStringify (v : value).    (* JSON.stringify(v) *)

Record RequestInit : Type := {
  method : option string;
  headers : option HeadersInit;
  body : option BodyInit;
  credentials : option string
}.

Definition no_options : RequestInit :=
  {| method := None; headers := None; body := None; credentials := None |}.

(** What the methods read of a fetch [Response]. Header names are stored in
    lower case, as [Headers] normalises them. *)
Record Response : Type := {
  res_ok : bool;
  res_status : Z;
  res_headers : list (string * string);
  res_json : result value;      (* await res.json() *)
  res_text : result string      (* await res.text() *)
}.

Fixpoint headers_get (name : string) (hs : list (string * string)) : option string :=
  match hs with
  | [] => None
  | (k, v) :: hs' => if String.eqb name k then Some v else headers_get name hs'
  end.

(** [if (h)] on the result of [Headers.get]: neither null nor empty. *)
Definition present (h : option string) : bool :=
  match h with Some s => negb (str_empty s) | None => false end.

(** The branch of [authenticate] the run time selects. *)
Inductive CryptoRuntime : Type :=
| WindowSubtle      (* window.crypto.subtle *)
| GlobalSubtle      (* global.crypto.subtle *)
| NodeCrypto.       (* import('crypto') *)

Class Host : Type := {
  Env : Type;
  (** the injected transport, [this.fetchImpl] *)
  fetchImpl : value -> option RequestInit -> Env -> result Response * Env;
  (** [Date.now()] *)
  Date_now : Env -> Z;
  (** the environment after [await new Promise(r => setTimeout(r, ms))] *)
  setTimeout : Z -> Env -> Env;
  (** the numeric reading of a non-empty string; [None] is NaN *)
  StringToNumber : string -> option Z;
  (** [URLSearchParams.prototype.toString] *)
  URLSearchParams_toString : list (string * string) -> string;
  (** zod's [z.string().email()] check *)
  zod_email : string -> bool;
  crypto_runtime : CryptoRuntime;
  (** SHA-256 of a byte sequence, as [crypto.subtle.digest('SHA-256', _)]
      and [createHash('sha256')] compute it *)
  sha256 : list Byte.byte -> list Byte.byte
}.

(** ** Console lines and observable events *)

Inductive console : Type :=
| Requesting (url : string)
| RateLimit (limit remaining reset : option string) (resetDate : option Z)
| RateLimitWait (waitMs : Z)
| AuthenticationResponse (response : value)
| DirectLink (link : string)
| CsvResponse
| LinkedDataFetched
| NoChunksNeeded (rows : string)
| NestedChunks (num_chunks : string)
| FetchingChunk (url : string)
| CombinedNested (records : Z) (num_chunks : string)
| ProcessingChunked (total_chunks : string)
| FetchingSingleChunk (url : string)
| FetchingIndexedChunk (i : Z) (total_chunks : string) (url : string)
| ChunkStatusFailed (i : Z) (status : Z)
| ChunkFetchError (i : Z) (e : exn)
| Combined (records : Z) (total_chunks : string).

Inductive event : Type :=
| EvFetch (url : value) (init : option RequestInit) (out : result Response)
| EvDelay (ms : Z)
| EvLog (line : console)
| EvWarn (line : console).

(** The fetches of a trace, in order. *)
Fixpoint fetches (t : list event) : list (value * result Response) :=
  match t with
  | [] => []
  | EvFetch u _ o :: t' => (u, o) :: fetches t'
  | _ :: t' => fetches t'
  end.

(** The delays of a trace, in order. *)
Fixpoint delays (t : list event) : list Z :=
  match t with
  | [] => []
  | EvDelay ms :: t' => ms :: delays t'
  | _ :: t' => delays t'
  end.

(** ** The client object *)

Record IracingApiOptions : Type := {
  opt_baseUrl : option string;
  opt_autoHandleChunkedResponses : option bool
}.

Record iRacingSDK : Type := {
  baseUrl : string;
  autoHandleChunkedResponses : bool;
  ssoCookieValue : value;
  authcode : value
}.

(** [new iRacingSDK(options)]; the transport is the host's [fetchImpl]. *)
Definition constructor (options : IracingApiOptions) : iRacingSDK :=
  {| baseUrl :=
       match opt_baseUrl options with
       | Some u => if str_empty u then "https://members-ng.iracing.com" else u
       | None => "https://members-ng.iracing.com"
       end;
     autoHandleChunkedResponses :=
       match opt_autoHandleChunkedResponses options with
       | Some false => false
       | _ => true
       end;
     ssoCookieValue := VUndef;
     authcode := VUndef |}.

(** [ApiEndpoints.AUTH]. *)
Definition AUTH : string := "/auth".

(** [setCookie.match(/irsso_membersv2=([^;]+)/)]: the first capture group of
    the leftmost match. *)
Fixpoint take_until_semicolon (s : string) : string :=
  match s with
  | EmptyString => EmptyString
  | String c s' =>
      if Ascii.eqb c ";"%char then EmptyString
      else String c (take_until_semicolon s')
  end.

Fixpoint drop (n : nat) (s : string) : string :=
  match n, s with
  | O, _ => s
  | S n', String _ s' => drop n' s'
  | S _, EmptyString => EmptyString
  end.

Fixpoint match_irsso (s : string) : option string :=
  let here :=
    if prefixb "irsso_membersv2=" s then
      let v := take_until_semicolon (drop 16 s) in
      if str_empty v then None else Some v
    else None in
  match here with
  | Some v => Some v
  | None =>
      match s with
      | EmptyString => None
      | String _ s' => match_irsso s'
      end
  end.

(** ** Encodings used by the credential hasher *)

(** [new TextEncoder().encode(s)]: UTF-8 of code units below 256. *)
Definition utf8_char (c : ascii) : list Byte.byte :=
  let n := code c in
  if n <? 128 then [byte_of_ascii c]
  else [byte_of_ascii (ascii_of_nat (Z.to_nat (192 + n / 64)));
        byte_of_ascii (ascii_of_nat (Z.to_nat (128 + n mod 64)))].

Definition utf8 (s : string) : list Byte.byte := flat_map utf8_char (chars s).

Definition byte_val (b : Byte.byte) : Z := Z.of_N (Byte.to_N b).

Definition base64_digit (n : Z) : ascii :=
  ascii_of_nat (Z.to_nat
    (if n <? 26 then 65 + n
     else if n <? 52 then 97 + (n - 26)
     else if n <? 62 then 48 + (n - 52)
     else if n =? 62 then 43 else 47)).

(** Base64 with padding, the encoding of both [btoa] and
    [Buffer.prototype.toString('base64')]. *)
Fixpoint base64 (bs : list Byte.byte) : string :=
  match bs with
  | [] => ""
  | [a] =>
      let x := byte_val a in
      String (base64_digit (x / 4))
        (String (base64_digit ((x mod 4) * 16)) "==")
  | [a; b] =>
      let x := byte_val a in
      let y := byte_val b in
      String (base64_digit (x / 4))
        (String (base64_digit ((x mod 4) * 16 + y / 16))
           (String (base64_digit ((y mod 16) * 4)) "="))
  | a :: b :: c :: rest =>
      let x := byte_val a in
      let y := byte_val b in
      let z := byte_val c in
      String (base64_digit (x / 4))
        (String (base64_digit ((x mod 4) * 16 + y / 16))
           (String (base64_digit ((y mod 16) * 4 + z / 64))
              (String (base64_digit (z mod 64)) (base64 rest))))
  end.

(** [Array.from(bytes).map(b => String.fromCharCode(b)).join('')]. *)
Definition fromCharCodes (bs : list Byte.byte) : string :=
  of_chars (map ascii_of_byte bs).

(** [btoa(s)] on a string of code units below 256. *)
Definition btoa (s : string) : string := base64 (map byte_of_ascii (chars s)).

(** [new Date(ms).toISOString()] raises on an invalid time value; on a valid
    one the console line records the time value itself. *)
Definition toISOString (ms : option Z) : result Z :=
  match ms with
  | Some t =>
      if (-8640000000000000 <=? t) && (t <=? 8640000000000000) then Ok t
      else Throw (RangeError "Invalid time value")
  | None => Throw (RangeError "Invalid time value")
  end.

Definition is_nil {A : Type} (l : list A) : bool :=
  match l with [] => true | _ :: _ => false end.

(** The [params.append(key, String(value))] calls of [request]: one per
    entry of [query] whose value is not [undefined], in the order of the
    entries; the loop ends at the first value [String] raises on. *)
Fixpoint query_params (query : list (string * value))
  : result (list (string * string)) :=
  match query with
  | [] => Ok []
  | (key, VUndef) :: q => query_params q
  | (key, v) :: q =>
      match ToString v with
      | Throw e => Throw e
      | Ok s =>
          match query_params q with
          | Ok params => Ok ((key, s) :: params)
          | Throw e => Throw e
          end
      end
  end.

(** [baseHeaders[key] = value] for each given header, in order. *)
Fixpoint set_headers (given base : list (string * string)) : list (string * string) :=
  match given with
  | [] => base
  | (k, v) :: g =>
      let put := fix put (hs : list (string * string)) :=
        match hs with
        | [] => [(k, v)]
        | (k', v') :: hs' =>
            if String.eqb k k' then (k, v) :: hs' else (k', v') :: put hs'
        end in
      set_headers g (put base)
  end.

Definition default_headers : list (string * string) :=
  [("Content-Type", "application/json");
   ("User-Agent", "Mozilla/5.0 (Windows NT 10.0; Win64; x64) AppleWebKit/537.36 (KHTML, like Gecko) Chrome/125.0.0.0 Safari/537.36")].

Record AuthRequest : Type := {
  email : string;
  password : string
}.

(** ** The methods *)

Section Client.

Context {host : Host}.

(** The state a call runs in: the host's environment, the events so far
    (oldest first) and the client object. *)
Record World : Type := {
  env : Env;
  trace : list event;
  this : iRacingSDK
}.

(** An asynchronous computation: it ends with a value or an exception and
    leaves a new state. *)
Definition M (A : Type) : Type := World -> result A * World.

Definition ret {A : Type} (a : A) : M A := fun w => (Ok a, w).

Definition throw {A : Type} (e : exn) : M A := fun w => (Throw e, w).

Definition bind {A B : Type} (m : M A) (k : A -> M B) : M B :=
  fun w =>
    match m w with
    | (Ok a, w') => k a w'
    | (Throw e, w') => (Throw e, w')
    end.

Definition lift {A : Type} (r : result A) : M A := fun w => (r, w).

(** [try { m } catch (error) { handler error }]. *)
Definition try_catch {A : Type} (m : M A) (handler : exn -> M A) : M A :=
  fun w =>
    match m w with
    | (Ok a, w') => (Ok a, w')
    | (Throw e, w') => handler e w'
    end.

Definition emit (e : event) : M unit :=
  fun w => (Ok tt, {| env := env w; trace := trace w ++ [e]; this := this w |}).

Definition console_log (line : console) : M unit := emit (EvLog line).
Definition console_warn (line : console) : M unit := emit (EvWarn line).

(** [await this.fetchImpl(url, init)]. *)
Definition fetch (url : value) (init : option RequestInit) : M Response :=
  fun w =>
    let (out, env') := fetchImpl url init (env w) in
    (out, {| env := env'; trace := trace w ++ [EvFetch url init out]; this := this w |}).

(** [await new Promise(resolve => setTimeout(resolve, ms))]. *)
Definition sleep (ms : Z) : M unit :=
  fun w =>
    (Ok tt, {| env := setTimeout ms (env w); trace := trace w ++ [EvDelay ms];
               this := this w |}).

Definition now : M Z := fun w => (Ok (Date_now (env w)), w).

Definition get_this : M iRacingSDK := fun w => (Ok (this w), w).

Definition set_ssoCookieValue (v : value) : M unit :=
  fun w =>
    (Ok tt, {| env := env w; trace := trace w;
               this := {| baseUrl := baseUrl (this w);
                          autoHandleChunkedResponses := autoHandleChunkedResponses (this w);
                          ssoCookieValue := v;
                          authcode := authcode (this w) |} |}).

Definition set_authcode (v : value) : M unit :=
  fun w =>
    (Ok tt, {| env := env w; trace := trace w;
               this := {| baseUrl := baseUrl (this w);
                          autoHandleChunkedResponses := autoHandleChunkedResponses (this w);
                          ssoCookieValue := ssoCookieValue (this w);
                          authcode := v |} |}).

Notation "x <- m ;; k" := (bind m (fun x => k))
  (at level 61, m at next level, right associativity).
Notation "m ;;; k" := (bind m (fun _ => k))
  (at level 61, right associativity).

Definition when (b : bool) (m : M unit) : M unit := if b then m else ret tt.

(** [Number(h)] on a header value: [Number(null)] is 0. *)
Definition Number_header (h : option string) : option Z :=
  match h with
  | Some s => NumberOfString StringToNumber s
  | None => Some 0
  end.

Definition times1000 (n : option Z) : option Z :=
  match n with Some x => Some (x * 1000) | None => None end.

(** The rate-limit part of [request], run on the headers of the response.
    First block: the console line when a rate-limit header is present. *)
Definition rate_limit_log (res : Response) : M unit :=
  let limit := headers_get "x-ratelimit-limit" (res_headers res) in
  let remaining := headers_get "x-ratelimit-remaining" (res_headers res) in
  let reset := headers_get "x-ratelimit-reset" (res_headers res) in
  when (present limit || present remaining || present reset)
    (resetDate <-
       (if present reset
        then d <- lift (toISOString (times1000 (Number_header reset))) ;; ret (Some d)
        else ret None) ;;
     console_log (RateLimit limit remaining reset resetDate)).

(** Second block: the wait until the reset when the quota is used up. *)
Definition rate_limit_wait (res : Response) : M unit :=
  let remaining := headers_get "x-ratelimit-remaining" (res_headers res) in
  let reset := headers_get "x-ratelimit-reset" (res_headers res) in
  when (match remaining with Some _ => true | None => false end
        && present reset
        && match Number_header remaining with Some r => r <=? 1 | None => false end)
    (t <- now ;;
     match times1000 (Number_header reset) with
     | Some resetMs =>
         let waitMs := resetMs - t in
         when (0 <? waitMs)
           (console_warn (RateLimitWait waitMs) ;;; sleep waitMs)
     | None => ret tt
     end).

Definition rate_limit (res : Response) : M unit :=
  rate_limit_log res ;;; rate_limit_wait res.

(** The URL [request] builds, from the base URL of the client, the path
    and the query: the first statements of the method, which raise when a
    value of the query has no text. *)
Definition request_url (sdk : iRacingSDK) (path : string)
  (query : option (list (string * value))) : result string :=
  let url := baseUrl sdk ++ path in
  match query with
  | Some q =>
      if negb (is_nil q)
      then match query_params q with
           | Ok params => Ok (url ++ "?" ++ URLSearchParams_toString params)
           | Throw e => Throw e
           end
      else Ok url
  | None => Ok url
  end.

(** The conversion of a value interpolated in a template literal. *)
Definition interpolate (v : value) : M string := lift (ToString v).

(** [iRacingSDK.request]. *)
Definition request (path : string) (options : RequestInit)
  (query : option (list (string * value))) : M value :=
  sdk <- get_this ;;
  url <- lift (request_url sdk path query) ;;
  console_log (Requesting url) ;;;
  let baseHeaders :=
    match headers options with
    | Some h => set_headers (header_entries h) default_headers
    | None => default_headers
    end in
  res <- fetch (VStr url)
           (Some {| method := method options;
                    headers := Some (HeadersRecord baseHeaders);
                    body := body options;
                    credentials := Some "include" |}) ;;
  rate_limit res ;;;
  if negb (res_ok res)
  then throw (Error ("HTTP error! status: " ++ NumberToString (res_status res)))
  else lift (res_json res).

(** The digest computed in [authenticate], one expression per branch. *)
Definition hashBase64 (passwordConcat : string) : string :=
  match crypto_runtime with
  | WindowSubtle => btoa (fromCharCodes (sha256 (utf8 passwordConcat)))
  | GlobalSubtle => base64 (sha256 (utf8 passwordConcat))
  | NodeCrypto => base64 (sha256 (utf8 passwordConcat))
  end.

(** The session update at the end of [authenticate]: the token comes from
    the body, or else from the [irsso_membersv2] cookie of the response. *)
Definition store_session (res : Response) (response : value) : M unit :=
  sso <- lift (prop response "ssoCookieValue") ;;
  if truthy sso then
    set_ssoCookieValue sso ;;;
    code <- lift (prop response "authcode") ;;
    when (truthy code) (set_authcode code)
  else
    match headers_get "set-cookie" (res_headers res) with
    | Some setCookie =>
        match (if str_empty setCookie then None else match_irsso setCookie) with
        | Some captured => set_ssoCookieValue (VStr captured)
        | None => ret tt
        end
    | None => ret tt
    end ;;;
    code <- lift (prop response "authcode") ;;
    when (truthy code) (set_authcode code).

(** [iRacingSDK.authenticate]. *)
Definition authenticate (req : AuthRequest) : M value :=
  if negb (zod_email (email req)) then throw (ZodError "Invalid email") else
  let email := toLowerCase (email req) in
  let passwordConcat := password req ++ email in
  sdk <- get_this ;;
  res <- fetch (VStr (baseUrl sdk ++ AUTH))
           (Some {| method := Some "POST";
                    headers := Some (HeadersRecord [("Content-Type", "application/json")]);
                    body := Some (BodyStringify
                              (VObj [("email", VStr email);
                                     ("password", VStr (hashBase64 passwordConcat))]));
                    credentials := Some "include" |}) ;;
  if negb (res_ok res)
  then throw (Error ("HTTP error! status: " ++ NumberToString (res_status res)))
  else
    response <- lift (res_json res) ;;
    console_log (AuthenticationResponse response) ;;;
    store_session res response ;;;
    ret response.

(** [names && names.length > 0]; the comparison converts the length to a
    number. *)
Definition has_file_names (names : value) : result bool :=
  if truthy names then
    match prop names "length" with
    | Ok len =>
        match ToNumber StringToNumber len with
        | Ok n => Ok (num_lt (Some 0) n)
        | Throw e => Throw e
        end
    | Throw e => Throw e
    end
  else Ok false.

(** [name.replace(/\.\w+$/, '')]: a method call, so it raises when [name] is
    [undefined] or [null], and when [name] has no callable [replace]. A
    string has the method of strings. An object has it only as an own
    property holding a method of strings, which is then called on the
    object and converts it to its text first: [replace] strips the
    extension of the text, [link] wraps it in an anchor to the pattern. *)
Definition replace_extension (name : value) : result string :=
  match name with
  | VStr s => Ok (strip_extension s)
  | VUndef | VNull =>
      match prop name "replace" with
      | Throw e => Throw e
      | Ok _ => Throw (TypeError "chunkInfo.chunk_file_name.replace is not a function")
      end
  | VObj fs =>
      match lookup "replace" fs with
      | Some (VNative f) =>
          match ToString name with
          | Ok s =>
              Ok (if String.eqb f "link" then anchor "/\.\w+$/" s
                  else strip_extension s)
          | Throw e => Throw e
          end
      | _ => Throw (TypeError "chunkInfo.chunk_file_name.replace is not a function")
      end
  | _ => Throw (TypeError "chunkInfo.chunk_file_name.replace is not a function")
  end.

(** The body of the two [for (const chunkFileName of ...chunk_file_names)]
    loops (nested strategy and legacy named list, the same statements),
    over the file names still to visit; [chunks] is the array filled so far. *)
Fixpoint fetch_named_chunks (base_download_url : value) (names : list value)
  (chunks : list value) : M (list value) :=
  match names with
  | [] => ret chunks
  | chunkFileName :: names' =>
      base <- interpolate base_download_url ;;
      name <- interpolate chunkFileName ;;
      let chunkUrl := base ++ name in
      console_log (FetchingChunk chunkUrl) ;;;
      chunkResponse <- fetch (VStr chunkUrl) None ;;
      if negb (res_ok chunkResponse)
      then throw (Error ("Failed to fetch chunk: " ++ NumberToString (res_status chunkResponse)))
      else
        chunkData <- lift (res_json chunkResponse) ;;
        items <- lift (iterate chunkData) ;;
        sleep 100 ;;;
        fetch_named_chunks base_download_url names' (chunks ++ items)%list
  end.

(** The fallback loop [for (let i = 0; i < chunkInfo.total_chunks; i++)],
    with [todo] iterations left from index [i] on. *)
Fixpoint fetch_indexed_chunks (todo : nat) (i : Z) (chunkInfo : value)
  (chunks : list value) : M (list value) :=
  match todo with
  | O => ret chunks
  | S todo' =>
      name <- lift (prop chunkInfo "chunk_file_name") ;;
      stem <- lift (replace_extension name) ;;
      let chunkFileName := stem ++ "_" ++ NumberToString i ++ ".json" in
      base_download_url <- lift (prop chunkInfo "base_download_url") ;;
      base <- interpolate base_download_url ;;
      let chunkUrl := base ++ chunkFileName in
      total_chunks <- lift (prop chunkInfo "total_chunks") ;;
      total <- interpolate total_chunks ;;
      console_log (FetchingIndexedChunk (i + 1) total chunkUrl) ;;;
      chunks' <-
        try_catch
          (chunkResponse <- fetch (VStr chunkUrl) None ;;
           if negb (res_ok chunkResponse)
           then console_warn (ChunkStatusFailed i (res_status chunkResponse)) ;;;
                ret chunks
           else
             chunkData <- lift (res_json chunkResponse) ;;
             items <- lift (iterate chunkData) ;;
             sleep 100 ;;;
             ret (chunks ++ items)%list)
          (fun error => console_warn (ChunkFetchError i error) ;;; ret chunks) ;;
      fetch_indexed_chunks todo' (i + 1) chunkInfo chunks'
  end.

(** The number of iterations of the fallback loop: the test
    [i < chunkInfo.total_chunks] converts the count to a number, and fails
    at once when the count is not one. *)
Definition indexed_iterations (total_chunks : value) : result nat :=
  match ToNumber StringToNumber total_chunks with
  | Ok (Some n) => Ok (Z.to_nat n)
  | Ok None => Ok O
  | Throw e => Throw e
  end.

Definition list_length (l : list value) : Z := Z.of_nat (List.length l).

(** [iRacingSDK.handleChunkedResponse]. *)
Definition handleChunkedResponse (response : value) : M value :=
  link <- lift (prop response "link") ;;
  chunk_info <- lift (prop response "chunk_info") ;;
  if truthy link && negb (truthy chunk_info) then
    (* direct link *)
    shown <- interpolate link ;;
    console_log (DirectLink shown) ;;;
    linkResponse <- fetch link None ;;
    if negb (res_ok linkResponse)
    then throw (Error ("Failed to fetch linked data: " ++ NumberToString (res_status linkResponse)))
    else
      let contentType := headers_get "content-type" (res_headers linkResponse) in
      if present contentType &&
         match contentType with Some ct => includes ct "text/csv" | None => false end
      then
        console_log CsvResponse ;;;
        csvText <- lift (res_text linkResponse) ;;
        ret (VStr csvText)
      else
        linkData <- lift (res_json linkResponse) ;;
        console_log LinkedDataFetched ;;;
        ret linkData
  else
  data <- lift (prop response "data") ;;
  nested_info <- lift (and_prop data "chunk_info") ;;
  if truthy nested_info then
    (* nested chunk_info *)
    let nestedData := data in
    num_chunks <- lift (prop nested_info "num_chunks") ;;
    rows <- lift (prop nested_info "rows") ;;
    if strict_eq_num num_chunks 0 || strict_eq_num rows 0 then
      shown <- interpolate rows ;;
      console_log (NoChunksNeeded shown) ;;;
      ret nestedData
    else
      chunk_file_names <- lift (prop nested_info "chunk_file_names") ;;
      listed <- lift (has_file_names chunk_file_names) ;;
      if listed then
        shown <- interpolate num_chunks ;;
        console_log (NestedChunks shown) ;;;
        names <- lift (iterate chunk_file_names) ;;
        base_download_url <- lift (prop nested_info "base_download_url") ;;
        chunks <- fetch_named_chunks base_download_url names [] ;;
        shown <- interpolate num_chunks ;;
        console_log (CombinedNested (list_length chunks) shown) ;;;
        ret (VObj (assign "chunk_info" nested_info
                     (assign "data" (VArr chunks) (spread nestedData))))
      else ret nestedData
  else
  if negb (truthy chunk_info) then ret response else
  (* top-level chunk_info *)
  let chunkInfo := chunk_info in
  total_chunks <- lift (prop chunkInfo "total_chunks") ;;
  shown <- interpolate total_chunks ;;
  console_log (ProcessingChunked shown) ;;;
  chunk_file_name <- lift (prop chunkInfo "chunk_file_name") ;;
  base_download_url <- lift (prop chunkInfo "base_download_url") ;;
  chunks <-
    (if truthy chunk_file_name && strict_eq_num total_chunks 1 then
       base <- interpolate base_download_url ;;
       name <- interpolate chunk_file_name ;;
       let chunkUrl := base ++ name in
       console_log (FetchingSingleChunk chunkUrl) ;;;
       chunkResponse <- fetch (VStr chunkUrl) None ;;
       if negb (res_ok chunkResponse)
       then throw (Error ("Failed to fetch chunk: " ++ NumberToString (res_status chunkResponse)))
       else
         chunkData <- lift (res_json chunkResponse) ;;
         lift (iterate chunkData)
     else
       chunk_file_names <- lift (prop chunkInfo "chunk_file_names") ;;
       listed <- lift (has_file_names chunk_file_names) ;;
       if listed then
         names <- lift (iterate chunk_file_names) ;;
         fetch_named_chunks base_download_url names []
       else
         todo <- lift (indexed_iterations total_chunks) ;;
         fetch_indexed_chunks todo 0 chunkInfo []) ;;
  shown <- interpolate total_chunks ;;
  console_log (Combined (list_length chunks) shown) ;;;
  ret (VObj (assign "chunk_info" chunkInfo
               (assign "data" (VArr chunks) (spread response)))).

(** [iRacingSDK.requestWithChunking]. *)
Definition requestWithChunking (path : string) (options : RequestInit)
  (query : option (list (string * value))) (handleChunks : option bool) : M value :=
  response <- request path options query ;;
  sdk <- get_this ;;
  let shouldHandleChunks :=
    match handleChunks with
    | Some b => b
    | None => autoHandleChunkedResponses sdk
    end in
  if shouldHandleChunks then
    chunk_info <- lift (prop response "chunk_info") ;;
    link <- lift (prop response "link") ;;
    if truthy chunk_info || truthy link
    then handleChunkedResponse response
    else ret response
  else ret response.

End Client.

(** ** A test host

    A static origin: every URL answers with the response the route table
    gives it, and an unknown URL rejects. The environment is the clock, in
    milliseconds; a timer advances it by its delay. The library functions
    are stand-ins that agree with the real ones on the inputs used below:
    decimal digits for [StringToNumber], [key=value] pairs joined by [&]
    for [URLSearchParams], a single [@] with text on both sides for the
    e-mail check, and a fixed 4-byte fold for the digest. *)

Definition json_response (body : value) : Response :=
  {| res_ok := true; res_status := 200;
     res_headers := [("content-type", "application/json")];
     res_json := Ok body;
     res_text := Ok "" |}.

Definition csv_response (text : string) : Response :=
  {| res_ok := true; res_status := 200;
     res_headers := [("content-type", "text/csv; charset=utf-8")];
     res_json := Throw (Rejected "SyntaxError: Unexpected token in JSON");
     res_text := Ok text |}.

Definition failed_response (code : Z) : Response :=
  {| res_ok := false; res_status := code;
     res_headers := [];
     res_json := Ok VNull;
     res_text := Ok "" |}.

Definition with_headers (hs : list (string * string)) (r : Response) : Response :=
  {| res_ok := res_ok r; res_status := res_status r;
     res_headers := hs;
     res_json := res_json r;
     res_text := res_text r |}.

Fixpoint route (url : string) (routes : list (string * Response)) : result Response :=
  match routes with
  | [] => Throw (Rejected "network error")
  | (u, r) :: routes' => if String.eqb url u then Ok r else route url routes'
  end.

Definition decimal (s : string) : option Z :=
  match NilZero.uint_of_string s with
  | Some d => Some (Z.of_uint d)
  | None => None
  end.

Fixpoint join_params (ps : list (string * string)) : string :=
  match ps with
  | [] => ""
  | [(k, v)] => k ++ "=" ++ v
  | (k, v) :: ps' => k ++ "=" ++ v ++ "&" ++ join_params ps'
  end.

Fixpoint count_at (s : string) : nat :=
  match s with
  | EmptyString => O
  | String c s' => ((if Ascii.eqb c "@"%char then 1 else 0) + count_at s')%nat
  end.

Definition simple_email (s : string) : bool :=
  Nat.eqb (count_at s) 1 &&
  negb (prefixb "@" s) &&
  negb (prefixb "@" (of_chars (rev (chars s)))).

Definition fold_digest (bs : list Byte.byte) : list Byte.byte :=
  let sum := fold_left (fun acc b => (acc * 31 + byte_val b) mod 4294967296) bs 7 in
  map (fun k => byte_of_ascii (ascii_of_nat (Z.to_nat ((sum / 256 ^ k) mod 256))))
      [3; 2; 1; 0].

Definition test_host (routes : list (string * Response)) (rt : CryptoRuntime) : Host :=
  {| Env := Z;
     fetchImpl := fun url _ clock =>
       (match ToString url with
        | Ok address => route address routes
        | Throw e => Throw e
        end, clock);
     Date_now := fun clock => clock;
     setTimeout := fun ms clock => clock + ms;
     StringToNumber := decimal;
     URLSearchParams_toString := join_params;
     zod_email := simple_email;
     crypto_runtime := rt;
     sha256 := fold_digest |}.

(** A fresh client at time [clock]. *)
Definition fresh (h : Host) (clock : @Env h) (options : IracingApiOptions) : @World h :=
  {| env := clock; trace := []; this := constructor options |}.

Definition defaults : IracingApiOptions :=
  {| opt_baseUrl := None; opt_autoHandleChunkedResponses := None |}.

(** ** Test data *)

Definition s3 : string := "https://s3.example.com/".

(** A legacy response with a list of three chunk files. *)
Definition named_response : value :=
  VObj [("success", VBool true);
        ("data", VArr []);
        ("chunk_info",
         VObj [("chunk_size", VNum 2);
               ("total_chunks", VNum 3);
               ("chunk_file_name", VStr "results.json");
               ("rows", VNum 5);
               ("base_download_url", VStr s3);
               ("chunk_file_names",
                VArr [VStr "a.json"; VStr "b.json"; VStr "c.json"])])].

Definition rec (id : Z) : value := VObj [("id", VNum id)].

(** The three files, the third repeating a record of the first and out of
    order with respect to it. *)
Definition origin_abc : Host :=
  test_host
    [(s3 ++ "a.json", json_response (VArr [rec 1; rec 2]));
     (s3 ++ "b.json", json_response (VArr [rec 3]));
     (s3 ++ "c.json", json_response (VArr [rec 2; rec 0]))]
    NodeCrypto.

(** The same origin, the second file failing. *)
Definition origin_b_fails : Host :=
  test_host
    [(s3 ++ "a.json", json_response (VArr [rec 1; rec 2]));
     (s3 ++ "b.json", failed_response 500);
     (s3 ++ "c.json", json_response (VArr [rec 2; rec 0]))]
    NodeCrypto.

(** A legacy response without a list: three chunks named by index. *)
Definition indexed_response : value :=
  VObj [("success", VBool true);
        ("chunk_info",
         VObj [("chunk_size", VNum 2);
               ("total_chunks", VNum 3);
               ("chunk_file_name", VStr "results.json");
               ("rows", VNum 4);
               ("base_download_url", VStr s3)])].

Definition origin_indexed : Host :=
  test_host
    [(s3 ++ "results_0.json", json_response (VArr [rec 1; rec 2]));
     (s3 ++ "results_1.json", failed_response 404);
     (s3 ++ "results_2.json", json_response (VArr [rec 5; rec 6]))]
    NodeCrypto.

(** A legacy response with neither a list nor a base name. *)
Definition nameless_response : value :=
  VObj [("success", VBool true);
        ("chunk_info",
         VObj [("total_chunks", VNum 2);
               ("rows", VNum 4);
               ("base_download_url", VStr s3)])].

(** A response whose only chunk_info is nested under [data], in the shape
    of [search_series_results]. *)
Definition nested_response : value :=
  VObj [("type", VStr "search_series_results");
        ("data",
         VObj [("success", VBool true);
               ("chunk_info",
                VObj [("chunk_size", VNum 2);
                      ("num_chunks", VNum 2);
                      ("rows", VNum 3);
                      ("base_download_url", VStr s3);
                      ("chunk_file_names", VArr [VStr "a.json"; VStr "b.json"])]);
               ("params", VObj [("season_year", VNum 2024)])])].

Definition search_series : string := "/data/results/search_series".

Definition origin_search : Host :=
  test_host
    [("https://members-ng.iracing.com" ++ search_series, json_response nested_response);
     (s3 ++ "a.json", json_response (VArr [rec 1; rec 2]));
     (s3 ++ "b.json", json_response (VArr [rec 3]))]
    NodeCrypto.

(** A nested chunk_info announcing no rows. *)
Definition empty_nested_response : value :=
  VObj [("type", VStr "search_series_results");
        ("data",
         VObj [("success", VBool true);
               ("chunk_info",
                VObj [("chunk_size", VNum 0);
                      ("num_chunks", VNum 0);
                      ("rows", VNum 0);
                      ("base_download_url", VStr s3);
                      ("chunk_file_names", VArr [])])])].

(** A link to a CSV file. *)
Definition link_response : value :=
  VObj [("link", VStr (s3 ++ "stats.csv")); ("expires", VStr "2024-01-01T00:00:00Z")].

Definition origin_csv : Host :=
  test_host [(s3 ++ "stats.csv", csv_response "cust_id,wins")] NodeCrypto.

(** A payload with nothing to resolve. *)
Definition plain_response : value :=
  VObj [("success", VBool true); ("data", VArr [rec 1])].

(** An origin whose answer leaves one request before a reset at epoch
    second 1005. *)
Definition cars : string := "/data/car/get".


(** An origin answering every data request with [null]. *)
Definition origin_null : Host :=
  test_host [("https://members-ng.iracing.com" ++ cars, json_response VNull)] NodeCrypto.

Definition no_origin : Host := test_host [] NodeCrypto.

(** The response and the chunk of the repository's own chunk test: one
    chunk, named in full. *)
Definition single_response : value :=
  VObj [("success", VBool true);
        ("data", VArr []);
        ("chunk_info",
         VObj [("base_download_url", VStr "https://example.com/");
               ("chunk_file_name", VStr "chunk_0.json");
               ("total_chunks", VNum 1);
               ("chunk_size", VNum 1000);
               ("rows", VNum 500)])].

Definition origin_example : Host :=
  test_host
    [("https://example.com/chunk_0.json",
      json_response
        (VArr [VObj [("subsession_id", VNum 1); ("series_name", VStr "Test Series 1")];
               VObj [("subsession_id", VNum 2); ("series_name", VStr "Test Series 2")]]))]
    NodeCrypto.

Definition origin_example_down : Host :=
  test_host [("https://example.com/chunk_0.json", failed_response 404)] NodeCrypto.

(** A nested chunk_info that lists a file and announces no rows. *)
Definition empty_listed_response : value :=
  VObj [("type", VStr "search_series_results");
        ("data",
         VObj [("success", VBool true);
               ("chunk_info",
                VObj [("chunk_size", VNum 2);
                      ("num_chunks", VNum 1);
                      ("rows", VNum 0);
                      ("base_download_url", VStr s3);
                      ("chunk_file_names", VArr [VStr "a.json"])])])].

(** A link next to an empty nested chunk_info. *)
Definition linked_empty_response : value :=
  VObj [("link", VStr (s3 ++ "stats.csv"));
        ("data",
         VObj [("success", VBool true);
               ("chunk_info", VObj [("num_chunks", VNum 0); ("rows", VNum 0)])])].

(** The API serving the three-file response, the second file failing. *)
Definition origin_api_b_fails : Host :=
  test_host
    [("https://members-ng.iracing.com" ++ search_series, json_response named_response);
     (s3 ++ "a.json", json_response (VArr [rec 1; rec 2]));
     (s3 ++ "b.json", failed_response 500);
     (s3 ++ "c.json", json_response (VArr [rec 2; rec 0]))]
    NodeCrypto.

(** ** Observations used in the statements *)

(** A total property read for statements: [undefined] where [prop] raises. *)
Definition field (v : value) (k : string) : value :=
  match prop v k with Ok x => x | Throw _ => VUndef end.

(** A value has a text: ToString returns on it. *)
Definition renders (v : value) : bool :=
  match ToString v with Ok _ => true | Throw _ => false end.

(** The text of a value, for statements: empty where ToString raises. *)
Definition text (v : value) : string :=
  match ToString v with Ok s => s | Throw _ => "" end.

(** [response.chunk_info]. *)
Definition top_chunk_info (response : value) : value := field response "chunk_info".

(** [response.data && response.data.chunk_info]. *)
Definition nested_chunk_info (response : value) : value :=
  let data := field response "data" in
  if truthy data then field data "chunk_info" else data.

(** The test of the first strategy: a link and no top-level chunk_info. *)
Definition direct_link (response : value) : bool :=
  truthy (field response "link") && negb (truthy (top_chunk_info response)).

(** The test of the single-chunk branch of the legacy strategy. *)
Definition single_chunk (chunkInfo : value) : bool :=
  truthy (field chunkInfo "chunk_file_name") &&
  strict_eq_num (field chunkInfo "total_chunks") 1.

(** The object whose [chunk_file_names] list the resolver walks, with the
    chunk_info holding the list: [response.data] in the nested strategy, the
    response itself in the named-list branch of the legacy strategy. *)
Definition named_list_source (response : value) : option (value * value) :=
  if direct_link response then None
  else if truthy (nested_chunk_info response) then
    let info := nested_chunk_info response in
    if strict_eq_num (field info "num_chunks") 0
       || strict_eq_num (field info "rows") 0
    then None
    else Some (field response "data", info)
  else if truthy (top_chunk_info response)
          && negb (single_chunk (top_chunk_info response))
  then Some (response, top_chunk_info response)
  else None.

(** The count of chunks the resolver shows on the console before it walks
    a list of file names: [num_chunks] of the nested chunk_info, or
    [total_chunks] of the top-level one. *)
Definition announced_chunks (response : value) : value :=
  if truthy (nested_chunk_info response)
  then field (nested_chunk_info response) "num_chunks"
  else field (top_chunk_info response) "total_chunks".

(** The content-type test of the first strategy. *)
Definition is_csv (res : Response) : bool :=
  match headers_get "content-type" (res_headers res) with
  | Some ct => negb (str_empty ct) && includes ct "text/csv"
  | None => false
  end.

(** What one chunk fetch contributes: the records of the chunk file, or the
    failure that ends the named-list loop. *)
Definition chunk_outcome (o : result Response) : result (list value) :=
  match o with
  | Throw e => Throw e
  | Ok res =>
      if negb (res_ok res)
      then Throw (Error ("Failed to fetch chunk: " ++ NumberToString (res_status res)))
      else match res_json res with
           | Throw e => Throw e
           | Ok body => iterate body
           end
  end.

Definition chunk_good (o : result Response) : bool :=
  match chunk_outcome o with Ok _ => true | Throw _ => false end.

Definition records (o : result Response) : list value :=
  match chunk_outcome o with Ok items => items | Throw _ => [] end.

(** [`${base_download_url}${chunkFileName}`], for a base and a name that
    have a text. *)
Definition chunk_url (base_download_url chunkFileName : value) : value :=
  VStr (text base_download_url ++ text chunkFileName).






Fixpoint warnings (t : list event) : list console :=
  match t with
  | [] => []
  | EvWarn line :: t' => line :: warnings t'
  | _ :: t' => warnings t'
  end.

Section Observations.

Context {host : Host}.

Definition outcome {A : Type} (m : M A) (w : World) : result A := fst (m w).

Definition after {A : Type} (m : M A) (w : World) : World := snd (m w).

(** The events a run adds to the trace. *)
Definition emitted {A : Type} (m : M A) (w : World) : list event :=
  skipn (List.length (trace w)) (trace (after m w)).

(** The state after a console line. *)
Definition logged (w : World) (line : console) : World :=
  {| env := env w; trace := trace w ++ [EvLog line]; this := this w |}.

(** The environment after an optional wait. *)
Definition waited (w : World) (wait : option Z) : Env :=
  match wait with Some ms => setTimeout ms (env w) | None => env w end.

(** The epoch seconds of the reset header, when the header is present. *)
Definition reset_seconds (res : Response) : option Z :=
  let reset := headers_get "x-ratelimit-reset" (res_headers res) in
  if present reset then Number_header reset else None.

(** The remaining quota, when the header is present. *)
Definition remaining_quota (res : Response) : option Z :=
  match headers_get "x-ratelimit-remaining" (res_headers res) with
  | Some r => Number_header (Some r)
  | None => None
  end.

(** The reset header, if present, is a time [Date] can render. *)
Definition reset_renders (res : Response) : bool :=
  let reset := headers_get "x-ratelimit-reset" (res_headers res) in
  if present reset then
    match toISOString (times1000 (Number_header reset)) with
    | Ok _ => true
    | Throw _ => false
    end
  else true.


(** The pre-emptive wait the rate limiter is to make for a response read at
    time [t]: none unless the remaining quota is known and at most 1 and the
    reset time is known and still ahead; then the time left until the
    reset, in milliseconds. *)
Definition pre_emptive_wait (res : Response) (t : Z) : option Z :=
  match remaining_quota res, reset_seconds res with
  | Some q, Some s =>
      if (q <=? 1) && (0 <? s * 1000 - t) then Some (s * 1000 - t) else None
  | _, _ => None
  end.

(** The options [request] passes to the transport. *)
Definition request_init (options : RequestInit) : RequestInit :=
  {| method := method options;
     headers := Some (HeadersRecord
                  match headers options with
                  | Some h => set_headers (header_entries h) default_headers
                  | None => default_headers
                  end);
     body := body options;
     credentials := Some "include" |}.

(** The body [authenticate] posts for a request. *)
Definition auth_body (req : AuthRequest) : value :=
  VObj [("email", VStr (toLowerCase (email req)));
        ("password",
         VStr (base64 (sha256 (utf8 (password req ++ toLowerCase (email req))))))].

(** A run is strict when a non-success status on any of its fetches makes
    it throw the chunk error for that status. *)
Definition strict_run (m : M value) (w : World) : Prop :=
  forall u res,
    In (u, Ok res) (fetches (emitted m w)) ->
    res_ok res = false ->
    outcome m w =
      Throw (Error ("Failed to fetch chunk: " ++ NumberToString (res_status res))).

End Observations.

(** ** Parameter schemas (types.ts)

    The part of zod the parameter schemas are built from: the primitive
    types, arrays, [.optional()], and the [.transform((arr) => arr.join(','))]
    the list-valued parameters carry. An object schema checks the keys of
    its shape in order and drops every other key of the input. A failed parse
    is represented by its [ZodError], and the error by the message of its
    first issue. *)

Inductive ZodType : Type :=
| z_string
| z_number
| z_boolean
| z_array (item : ZodType)
| z_transform_join (inner : ZodType)
| z_optional (inner : ZodType).

Definition ZodObject : Type := list (string * ZodType).

(** zod's name for the run-time type of a value. *)
Definition getParsedType (v : value) : string :=
  match v with
  | VUndef => "undefined"
  | VNull => "null"
  | VBool _ => "boolean"
  | VNum _ => "number"
  | VStr _ => "string"
  | VArr _ => "array"
  | VObj _ => "object"
  | VNative _ => "function"
  end.

(** The issue raised for a value of another type than the expected one. *)
Definition invalid_type (expected : string) (received : value) : exn :=
  ZodError
    match received with
    | VUndef => "Required"
    | _ => "Expected " ++ expected ++ ", received " ++ getParsedType received
    end.

(** [Array.prototype.join]: it raises when an element has no text. *)
Fixpoint join (sep : string) (xs : list value) : result string :=
  match xs with
  | [] => Ok ""
  | x :: xs' =>
      match (match x with VNull | VUndef => Ok "" | _ => ToString x end) with
      | Throw e => Throw e
      | Ok e =>
          match xs' with
          | [] => Ok e
          | _ :: _ =>
              match join sep xs' with
              | Ok r => Ok (e ++ sep ++ r)
              | Throw e' => Throw e'
              end
          end
      end
  end.

(** The parse of one value against a type: the parsed value, or the first
    issue. *)
Fixpoint parse (t : ZodType) (input : value) : result value :=
  match t with
  | z_string =>
      match input with VStr _ => Ok input | _ => Throw (invalid_type "string" input) end
  | z_number =>
      match input with VNum _ => Ok input | _ => Throw (invalid_type "number" input) end
  | z_boolean =>
      match input with VBool _ => Ok input | _ => Throw (invalid_type "boolean" input) end
  | z_array item =>
      match input with
      | VArr xs =>
          match (fix items (l : list value) : result (list value) :=
                   match l with
                   | [] => Ok []
                   | x :: l' =>
                       match parse item x, items l' with
                       | Ok y, Ok ys => Ok (y :: ys)
                       | Throw e, _ => Throw e
                       | Ok _, Throw e => Throw e
                       end
                   end) xs with
          | Ok ys => Ok (VArr ys)
          | Throw e => Throw e
          end
      | _ => Throw (invalid_type "array" input)
      end
  | z_transform_join inner =>
      match parse inner input with
      | Ok (VArr xs) =>
          match join "," xs with
          | Ok joined => Ok (VStr joined)
          | Throw e => Throw e
          end
      | Ok _ => Throw (TypeError "arr.join is not a function")
      | Throw e => Throw e
      end
  | z_optional inner =>
      match input with VUndef => Ok VUndef | _ => parse inner input end
  end.

(** The keys of the shape, in order; a key is set in the parsed object when
    the input has it or its parsed value is defined. *)
Fixpoint parse_shape (shape : ZodObject) (fs : list (string * value))
  : result (list (string * value)) :=
  match shape with
  | [] => Ok []
  | (k, t) :: shape' =>
      let given := lookup k fs in
      match parse t (match given with Some v => v | None => VUndef end),
            parse_shape shape' fs with
      | Ok v, Ok rest =>
          Ok (match v, given with VUndef, None => rest | _, _ => (k, v) :: rest end)
      | Throw e, _ => Throw e
      | Ok _, Throw e => Throw e
      end
  end.

(** [z.object(shape).safeParse(input)]: [Ok data] for
    [{success: true, data}], [Throw error] for [{success: false, error}]. *)
Definition safeParse (shape : ZodObject) (input : value) : result value :=
  match input with
  | VObj fs =>
      match parse_shape shape fs with
      | Ok data => Ok (VObj data)
      | Throw e => Throw e
      end
  | _ => Throw (invalid_type "object" input)
  end.

(** The schemas of the parameter objects, in the order of types.ts. *)

Definition HostedCombinedSessionsParamsSchema : ZodObject :=
  [("package_id", z_optional z_number)].

Definition LeagueCustLeagueSessionsParamsSchema : ZodObject :=
  [("mine", z_optional z_boolean);
   ("package_id", z_optional z_number)].

Definition LeagueDirectoryParamsSchema : ZodObject :=
  [("search", z_optional z_string);
   ("tag", z_optional z_string);
   ("restrict_to_member", z_optional z_boolean);
   ("restrict_to_recruiting", z_optional z_boolean);
   ("restrict_to_friends", z_optional z_boolean);
   ("restrict_to_watched", z_optional z_boolean);
   ("minimum_roster_count", z_optional z_number);
   ("maximum_roster_count", z_optional z_number);
   ("lowerbound", z_optional z_number);
   ("upperbound", z_optional z_number);
   ("sort", z_optional z_string);
   ("order", z_optional z_string)].

Definition LeagueGetParamsSchema : ZodObject :=
  [("league_id", z_number);
   ("include_licenses", z_optional z_boolean)].

Definition LeaguePointsSystemsParamsSchema : ZodObject :=
  [("league_id", z_number);
   ("season_id", z_optional z_number)].

Definition LeagueMembershipParamsSchema : ZodObject :=
  [("cust_id", z_optional z_number);
   ("include_league", z_optional z_boolean)].

Definition LeagueRosterParamsSchema : ZodObject :=
  [("league_id", z_number);
   ("include_licenses", z_optional z_boolean)].

Definition LeagueSeasonsParamsSchema : ZodObject :=
  [("league_id", z_number);
   ("retired", z_optional z_boolean)].

Definition LeagueSeasonStandingsParamsSchema : ZodObject :=
  [("league_id", z_number);
   ("season_id", z_number);
   ("car_class_id", z_optional z_number);
   ("car_id", z_optional z_number)].

Definition LeagueSeasonSessionsParamsSchema : ZodObject :=
  [("league_id", z_number);
   ("season_id", z_number);
   ("results_only", z_optional z_boolean)].

Definition LookupDriversParamsSchema : ZodObject :=
  [("search_term", z_string);
   ("league_id", z_optional z_number)].

Definition MemberGetParamsSchema : ZodObject :=
  [("cust_ids", z_transform_join (z_array z_number));
   ("include_licenses", z_optional z_boolean)].

Definition MemberAwardsParamsSchema : ZodObject :=
  [("cust_id", z_optional z_number)].

Definition MemberAwardInstancesParamsSchema : ZodObject :=
  [("cust_id", z_optional z_number);
   ("award_id", z_number)].

Definition MemberChartDataParamsSchema : ZodObject :=
  [("cust_id", z_optional z_number);
   ("category_id", z_number);
   ("chart_type", z_number)].

Definition MemberProfileParamsSchema : ZodObject :=
  [("cust_id", z_optional z_number)].

Definition ResultsGetParamsSchema : ZodObject :=
  [("subsession_id", z_number);
   ("include_licenses", z_optional z_boolean)].

Definition EventLogParamsSchema : ZodObject :=
  [("subsession_id", z_number);
   ("simsession_number", z_number)].

Definition LapChartDataParamsSchema : ZodObject :=
  [("subsession_id", z_number);
   ("simsession_number", z_number)].

Definition LapDataParamsSchema : ZodObject :=
  [("subsession_id", z_number);
   ("simsession_number", z_number);
   ("cust_id", z_optional z_number);
   ("team_id", z_optional z_number)].

Definition ResultsSearchHostedParamsSchema : ZodObject :=
  [("start_range_begin", z_optional z_string);
   ("start_range_end", z_optional z_string);
   ("finish_range_begin", z_optional z_string);
   ("finish_range_end", z_optional z_string);
   ("cust_id", z_optional z_number);
   ("team_id", z_optional z_number);
   ("host_cust_id", z_optional z_number);
   ("session_name", z_optional z_string);
   ("league_id", z_optional z_number);
   ("league_season_id", z_optional z_number);
   ("car_id", z_optional z_number);
   ("track_id", z_optional z_number);
   ("category_ids", z_optional (z_transform_join (z_array z_number)))].

Definition ResultsSearchSeriesParamsSchema : ZodObject :=
  [("season_year", z_optional z_number);
   ("season_quarter", z_optional z_number);
   ("start_range_begin", z_optional z_string);
   ("start_range_end", z_optional z_string);
   ("finish_range_begin", z_optional z_string);
   ("finish_range_end", z_optional z_string);
   ("cust_id", z_optional z_number);
   ("team_id", z_optional z_number);
   ("series_id", z_optional z_number);
   ("race_week_num", z_optional z_number);
   ("official_only", z_optional z_boolean);
   ("event_types", z_optional (z_transform_join (z_array z_number)));
   ("category_ids", z_optional (z_transform_join (z_array z_number)))].

Definition SeasonResultsParamsSchema : ZodObject :=
  [("season_id", z_number);
   ("event_type", z_optional z_number);
   ("race_week_num", z_optional z_number)].

Definition SeasonListParamsSchema : ZodObject :=
  [("season_year", z_number);
   ("season_quarter", z_number)].

Definition SeasonRaceGuideParamsSchema : ZodObject :=
  [("from", z_optional z_string);
   ("include_end_after_from", z_optional z_boolean)].

Definition SeasonSpectatorSubsessionIdsParamsSchema : ZodObject :=
  [("event_types", z_optional (z_transform_join (z_array z_number)))].

Definition SeasonSpectatorSubsessionIdsDetailParamsSchema : ZodObject :=
  [("event_types", z_optional (z_transform_join (z_array z_number)));
   ("season_ids", z_optional (z_transform_join (z_array z_number)))].

Definition SeriesPastSeasonsParamsSchema : ZodObject :=
  [("series_id", z_number)].

Definition SeriesSeasonsParamsSchema : ZodObject :=
  [("include_series", z_optional z_boolean);
   ("season_year", z_optional z_number);
   ("season_quarter", z_optional z_number)].

Definition SeriesSeasonListParamsSchema : ZodObject :=
  [("include_series", z_optional z_boolean);
   ("season_year", z_optional z_number);
   ("season_quarter", z_optional z_number)].

Definition SeriesSeasonScheduleParamsSchema : ZodObject :=
  [("season_id", z_number)].

Definition StatsMemberBestsParamsSchema : ZodObject :=
  [("cust_id", z_optional z_number);
   ("car_id", z_optional z_number)].

Definition StatsMemberCareerParamsSchema : ZodObject :=
  [("cust_id", z_optional z_number)].

Definition StatsMemberDivisionParamsSchema : ZodObject :=
  [("season_id", z_number);
   ("event_type", z_number)].

Definition StatsMemberRecapParamsSchema : ZodObject :=
  [("cust_id", z_optional z_number);
   ("year", z_optional z_number);
   ("season", z_optional z_number)].

Definition StatsMemberRecentRacesParamsSchema : ZodObject :=
  [("cust_id", z_optional z_number)].

Definition StatsMemberSummaryParamsSchema : ZodObject :=
  [("cust_id", z_optional z_number)].

Definition StatsMemberYearlyParamsSchema : ZodObject :=
  [("cust_id", z_optional z_number)].

Definition StatsSeasonDriverStandingsParamsSchema : ZodObject :=
  [("season_id", z_number);
   ("car_class_id", z_number);
   ("division", z_optional z_number);
   ("race_week_num", z_optional z_number)].

Definition StatsSeasonSupersessionStandingsParamsSchema : ZodObject :=
  [("season_id", z_number);
   ("car_class_id", z_number);
   ("division", z_optional z_number);
   ("race_week_num", z_optional z_number)].

Definition StatsSeasonTeamStandingsParamsSchema : ZodObject :=
  [("season_id", z_number);
   ("car_class_id", z_number);
   ("race_week_num", z_optional z_number)].

Definition StatsSeasonTTStandingsParamsSchema : ZodObject :=
  [("season_id", z_number);
   ("car_class_id", z_number);
   ("division", z_optional z_number);
   ("race_week_num", z_optional z_number)].

Definition StatsSeasonTTResultsParamsSchema : ZodObject :=
  [("season_id", z_number);
   ("car_class_id", z_number);
   ("race_week_num", z_number);
   ("division", z_optional z_number)].

Definition StatsSeasonQualifyResultsParamsSchema : ZodObject :=
  [("season_id", z_number);
   ("car_class_id", z_number);
   ("race_week_num", z_number);
   ("division", z_optional z_number)].

Definition StatsWorldRecordsParamsSchema : ZodObject :=
  [("car_id", z_number);
   ("track_id", z_number);
   ("season_year", z_optional z_number);
   ("season_quarter", z_optional z_number)].

Definition TeamGetParamsSchema : ZodObject :=
  [("team_id", z_number);
   ("include_licenses", z_optional z_boolean)].

Definition TimeAttackMemberSeasonResultsParamsSchema : ZodObject :=
  [("ta_comp_season_id", z_number)].

(** ** Endpoint paths (endpoints.ts) *)

(** The members of the [ApiEndpoints] enum other than [AUTH], which is
    defined above. *)
Module ApiEndpoints.

Definition CAR_ASSETS : string := "/data/car/assets".
Definition CAR_GET : string := "/data/car/get".
Definition CARCLASS_GET : string := "/data/carclass/get".
Definition CONSTANTS_CATEGORIES : string := "/data/constants/categories".
Definition CONSTANTS_DIVISIONS : string := "/data/constants/divisions".
Definition CONSTANTS_EVENT_TYPES : string := "/data/constants/event_types".
Definition DRIVER_STATS_OVAL : string := "/data/driver_stats_by_category/oval".
Definition DRIVER_STATS_SPORTS_CAR : string := "/data/driver_stats_by_category/sports_car".
Definition DRIVER_STATS_FORMULA_CAR : string := "/data/driver_stats_by_category/formula_car".
Definition DRIVER_STATS_ROAD : string := "/data/driver_stats_by_category/road".
Definition DRIVER_STATS_DIRT_OVAL : string := "/data/driver_stats_by_category/dirt_oval".
Definition DRIVER_STATS_DIRT_ROAD : string := "/data/driver_stats_by_category/dirt_road".
Definition HOSTED_COMBINED_SESSIONS : string := "/data/hosted/combined_sessions".
Definition HOSTED_SESSIONS : string := "/data/hosted/sessions".
Definition LEAGUE_CUST_LEAGUE_SESSIONS : string := "/data/league/cust_league_sessions".
Definition LEAGUE_DIRECTORY : string := "/data/league/directory".
Definition LEAGUE_GET : string := "/data/league/get".
Definition LEAGUE_GET_POINTS_SYSTEMS : string := "/data/league/get_points_systems".
Definition LEAGUE_MEMBERSHIP : string := "/data/league/membership".
Definition LEAGUE_ROSTER : string := "/data/league/roster".
Definition LEAGUE_SEASONS : string := "/data/league/seasons".
Definition LEAGUE_SEASON_STANDINGS : string := "/data/league/season_standings".
Definition LEAGUE_SEASON_SESSIONS : string := "/data/league/season_sessions".
Definition LOOKUP_COUNTRIES : string := "/data/lookup/countries".
Definition LOOKUP_DRIVERS : string := "/data/lookup/drivers".
Definition LOOKUP_FLAIRS : string := "/data/lookup/flairs".
Definition LOOKUP_GET : string := "/data/lookup/get".
Definition LOOKUP_LICENSES : string := "/data/lookup/licenses".
Definition MEMBER_AWARDS : string := "/data/member/awards".
Definition MEMBER_AWARD_INSTANCES : string := "/data/member/award_instances".
Definition MEMBER_CHART_DATA : string := "/data/member/chart_data".
Definition MEMBER_GET : string := "/data/member/get".
Definition MEMBER_INFO : string := "/data/member/info".
Definition MEMBER_PARTICIPATION_CREDITS : string := "/data/member/participation_credits".
Definition MEMBER_PROFILE : string := "/data/member/profile".
Definition RESULTS_GET : string := "/data/results/get".
Definition RESULTS_EVENT_LOG : string := "/data/results/event_log".
Definition RESULTS_LAP_CHART_DATA : string := "/data/results/lap_chart_data".
Definition RESULTS_LAP_DATA : string := "/data/results/lap_data".
Definition RESULTS_SEARCH_HOSTED : string := "/data/results/search_hosted".
Definition RESULTS_SEARCH_SERIES : string := "/data/results/search_series".
Definition RESULTS_SEASON_RESULTS : string := "/data/results/season_results".
Definition SEASON_LIST : string := "/data/season/list".
Definition SEASON_RACE_GUIDE : string := "/data/season/race_guide".
Definition SEASON_SPECTATOR_SUBSESSIONIDS : string := "/data/season/spectator_subsessionids".
Definition SEASON_SPECTATOR_SUBSESSIONIDS_DETAIL : string := "/data/season/spectator_subsessionids_detail".
Definition SERIES_ASSETS : string := "/data/series/assets".
Definition SERIES_GET : string := "/data/series/get".
Definition SERIES_PAST_SEASONS : string := "/data/series/past_seasons".
Definition SERIES_SEASONS : string := "/data/series/seasons".
Definition SERIES_SEASON_LIST : string := "/data/series/season_list".
Definition SERIES_SEASON_SCHEDULE : string := "/data/series/season_schedule".
Definition SERIES_STATS_SERIES : string := "/data/series/stats_series".
Definition STATS_MEMBER_BESTS : string := "/data/stats/member_bests".
Definition STATS_MEMBER_CAREER : string := "/data/stats/member_career".
Definition STATS_MEMBER_DIVISION : string := "/data/stats/member_division".
Definition STATS_MEMBER_RECAP : string := "/data/stats/member_recap".
Definition STATS_MEMBER_RECENT_RACES : string := "/data/stats/member_recent_races".
Definition STATS_MEMBER_SUMMARY : string := "/data/stats/member_summary".
Definition STATS_MEMBER_YEARLY : string := "/data/stats/member_yearly".
Definition STATS_SEASON_DRIVER_STANDINGS : string := "/data/stats/season_driver_standings".
Definition STATS_SEASON_SUPERSESSION_STANDINGS : string := "/data/stats/season_supersession_standings".
Definition STATS_SEASON_TEAM_STANDINGS : string := "/data/stats/season_team_standings".
Definition STATS_SEASON_TT_STANDINGS : string := "/data/stats/season_tt_standings".
Definition STATS_SEASON_TT_RESULTS : string := "/data/stats/season_tt_results".
Definition STATS_SEASON_QUALIFY_RESULTS : string := "/data/stats/season_qualify_results".
Definition STATS_WORLD_RECORDS : string := "/data/stats/world_records".
Definition TEAM_GET : string := "/data/team/get".
Definition TIME_ATTACK_MEMBER_SEASON_RESULTS : string := "/data/time_attack/member_season_results".
Definition TRACK_ASSETS : string := "/data/track/assets".
Definition TRACK_GET : string := "/data/track/get".

End ApiEndpoints.

(** ** The data methods (iracingApi.ts) *)

(** The [query] a method hands to [request] when it passes its [params] on:
    [request] looks at it only when it is truthy, and then at its own
    enumerable properties. *)
Definition query_of (params : value) : option (list (string * value)) :=
  if truthy params then Some (spread params) else None.

(** How a data method takes its parameters, and the helper it calls. *)
Inductive Params : Type :=
| NoParams
| OptionalParams (schema : ZodObject)
| RequiredParams (schema : ZodObject).

Inductive Transport : Type :=
| ViaRequest
| ViaRequestWithChunking.

Section Endpoints.

Context {host : Host}.

Notation "x <- m ;; k" := (bind m (fun x => k))
  (at level 61, m at next level, right associativity).
Notation "m ;;; k" := (bind m (fun _ => k))
  (at level 61, right associativity).

(** [const parsed = schema.safeParse(params);
     if (!parsed.success) throw parsed.error;] *)
Definition validate (schema : ZodObject) (params : value) : M unit :=
  parsed <- lift (safeParse schema params) ;;
  ret tt.

(** The methods, in the order of the class. *)

Definition getCarAssets : M value :=
  requestWithChunking ApiEndpoints.CAR_ASSETS no_options None None.

Definition getCars : M value :=
  requestWithChunking ApiEndpoints.CAR_GET no_options None None.

Definition getCarClasses : M value :=
  requestWithChunking ApiEndpoints.CARCLASS_GET no_options None None.

Definition getCategories : M value :=
  request ApiEndpoints.CONSTANTS_CATEGORIES no_options None.

Definition getDivisions : M value :=
  request ApiEndpoints.CONSTANTS_DIVISIONS no_options None.

Definition getEventTypes : M value :=
  request ApiEndpoints.CONSTANTS_EVENT_TYPES no_options None.

Definition getDriverStatsOval : M value :=
  requestWithChunking ApiEndpoints.DRIVER_STATS_OVAL no_options None None.

Definition getDriverStatsSportsCar : M value :=
  requestWithChunking ApiEndpoints.DRIVER_STATS_SPORTS_CAR no_options None None.

Definition getDriverStatsFormulaCar : M value :=
  requestWithChunking ApiEndpoints.DRIVER_STATS_FORMULA_CAR no_options None None.

Definition getDriverStatsRoad : M value :=
  requestWithChunking ApiEndpoints.DRIVER_STATS_ROAD no_options None None.

Definition getDriverStatsDirtOval : M value :=
  requestWithChunking ApiEndpoints.DRIVER_STATS_DIRT_OVAL no_options None None.

Definition getDriverStatsDirtRoad : M value :=
  requestWithChunking ApiEndpoints.DRIVER_STATS_DIRT_ROAD no_options None None.

Definition getHostedCombinedSessions (params : value) : M value :=
  when (truthy params) (validate HostedCombinedSessionsParamsSchema params) ;;;
  requestWithChunking ApiEndpoints.HOSTED_COMBINED_SESSIONS no_options (query_of params) None.

Definition getHostedSessions : M value :=
  requestWithChunking ApiEndpoints.HOSTED_SESSIONS no_options None None.

Definition getLeagueCustSessions (params : value) : M value :=
  when (truthy params) (validate LeagueCustLeagueSessionsParamsSchema params) ;;;
  request ApiEndpoints.LEAGUE_CUST_LEAGUE_SESSIONS no_options (query_of params).

Definition getLeagueDirectory (params : value) : M value :=
  when (truthy params) (validate LeagueDirectoryParamsSchema params) ;;;
  requestWithChunking ApiEndpoints.LEAGUE_DIRECTORY no_options (query_of params) None.

Definition getLeague (params : value) : M value :=
  validate LeagueGetParamsSchema params ;;;
  request ApiEndpoints.LEAGUE_GET no_options (query_of params).

Definition getLeaguePointsSystems (params : value) : M value :=
  validate LeaguePointsSystemsParamsSchema params ;;;
  request ApiEndpoints.LEAGUE_GET_POINTS_SYSTEMS no_options (query_of params).

Definition getLeagueMembership (params : value) : M value :=
  when (truthy params) (validate LeagueMembershipParamsSchema params) ;;;
  request ApiEndpoints.LEAGUE_MEMBERSHIP no_options (query_of params).

Definition getLeagueRoster (params : value) : M value :=
  validate LeagueRosterParamsSchema params ;;;
  request ApiEndpoints.LEAGUE_ROSTER no_options (query_of params).

Definition getLeagueSeasons (params : value) : M value :=
  validate LeagueSeasonsParamsSchema params ;;;
  request ApiEndpoints.LEAGUE_SEASONS no_options (query_of params).

Definition getLeagueSeasonStandings (params : value) : M value :=
  validate LeagueSeasonStandingsParamsSchema params ;;;
  requestWithChunking ApiEndpoints.LEAGUE_SEASON_STANDINGS no_options (query_of params) None.

Definition getLeagueSeasonSessions (params : value) : M value :=
  validate LeagueSeasonSessionsParamsSchema params ;;;
  request ApiEndpoints.LEAGUE_SEASON_SESSIONS no_options (query_of params).

Definition getLookupCountries : M value :=
  requestWithChunking ApiEndpoints.LOOKUP_COUNTRIES no_options None None.

Definition getLookupDrivers (params : value) : M value :=
  validate LookupDriversParamsSchema params ;;;
  requestWithChunking ApiEndpoints.LOOKUP_DRIVERS no_options (query_of params) None.

Definition getLookupFlairs : M value :=
  requestWithChunking ApiEndpoints.LOOKUP_FLAIRS no_options None None.

Definition getLookupGet : M value :=
  requestWithChunking ApiEndpoints.LOOKUP_GET no_options None None.

Definition getLookupLicenses : M value :=
  requestWithChunking ApiEndpoints.LOOKUP_LICENSES no_options None None.

Definition getMemberAwards (params : value) : M value :=
  when (truthy params) (validate MemberAwardsParamsSchema params) ;;;
  request ApiEndpoints.MEMBER_AWARDS no_options (query_of params).

Definition getMemberAwardInstances (params : value) : M value :=
  validate MemberAwardInstancesParamsSchema params ;;;
  request ApiEndpoints.MEMBER_AWARD_INSTANCES no_options (query_of params).

Definition getMemberChartData (params : value) : M value :=
  validate MemberChartDataParamsSchema params ;;;
  request ApiEndpoints.MEMBER_CHART_DATA no_options (query_of params).

Definition getMembers (params : value) : M value :=
  validate MemberGetParamsSchema params ;;;
  requestWithChunking ApiEndpoints.MEMBER_GET no_options (query_of params) None.

Definition getMemberInfo : M value :=
  requestWithChunking ApiEndpoints.MEMBER_INFO no_options None None.

Definition getMemberParticipationCredits : M value :=
  request ApiEndpoints.MEMBER_PARTICIPATION_CREDITS no_options None.

Definition getMemberProfile (params : value) : M value :=
  when (truthy params) (validate MemberProfileParamsSchema params) ;;;
  requestWithChunking ApiEndpoints.MEMBER_PROFILE no_options (query_of params) None.

Definition getResults (params : value) : M value :=
  validate ResultsGetParamsSchema params ;;;
  request ApiEndpoints.RESULTS_GET no_options (query_of params).

Definition getResultsEventLog (params : value) : M value :=
  validate EventLogParamsSchema params ;;;
  request ApiEndpoints.RESULTS_EVENT_LOG no_options (query_of params).

Definition getResultsLapChartData (params : value) : M value :=
  validate LapChartDataParamsSchema params ;;;
  request ApiEndpoints.RESULTS_LAP_CHART_DATA no_options (query_of params).

Definition getResultsLapData (params : value) : M value :=
  validate LapDataParamsSchema params ;;;
  request ApiEndpoints.RESULTS_LAP_DATA no_options (query_of params).

Definition getResultsSearchHosted (params : value) : M value :=
  validate ResultsSearchHostedParamsSchema params ;;;
  requestWithChunking ApiEndpoints.RESULTS_SEARCH_HOSTED no_options (query_of params) None.

Definition getResultsSearchSeries (params : value) : M value :=
  validate ResultsSearchSeriesParamsSchema params ;;;
  requestWithChunking ApiEndpoints.RESULTS_SEARCH_SERIES no_options (query_of params) None.

Definition getResultsSeasonResults (params : value) : M value :=
  validate SeasonResultsParamsSchema params ;;;
  requestWithChunking ApiEndpoints.RESULTS_SEASON_RESULTS no_options (query_of params) None.

Definition getSeasonList (params : value) : M value :=
  validate SeasonListParamsSchema params ;;;
  requestWithChunking ApiEndpoints.SEASON_LIST no_options (query_of params) None.

Definition getSeasonRaceGuide (params : value) : M value :=
  when (truthy params) (validate SeasonRaceGuideParamsSchema params) ;;;
  requestWithChunking ApiEndpoints.SEASON_RACE_GUIDE no_options (query_of params) None.

Definition getSeasonSpectatorSubsessionIds (params : value) : M value :=
  when (truthy params) (validate SeasonSpectatorSubsessionIdsParamsSchema params) ;;;
  request ApiEndpoints.SEASON_SPECTATOR_SUBSESSIONIDS no_options (query_of params).

Definition getSeasonSpectatorSubsessionIdsDetail (params : value) : M value :=
  when (truthy params) (validate SeasonSpectatorSubsessionIdsDetailParamsSchema params) ;;;
  request ApiEndpoints.SEASON_SPECTATOR_SUBSESSIONIDS_DETAIL no_options (query_of params).

Definition getSeriesAssets : M value :=
  requestWithChunking ApiEndpoints.SERIES_ASSETS no_options None None.

Definition getSeries : M value :=
  requestWithChunking ApiEndpoints.SERIES_GET no_options None None.

Definition getSeriesPastSeasons (params : value) : M value :=
  validate SeriesPastSeasonsParamsSchema params ;;;
  request ApiEndpoints.SERIES_PAST_SEASONS no_options (query_of params).

Definition getSeriesSeasons (params : value) : M value :=
  when (truthy params) (validate SeriesSeasonsParamsSchema params) ;;;
  requestWithChunking ApiEndpoints.SERIES_SEASONS no_options (query_of params) None.

Definition getSeriesSeasonList (params : value) : M value :=
  when (truthy params) (validate SeriesSeasonListParamsSchema params) ;;;
  requestWithChunking ApiEndpoints.SERIES_SEASON_LIST no_options (query_of params) None.

Definition getSeriesSeasonSchedule (params : value) : M value :=
  validate SeriesSeasonScheduleParamsSchema params ;;;
  request ApiEndpoints.SERIES_SEASON_SCHEDULE no_options (query_of params).

Definition getSeriesStats : M value :=
  requestWithChunking ApiEndpoints.SERIES_STATS_SERIES no_options None None.

Definition getStatsMemberBests (params : value) : M value :=
  when (truthy params) (validate StatsMemberBestsParamsSchema params) ;;;
  requestWithChunking ApiEndpoints.STATS_MEMBER_BESTS no_options (query_of params) None.

Definition getStatsMemberCareer (params : value) : M value :=
  when (truthy params) (validate StatsMemberCareerParamsSchema params) ;;;
  requestWithChunking ApiEndpoints.STATS_MEMBER_CAREER no_options (query_of params) None.

Definition getStatsMemberDivision (params : value) : M value :=
  validate StatsMemberDivisionParamsSchema params ;;;
  request ApiEndpoints.STATS_MEMBER_DIVISION no_options (query_of params).

Definition getStatsMemberRecap (params : value) : M value :=
  when (truthy params) (validate StatsMemberRecapParamsSchema params) ;;;
  requestWithChunking ApiEndpoints.STATS_MEMBER_RECAP no_options (query_of params) None.

Definition getStatsMemberRecentRaces (params : value) : M value :=
  when (truthy params) (validate StatsMemberRecentRacesParamsSchema params) ;;;
  requestWithChunking ApiEndpoints.STATS_MEMBER_RECENT_RACES no_options (query_of params) None.

Definition getStatsMemberSummary (params : value) : M value :=
  when (truthy params) (validate StatsMemberSummaryParamsSchema params) ;;;
  requestWithChunking ApiEndpoints.STATS_MEMBER_SUMMARY no_options (query_of params) None.

Definition getStatsMemberYearly (params : value) : M value :=
  when (truthy params) (validate StatsMemberYearlyParamsSchema params) ;;;
  requestWithChunking ApiEndpoints.STATS_MEMBER_YEARLY no_options (query_of params) None.

Definition getStatsSeasonDriverStandings (params : value) : M value :=
  validate StatsSeasonDriverStandingsParamsSchema params ;;;
  requestWithChunking ApiEndpoints.STATS_SEASON_DRIVER_STANDINGS no_options (query_of params) None.

Definition getStatsSeasonSupersessionStandings (params : value) : M value :=
  validate StatsSeasonSupersessionStandingsParamsSchema params ;;;
  requestWithChunking ApiEndpoints.STATS_SEASON_SUPERSESSION_STANDINGS no_options (query_of params) None.

Definition getStatsSeasonTeamStandings (params : value) : M value :=
  validate StatsSeasonTeamStandingsParamsSchema params ;;;
  requestWithChunking ApiEndpoints.STATS_SEASON_TEAM_STANDINGS no_options (query_of params) None.

Definition getStatsSeasonTTStandings (params : value) : M value :=
  validate StatsSeasonTTStandingsParamsSchema params ;;;
  requestWithChunking ApiEndpoints.STATS_SEASON_TT_STANDINGS no_options (query_of params) None.

Definition getStatsSeasonTTResults (params : value) : M value :=
  validate StatsSeasonTTResultsParamsSchema params ;;;
  requestWithChunking ApiEndpoints.STATS_SEASON_TT_RESULTS no_options (query_of params) None.

Definition getStatsSeasonQualifyResults (params : value) : M value :=
  validate StatsSeasonQualifyResultsParamsSchema params ;;;
  requestWithChunking ApiEndpoints.STATS_SEASON_QUALIFY_RESULTS no_options (query_of params) None.

Definition getStatsWorldRecords (params : value) : M value :=
  validate StatsWorldRecordsParamsSchema params ;;;
  request ApiEndpoints.STATS_WORLD_RECORDS no_options (query_of params).

Definition getTeam (params : value) : M value :=
  validate TeamGetParamsSchema params ;;;
  request ApiEndpoints.TEAM_GET no_options (query_of params).

Definition getTimeAttackMemberSeasonResults (params : value) : M value :=
  validate TimeAttackMemberSeasonResultsParamsSchema params ;;;
  request ApiEndpoints.TIME_ATTACK_MEMBER_SEASON_RESULTS no_options (query_of params).

Definition getTrackAssets : M value :=
  requestWithChunking ApiEndpoints.TRACK_ASSETS no_options None None.

Definition getTracks : M value :=
  requestWithChunking ApiEndpoints.TRACK_GET no_options None None.

(** The deprecated names. *)

Definition getAllCars : M value := getCars.

Definition getAllCarClasses : M value := getCarClasses.

Definition getConstantsCategories : M value := getCategories.

Definition getConstantsEventTypes : M value := getEventTypes.

(** The data methods with what each is built from: the endpoint, the schema
    its [params] are checked against, and the helper that makes the call. A
    method without parameters ignores the argument. *)
Record DataMethod : Type := {
  dm_call : value -> M value;
  dm_endpoint : string;
  dm_params : Params;
  dm_via : Transport
}.

Definition data_methods : list DataMethod :=
  [{| dm_call := (fun _ => getCarAssets); dm_endpoint := ApiEndpoints.CAR_ASSETS;
      dm_params := NoParams; dm_via := ViaRequestWithChunking |};
   {| dm_call := (fun _ => getCars); dm_endpoint := ApiEndpoints.CAR_GET;
      dm_params := NoParams; dm_via := ViaRequestWithChunking |};
   {| dm_call := (fun _ => getCarClasses); dm_endpoint := ApiEndpoints.CARCLASS_GET;
      dm_params := NoParams; dm_via := ViaRequestWithChunking |};
   {| dm_call := (fun _ => getCategories); dm_endpoint := ApiEndpoints.CONSTANTS_CATEGORIES;
      dm_params := NoParams; dm_via := ViaRequest |};
   {| dm_call := (fun _ => getDivisions); dm_endpoint := ApiEndpoints.CONSTANTS_DIVISIONS;
      dm_params := NoParams; dm_via := ViaRequest |};
   {| dm_call := (fun _ => getEventTypes); dm_endpoint := ApiEndpoints.CONSTANTS_EVENT_TYPES;
      dm_params := NoParams; dm_via := ViaRequest |};
   {| dm_call := (fun _ => getDriverStatsOval); dm_endpoint := ApiEndpoints.DRIVER_STATS_OVAL;
      dm_params := NoParams; dm_via := ViaRequestWithChunking |};
   {| dm_call := (fun _ => getDriverStatsSportsCar); dm_endpoint := ApiEndpoints.DRIVER_STATS_SPORTS_CAR;
      dm_params := NoParams; dm_via := ViaRequestWithChunking |};
   {| dm_call := (fun _ => getDriverStatsFormulaCar); dm_endpoint := ApiEndpoints.DRIVER_STATS_FORMULA_CAR;
      dm_params := NoParams; dm_via := ViaRequestWithChunking |};
   {| dm_call := (fun _ => getDriverStatsRoad); dm_endpoint := ApiEndpoints.DRIVER_STATS_ROAD;
      dm_params := NoParams; dm_via := ViaRequestWithChunking |};
   {| dm_call := (fun _ => getDriverStatsDirtOval); dm_endpoint := ApiEndpoints.DRIVER_STATS_DIRT_OVAL;
      dm_params := NoParams; dm_via := ViaRequestWithChunking |};
   {| dm_call := (fun _ => getDriverStatsDirtRoad); dm_endpoint := ApiEndpoints.DRIVER_STATS_DIRT_ROAD;
      dm_params := NoParams; dm_via := ViaRequestWithChunking |};
   {| dm_call := getHostedCombinedSessions; dm_endpoint := ApiEndpoints.HOSTED_COMBINED_SESSIONS;
      dm_params := OptionalParams HostedCombinedSessionsParamsSchema; dm_via := ViaRequestWithChunking |};
   {| dm_call := (fun _ => getHostedSessions); dm_endpoint := ApiEndpoints.HOSTED_SESSIONS;
      dm_params := NoParams; dm_via := ViaRequestWithChunking |};
   {| dm_call := getLeagueCustSessions; dm_endpoint := ApiEndpoints.LEAGUE_CUST_LEAGUE_SESSIONS;
      dm_params := OptionalParams LeagueCustLeagueSessionsParamsSchema; dm_via := ViaRequest |};
   {| dm_call := getLeagueDirectory; dm_endpoint := ApiEndpoints.LEAGUE_DIRECTORY;
      dm_params := OptionalParams LeagueDirectoryParamsSchema; dm_via := ViaRequestWithChunking |};
   {| dm_call := getLeague; dm_endpoint := ApiEndpoints.LEAGUE_GET;
      dm_params := RequiredParams LeagueGetParamsSchema; dm_via := ViaRequest |};
   {| dm_call := getLeaguePointsSystems; dm_endpoint := ApiEndpoints.LEAGUE_GET_POINTS_SYSTEMS;
      dm_params := RequiredParams LeaguePointsSystemsParamsSchema; dm_via := ViaRequest |};
   {| dm_call := getLeagueMembership; dm_endpoint := ApiEndpoints.LEAGUE_MEMBERSHIP;
      dm_params := OptionalParams LeagueMembershipParamsSchema; dm_via := ViaRequest |};
   {| dm_call := getLeagueRoster; dm_endpoint := ApiEndpoints.LEAGUE_ROSTER;
      dm_params := RequiredParams LeagueRosterParamsSchema; dm_via := ViaRequest |};
   {| dm_call := getLeagueSeasons; dm_endpoint := ApiEndpoints.LEAGUE_SEASONS;
      dm_params := RequiredParams LeagueSeasonsParamsSchema; dm_via := ViaRequest |};
   {| dm_call := getLeagueSeasonStandings; dm_endpoint := ApiEndpoints.LEAGUE_SEASON_STANDINGS;
      dm_params := RequiredParams LeagueSeasonStandingsParamsSchema; dm_via := ViaRequestWithChunking |};
   {| dm_call := getLeagueSeasonSessions; dm_endpoint := ApiEndpoints.LEAGUE_SEASON_SESSIONS;
      dm_params := RequiredParams LeagueSeasonSessionsParamsSchema; dm_via := ViaRequest |};
   {| dm_call := (fun _ => getLookupCountries); dm_endpoint := ApiEndpoints.LOOKUP_COUNTRIES;
      dm_params := NoParams; dm_via := ViaRequestWithChunking |};
   {| dm_call := getLookupDrivers; dm_endpoint := ApiEndpoints.LOOKUP_DRIVERS;
      dm_params := RequiredParams LookupDriversParamsSchema; dm_via := ViaRequestWithChunking |};
   {| dm_call := (fun _ => getLookupFlairs); dm_endpoint := ApiEndpoints.LOOKUP_FLAIRS;
      dm_params := NoParams; dm_via := ViaRequestWithChunking |};
   {| dm_call := (fun _ => getLookupGet); dm_endpoint := ApiEndpoints.LOOKUP_GET;
      dm_params := NoParams; dm_via := ViaRequestWithChunking |};
   {| dm_call := (fun _ => getLookupLicenses); dm_endpoint := ApiEndpoints.LOOKUP_LICENSES;
      dm_params := NoParams; dm_via := ViaRequestWithChunking |};
   {| dm_call := getMemberAwards; dm_endpoint := ApiEndpoints.MEMBER_AWARDS;
      dm_params := OptionalParams MemberAwardsParamsSchema; dm_via := ViaRequest |};
   {| dm_call := getMemberAwardInstances; dm_endpoint := ApiEndpoints.MEMBER_AWARD_INSTANCES;
      dm_params := RequiredParams MemberAwardInstancesParamsSchema; dm_via := ViaRequest |};
   {| dm_call := getMemberChartData; dm_endpoint := ApiEndpoints.MEMBER_CHART_DATA;
      dm_params := RequiredParams MemberChartDataParamsSchema; dm_via := ViaRequest |};
   {| dm_call := getMembers; dm_endpoint := ApiEndpoints.MEMBER_GET;
      dm_params := RequiredParams MemberGetParamsSchema; dm_via := ViaRequestWithChunking |};
   {| dm_call := (fun _ => getMemberInfo); dm_endpoint := ApiEndpoints.MEMBER_INFO;
      dm_params := NoParams; dm_via := ViaRequestWithChunking |};
   {| dm_call := (fun _ => getMemberParticipationCredits); dm_endpoint := ApiEndpoints.MEMBER_PARTICIPATION_CREDITS;
      dm_params := NoParams; dm_via := ViaRequest |};
   {| dm_call := getMemberProfile; dm_endpoint := ApiEndpoints.MEMBER_PROFILE;
      dm_params := OptionalParams MemberProfileParamsSchema; dm_via := ViaRequestWithChunking |};
   {| dm_call := getResults; dm_endpoint := ApiEndpoints.RESULTS_GET;
      dm_params := RequiredParams ResultsGetParamsSchema; dm_via := ViaRequest |};
   {| dm_call := getResultsEventLog; dm_endpoint := ApiEndpoints.RESULTS_EVENT_LOG;
      dm_params := RequiredParams EventLogParamsSchema; dm_via := ViaRequest |};
   {| dm_call := getResultsLapChartData; dm_endpoint := ApiEndpoints.RESULTS_LAP_CHART_DATA;
      dm_params := RequiredParams LapChartDataParamsSchema; dm_via := ViaRequest |};
   {| dm_call := getResultsLapData; dm_endpoint := ApiEndpoints.RESULTS_LAP_DATA;
      dm_params := RequiredParams LapDataParamsSchema; dm_via := ViaRequest |};
   {| dm_call := getResultsSearchHosted; dm_endpoint := ApiEndpoints.RESULTS_SEARCH_HOSTED;
      dm_params := RequiredParams ResultsSearchHostedParamsSchema; dm_via := ViaRequestWithChunking |};
   {| dm_call := getResultsSearchSeries; dm_endpoint := ApiEndpoints.RESULTS_SEARCH_SERIES;
      dm_params := RequiredParams ResultsSearchSeriesParamsSchema; dm_via := ViaRequestWithChunking |};
   {| dm_call := getResultsSeasonResults; dm_endpoint := ApiEndpoints.RESULTS_SEASON_RESULTS;
      dm_params := RequiredParams SeasonResultsParamsSchema; dm_via := ViaRequestWithChunking |};
   {| dm_call := getSeasonList; dm_endpoint := ApiEndpoints.SEASON_LIST;
      dm_params := RequiredParams SeasonListParamsSchema; dm_via := ViaRequestWithChunking |};
   {| dm_call := getSeasonRaceGuide; dm_endpoint := ApiEndpoints.SEASON_RACE_GUIDE;
      dm_params := OptionalParams SeasonRaceGuideParamsSchema; dm_via := ViaRequestWithChunking |};
   {| dm_call := getSeasonSpectatorSubsessionIds; dm_endpoint := ApiEndpoints.SEASON_SPECTATOR_SUBSESSIONIDS;
      dm_params := OptionalParams SeasonSpectatorSubsessionIdsParamsSchema; dm_via := ViaRequest |};
   {| dm_call := getSeasonSpectatorSubsessionIdsDetail; dm_endpoint := ApiEndpoints.SEASON_SPECTATOR_SUBSESSIONIDS_DETAIL;
      dm_params := OptionalParams SeasonSpectatorSubsessionIdsDetailParamsSchema; dm_via := ViaRequest |};
   {| dm_call := (fun _ => getSeriesAssets); dm_endpoint := ApiEndpoints.SERIES_ASSETS;
      dm_params := NoParams; dm_via := ViaRequestWithChunking |};
   {| dm_call := (fun _ => getSeries); dm_endpoint := ApiEndpoints.SERIES_GET;
      dm_params := NoParams; dm_via := ViaRequestWithChunking |};
   {| dm_call := getSeriesPastSeasons; dm_endpoint := ApiEndpoints.SERIES_PAST_SEASONS;
      dm_params := RequiredParams SeriesPastSeasonsParamsSchema; dm_via := ViaRequest |};
   {| dm_call := getSeriesSeasons; dm_endpoint := ApiEndpoints.SERIES_SEASONS;
      dm_params := OptionalParams SeriesSeasonsParamsSchema; dm_via := ViaRequestWithChunking |};
   {| dm_call := getSeriesSeasonList; dm_endpoint := ApiEndpoints.SERIES_SEASON_LIST;
      dm_params := OptionalParams SeriesSeasonListParamsSchema; dm_via := ViaRequestWithChunking |};
   {| dm_call := getSeriesSeasonSchedule; dm_endpoint := ApiEndpoints.SERIES_SEASON_SCHEDULE;
      dm_params := RequiredParams SeriesSeasonScheduleParamsSchema; dm_via := ViaRequest |};
   {| dm_call := (fun _ => getSeriesStats); dm_endpoint := ApiEndpoints.SERIES_STATS_SERIES;
      dm_params := NoParams; dm_via := ViaRequestWithChunking |};
   {| dm_call := getStatsMemberBests; dm_endpoint := ApiEndpoints.STATS_MEMBER_BESTS;
      dm_params := OptionalParams StatsMemberBestsParamsSchema; dm_via := ViaRequestWithChunking |};
   {| dm_call := getStatsMemberCareer; dm_endpoint := ApiEndpoints.STATS_MEMBER_CAREER;
      dm_params := OptionalParams StatsMemberCareerParamsSchema; dm_via := ViaRequestWithChunking |};
   {| dm_call := getStatsMemberDivision; dm_endpoint := ApiEndpoints.STATS_MEMBER_DIVISION;
      dm_params := RequiredParams StatsMemberDivisionParamsSchema; dm_via := ViaRequest |};
   {| dm_call := getStatsMemberRecap; dm_endpoint := ApiEndpoints.STATS_MEMBER_RECAP;
      dm_params := OptionalParams StatsMemberRecapParamsSchema; dm_via := ViaRequestWithChunking |};
   {| dm_call := getStatsMemberRecentRaces; dm_endpoint := ApiEndpoints.STATS_MEMBER_RECENT_RACES;
      dm_params := OptionalParams StatsMemberRecentRacesParamsSchema; dm_via := ViaRequestWithChunking |};
   {| dm_call := getStatsMemberSummary; dm_endpoint := ApiEndpoints.STATS_MEMBER_SUMMARY;
      dm_params := OptionalParams StatsMemberSummaryParamsSchema; dm_via := ViaRequestWithChunking |};
   {| dm_call := getStatsMemberYearly; dm_endpoint := ApiEndpoints.STATS_MEMBER_YEARLY;
      dm_params := OptionalParams StatsMemberYearlyParamsSchema; dm_via := ViaRequestWithChunking |};
   {| dm_call := getStatsSeasonDriverStandings; dm_endpoint := ApiEndpoints.STATS_SEASON_DRIVER_STANDINGS;
      dm_params := RequiredParams StatsSeasonDriverStandingsParamsSchema; dm_via := ViaRequestWithChunking |};
   {| dm_call := getStatsSeasonSupersessionStandings; dm_endpoint := ApiEndpoints.STATS_SEASON_SUPERSESSION_STANDINGS;
      dm_params := RequiredParams StatsSeasonSupersessionStandingsParamsSchema; dm_via := ViaRequestWithChunking |};
   {| dm_call := getStatsSeasonTeamStandings; dm_endpoint := ApiEndpoints.STATS_SEASON_TEAM_STANDINGS;
      dm_params := RequiredParams StatsSeasonTeamStandingsParamsSchema; dm_via := ViaRequestWithChunking |};
   {| dm_call := getStatsSeasonTTStandings; dm_endpoint := ApiEndpoints.STATS_SEASON_TT_STANDINGS;
      dm_params := RequiredParams StatsSeasonTTStandingsParamsSchema; dm_via := ViaRequestWithChunking |};
   {| dm_call := getStatsSeasonTTResults; dm_endpoint := ApiEndpoints.STATS_SEASON_TT_RESULTS;
      dm_params := RequiredParams StatsSeasonTTResultsParamsSchema; dm_via := ViaRequestWithChunking |};
   {| dm_call := getStatsSeasonQualifyResults; dm_endpoint := ApiEndpoints.STATS_SEASON_QUALIFY_RESULTS;
      dm_params := RequiredParams StatsSeasonQualifyResultsParamsSchema; dm_via := ViaRequestWithChunking |};
   {| dm_call := getStatsWorldRecords; dm_endpoint := ApiEndpoints.STATS_WORLD_RECORDS;
      dm_params := RequiredParams StatsWorldRecordsParamsSchema; dm_via := ViaRequest |};
   {| dm_call := getTeam; dm_endpoint := ApiEndpoints.TEAM_GET;
      dm_params := RequiredParams TeamGetParamsSchema; dm_via := ViaRequest |};
   {| dm_call := getTimeAttackMemberSeasonResults; dm_endpoint := ApiEndpoints.TIME_ATTACK_MEMBER_SEASON_RESULTS;
      dm_params := RequiredParams TimeAttackMemberSeasonResultsParamsSchema; dm_via := ViaRequest |};
   {| dm_call := (fun _ => getTrackAssets); dm_endpoint := ApiEndpoints.TRACK_ASSETS;
      dm_params := NoParams; dm_via := ViaRequestWithChunking |};
   {| dm_call := (fun _ => getTracks); dm_endpoint := ApiEndpoints.TRACK_GET;
      dm_params := NoParams; dm_via := ViaRequestWithChunking |};
   {| dm_call := (fun _ => getAllCars); dm_endpoint := ApiEndpoints.CAR_GET;
      dm_params := NoParams; dm_via := ViaRequestWithChunking |};
   {| dm_call := (fun _ => getAllCarClasses); dm_endpoint := ApiEndpoints.CARCLASS_GET;
      dm_params := NoParams; dm_via := ViaRequestWithChunking |};
   {| dm_call := (fun _ => getConstantsCategories); dm_endpoint := ApiEndpoints.CONSTANTS_CATEGORIES;
      dm_params := NoParams; dm_via := ViaRequest |};
   {| dm_call := (fun _ => getConstantsEventTypes); dm_endpoint := ApiEndpoints.CONSTANTS_EVENT_TYPES;
      dm_params := NoParams; dm_via := ViaRequest |}].

End Endpoints.

(** ** Further observations *)

(** A value passes the check of a type. *)
Definition accepts (t : ZodType) (v : value) : bool :=
  match parse t v with Ok _ => true | Throw _ => false end.

(** The transforms of a type are applied to arrays. *)
Fixpoint joins_arrays (t : ZodType) : bool :=
  match t with
  | z_string | z_number | z_boolean => true
  | z_array item => joins_arrays item
  | z_transform_join (z_array item) => joins_arrays item
  | z_transform_join _ => false
  | z_optional inner => joins_arrays inner
  end.

(** Every key of the shape may be left out. *)
Definition all_optional (shape : ZodObject) : bool :=
  forallb (fun kt => match snd kt with z_optional _ => true | _ => false end) shape.

(** The schema of a method's parameters; the empty shape when it has
    none. *)
Definition schema_of (p : Params) : ZodObject :=
  match p with
  | NoParams => []
  | OptionalParams schema | RequiredParams schema => schema
  end.

(** [v === undefined]. *)
Definition is_undefined (v : value) : bool :=
  match v with VUndef => true | _ => false end.

(** The texts of the values of a list of entries, or the failure of the
    first value without a text. *)
Fixpoint texts (entries : list (string * value)) : result (list (string * string)) :=
  match entries with
  | [] => Ok []
  | (k, v) :: rest =>
      match ToString v, texts rest with
      | Ok s, Ok l => Ok ((k, s) :: l)
      | Throw e, _ => Throw e
      | Ok _, Throw e => Throw e
      end
  end.

(** The pairs of a query string: the entries with a defined value, each
    value as text. *)
Definition rendered (query : list (string * value)) : result (list (string * string)) :=
  texts (filter (fun kv => negb (is_undefined (snd kv))) query).

(** The headers a caller gives to [request]. *)
Definition given_headers (options : RequestInit) : list (string * string) :=
  match headers options with
  | Some h => header_entries h
  | None => []
  end.

(** The session token in the [set-cookie] header of a response. *)
Definition session_cookie (res : Response) : option string :=
  match headers_get "set-cookie" (res_headers res) with
  | Some setCookie => if str_empty setCookie then None else match_irsso setCookie
  | None => None
  end.

(** The number of fetches of a run that yielded records. *)
Definition chunks_read (fs : list (value * result Response)) : nat :=
  List.length (filter chunk_good (map snd fs)).

(** An event of a download: a transport call without options, a pause of
    100 ms, or a console line. *)
Definition download_event (e : event) : bool :=
  match e with
  | EvFetch _ None _ => true
  | EvFetch _ (Some _) _ => false
  | EvDelay ms => ms =? 100
  | EvLog _ | EvWarn _ => true
  end.

(** Any event at all. *)
Definition any_event (e : event) : bool := true.

Section Frames.

Context {host : Host}.

(** The options [authenticate] passes to the transport. *)
Definition auth_init (req : AuthRequest) : RequestInit :=
  {| method := Some "POST";
     headers := Some (HeadersRecord [("Content-Type", "application/json")]);
     body := Some (BodyStringify (auth_body req));
     credentials := Some "include" |}.

(** What the transport answers to the call [request] makes, with the
    environment it leaves; when the URL cannot be built no call is made, and
    the answer stands for the failure, in the environment as it was. *)
Definition transport_answer (path : string) (options : RequestInit)
  (query : option (list (string * value))) (w : World) : result Response * Env :=
  match request_url (this w) path query with
  | Ok url => fetchImpl (VStr url) (Some (request_init options)) (env w)
  | Throw e => (Throw e, env w)
  end.

(** The call a data method makes once its parameters are accepted. *)
Definition api_call (via : Transport) (path : string)
  (query : option (list (string * value))) : M value :=
  match via with
  | ViaRequest => request path no_options query
  | ViaRequestWithChunking => requestWithChunking path no_options query None
  end.

(** A computation is confined to a kind of event when every run of it
    leaves the client object as it was and adds only events of that kind to
    the trace. *)
Definition confined {A : Type} (kind : event -> bool) (m : M A) : Prop :=
  forall w,
    exists t,
      trace (after m w) = (trace w ++ t)%list /\
      this (after m w) = this w /\
      forallb kind t = true.

End Frames.

(** ** Further test data *)

(** An origin that answers the sign-in with a session in the body. *)
Definition session_body : value :=
  VObj [("authcode", VStr "code-1"); ("ssoCookieValue", VStr "sso-1");
        ("custId", VNum 7); ("email", VStr "user@example.com")].

Definition origin_auth : Host :=
  test_host [("https://members-ng.iracing.com" ++ AUTH, json_response session_body)]
    NodeCrypto.

(** An origin that refuses the sign-in. *)
Definition origin_auth_refused : Host :=
  test_host [("https://members-ng.iracing.com" ++ AUTH, failed_response 401)] NodeCrypto.

(** A sign-in request with capitals in the e-mail. *)
Definition user : AuthRequest :=
  {| email := "User@Example.com"; password := "secret" |}.

(** An origin whose reset header is not a number. *)
Definition origin_bad_reset : Host :=
  test_host
    [("https://members-ng.iracing.com" ++ cars,
      with_headers [("x-ratelimit-remaining", "10"); ("x-ratelimit-reset", "soon")]
        (json_response plain_response))]
    NodeCrypto.

(** An origin that is out of quota and refuses the request. *)
Definition origin_throttled : Host :=
  test_host
    [("https://members-ng.iracing.com" ++ cars,
      with_headers [("x-ratelimit-remaining", "0"); ("x-ratelimit-reset", "1005")]
        (failed_response 429))]
    NodeCrypto.

(** A nested chunk_info that announces chunks and lists no file. *)
Definition unlisted_nested_response : value :=
  VObj [("type", VStr "search_series_results");
        ("data",
         VObj [("success", VBool true);
               ("chunk_info",
                VObj [("chunk_size", VNum 2);
                      ("num_chunks", VNum 2);
                      ("rows", VNum 3);
                      ("base_download_url", VStr s3)])])].

(** A legacy response that carries its records and a chunk_info without
    chunks. *)
Definition chunkless_response : value :=
  VObj [("success", VBool true);
        ("data", VArr [rec 1; rec 2]);
        ("chunk_info", VObj [("rows", VNum 2); ("base_download_url", VStr s3)])].

(** A client with chunk handling switched off. *)
Definition unresolved : IracingApiOptions :=
  {| opt_baseUrl := None; opt_autoHandleChunkedResponses := Some false |}.

(** A decoded object without a text: its own [toString] property, a
    number, hides the inherited method. *)
Definition no_text : value := VObj [("toString", VNum 1)].

(** A link that is such an object. *)
Definition textless_link_response : value :=
  VObj [("link", no_text); ("expires", VStr "2024-01-01T00:00:00Z")].

(** A nested chunk_info that announces no chunks, with such an object as
    row count. *)
Definition textless_rows_response : value :=
  VObj [("type", VStr "search_series_results");
        ("data",
         VObj [("success", VBool true);
               ("chunk_info", VObj [("num_chunks", VNum 0); ("rows", no_text)])])].


(** A legacy response whose second file name is such an object. *)
Definition textless_name_response : value :=
  VObj [("success", VBool true);
        ("chunk_info",
         VObj [("total_chunks", VNum 2);
               ("base_download_url", VStr s3);
               ("chunk_file_names", VArr [VStr "a.json"; no_text])])].

(** A legacy response that lists two files, with such an object as base
    URL. *)
Definition textless_listed_base_response : value :=
  VObj [("success", VBool true);
        ("chunk_info",
         VObj [("total_chunks", VNum 2);
               ("base_download_url", no_text);
               ("chunk_file_names", VArr [VStr "a.json"; VStr "b.json"])])].

(** A nested chunk_info that lists two files, with such an object as chunk
    count. *)
Definition textless_count_response : value :=
  VObj [("type", VStr "search_series_results");
        ("data",
         VObj [("success", VBool true);
               ("chunk_info",
                VObj [("num_chunks", no_text);
                      ("rows", VNum 3);
                      ("base_download_url", VStr s3);
                      ("chunk_file_names", VArr [VStr "a.json"; VStr "b.json"])])])].

(** A link to a JSON document. *)
Definition member_info : value :=
  VObj [("cust_id", VNum 7); ("display_name", VStr "A Driver")].

Definition json_link_response : value :=
  VObj [("link", VStr (s3 ++ "member.json")); ("expires", VStr "2024-01-01T00:00:00Z")].

Definition origin_member : Host :=
  test_host [(s3 ++ "member.json", json_response member_info)] NodeCrypto.

Definition origin_member_down : Host :=
  test_host [(s3 ++ "member.json", failed_response 403)] NodeCrypto.



(** * Properties *)

(** ** Strings and encodings *)

Example base64_Man : base64 (utf8 "Man") = "TWFu".
Proof. reflexivity. Qed.

Example base64_padding : base64 (utf8 "light w") = "bGlnaHQgdw==".
Proof. reflexivity. Qed.

Example base64_one_pad : base64 (utf8 "light wo") = "bGlnaHQgd28=".
Proof. reflexivity. Qed.

Example utf8_latin1 :
  map byte_val (utf8 (String (ascii_of_nat 233) EmptyString)) = [195; 169].
Proof. reflexivity. Qed.

Example lower_example : toLowerCase "USER@Example.com" = "user@example.com".
Proof. reflexivity. Qed.

Example strip_json : strip_extension "results.json" = "results".
Proof. reflexivity. Qed.

Example strip_last_only : strip_extension "a.b.json" = "a.b".
Proof. reflexivity. Qed.

Example strip_none : strip_extension "chunk" = "chunk".
Proof. reflexivity. Qed.

Example strip_trailing_dot : strip_extension "chunk." = "chunk.".
Proof. reflexivity. Qed.

Example irsso_example :
  match_irsso "a=b; irsso_membersv2=tok123; Path=/" = Some "tok123".
Proof. reflexivity. Qed.

Lemma chars_of_chars (l : list ascii) : chars (of_chars l) = l.
Proof. apply list_ascii_of_string_of_list_ascii. Qed.

Lemma chars_app (a b : string) : chars (a ++ b) = (chars a ++ chars b)%list.
Proof. induction a as [|c a IH]; simpl; [reflexivity | rewrite IH; reflexivity]. Qed.

Lemma of_chars_chars (s : string) : of_chars (chars s) = s.
Proof. apply string_of_list_ascii_of_string. Qed.

Lemma span_word_run (w rest : list ascii) (c : ascii) :
  forallb is_word_char w = true ->
  is_word_char c = false ->
  span_word (w ++ c :: rest) = (w, c :: rest).
Proof.
  intros Hw Hc. induction w as [|x w IH]; cbn [app span_word].
  - rewrite Hc. reflexivity.
  - cbn [forallb] in Hw. apply andb_true_iff in Hw. destruct Hw as [Hx Hw].
    rewrite Hx, (IH Hw). reflexivity.
Qed.

(** An extension made of word characters is removed together with its
    dot. *)
Lemma strip_extension_ext (stem ext : string) :
  ext <> "" ->
  forallb is_word_char (chars ext) = true ->
  strip_extension (stem ++ "." ++ ext) = stem.
Proof.
  intros Hne Hw. unfold strip_extension.
  rewrite !chars_app. cbn [chars list_ascii_of_string app].
  rewrite rev_app_distr. cbn [rev]. rewrite <- app_assoc. cbn [app].
  change (list_ascii_of_string ext) with (chars ext).
  rewrite span_word_run.
  - destruct (rev (chars ext)) as [|x l] eqn:E.
    + apply (f_equal (@rev ascii)) in E. rewrite rev_involutive in E. cbn in E.
      apply (f_equal of_chars) in E. rewrite of_chars_chars in E. contradiction.
    + cbn [Ascii.eqb Bool.eqb]. rewrite rev_involutive. apply of_chars_chars.
  - rewrite forallb_forall in *. intros x Hx. apply Hw. apply in_rev. assumption.
  - reflexivity.
Qed.

(** A name without a dot is left as it is. *)
Lemma strip_extension_no_dot (s : string) :
  forallb is_word_char (chars s) = true -> strip_extension s = s.
Proof.
  intros Hw. unfold strip_extension.
  assert (H : span_word (rev (chars s)) = (rev (chars s), [])).
  { assert (Hr : forallb is_word_char (rev (chars s)) = true).
    { rewrite forallb_forall in *. intros x Hx. apply Hw. apply in_rev. assumption. }
    induction (rev (chars s)) as [|x l IH]; cbn [span_word]; [reflexivity|].
    cbn [forallb] in Hr. apply andb_true_iff in Hr. destruct Hr as [Hx Hl].
    rewrite Hx, (IH Hl). reflexivity. }
  rewrite H. destruct (rev (chars s)); reflexivity.
Qed.

Lemma span_word_split (l w r : list ascii) :
  span_word l = (w, r) -> l = (w ++ r)%list /\ forallb is_word_char w = true.
Proof.
  revert w r. induction l as [|c l IH]; intros w r H; cbn [span_word] in H.
  - injection H as <- <-. split; reflexivity.
  - destruct (is_word_char c) eqn:Ec.
    + destruct (span_word l) as [w' r'] eqn:E. injection H as <- <-.
      destruct (IH w' r' eq_refl) as [-> Hw]. cbn [forallb app].
      rewrite Ec, Hw. split; reflexivity.
    + injection H as <- <-. split; reflexivity.
Qed.

(** Conversely, when the name changes it ended in a dot followed by a
    non-empty run of word characters, and exactly that is removed. *)
Lemma strip_extension_changes (s : string) :
  strip_extension s <> s ->
  exists ext,
    ext <> "" /\ forallb is_word_char (chars ext) = true /\
    s = strip_extension s ++ "." ++ ext.
Proof.
  unfold strip_extension.
  destruct (span_word (rev (chars s))) as [w r] eqn:E.
  destruct (span_word_split _ _ _ E) as [Hrev Hw].
  destruct w as [|x w]; [congruence|].
  destruct r as [|dot rest]; [congruence|].
  destruct (Ascii.eqb_spec dot "."%char) as [->|Hne]; [|congruence].
  intros _. exists (of_chars (rev (x :: w))).
  assert (Hs : chars s = (rev rest ++ "."%char :: rev (x :: w))%list).
  { rewrite <- (rev_involutive (chars s)), Hrev, rev_app_distr.
    cbn [rev]. rewrite <- app_assoc. reflexivity. }
  split; [|split].
  - intros H0. apply (f_equal chars) in H0. rewrite chars_of_chars in H0.
    cbn [chars list_ascii_of_string rev] in H0.
    destruct (rev w); discriminate H0.
  - rewrite chars_of_chars. rewrite forallb_forall in *.
    intros c Hc. apply Hw. apply in_rev. assumption.
  - rewrite <- (of_chars_chars s) at 1. rewrite Hs.
    rewrite <- (of_chars_chars (of_chars (rev rest) ++ "." ++ of_chars (rev (x :: w)))).
    rewrite !chars_app, !chars_of_chars. reflexivity.
Qed.

(** ** Traces *)

Lemma fetches_app (a b : list event) : fetches (a ++ b) = (fetches a ++ fetches b)%list.
Proof.
  induction a as [|e a IH]; simpl; [reflexivity|].
  destruct e; simpl; rewrite IH; reflexivity.
Qed.

Lemma delays_app (a b : list event) : delays (a ++ b) = (delays a ++ delays b)%list.
Proof.
  induction a as [|e a IH]; simpl; [reflexivity|].
  destruct e; simpl; rewrite IH; reflexivity.
Qed.


Lemma skipn_length_app {A : Type} (l t : list A) : skipn (List.length l) (l ++ t) = t.
Proof. induction l; simpl; auto. Qed.

(** ** Property reads *)

Lemma prop_field (v : value) (k : string) :
  v <> VUndef -> v <> VNull -> prop v k = Ok (field v k).
Proof.
  intros Hu Hn. unfold field.
  destruct v as [| | b | n | s | xs | fs | f]; try congruence; simpl;
    try reflexivity.
  - destruct (String.eqb k "length"); [reflexivity|].
    destruct (String.eqb k "link" || String.eqb k "replace"); reflexivity.
  - destruct (String.eqb k "length"); reflexivity.
  - destruct (lookup k fs); reflexivity.
  - destruct (String.eqb k "length"); [reflexivity|].
    destruct (String.eqb k "name"); reflexivity.
Qed.

Lemma truthy_defined (v : value) : truthy v = true -> v <> VUndef /\ v <> VNull.
Proof. destruct v; simpl; intros H; split; congruence. Qed.

Lemma prop_truthy (v : value) (k : string) :
  truthy v = true -> prop v k = Ok (field v k).
Proof. intros H. destruct (truthy_defined v H). apply prop_field; assumption. Qed.

Lemma field_truthy_defined (v : value) (k : string) :
  truthy (field v k) = true -> v <> VUndef /\ v <> VNull.
Proof. destruct v; simpl; intros H; split; congruence. Qed.

(** Only an object has a truthy [chunk_info]. *)
Lemma chunk_info_object (v : value) :
  truthy (field v "chunk_info") = true -> exists fs, v = VObj fs.
Proof.
  destruct v; simpl; try discriminate.
  intros _. eexists; reflexivity.
Qed.

Lemma and_prop_field (a : value) (k : string) :
  and_prop a k = Ok (if truthy a then field a k else a).
Proof.
  unfold and_prop. destruct (truthy a) eqn:E; [|reflexivity].
  apply prop_truthy; assumption.
Qed.

(** ** Objects *)

Lemma lookup_assign_other (k k' : string) (v : value) (fs : list (string * value)) :
  k <> k' -> lookup k (assign k' v fs) = lookup k fs.
Proof.
  intros Hk. induction fs as [|[k0 v0] fs IH]; simpl.
  - destruct (String.eqb_spec k k'); congruence.
  - destruct (String.eqb_spec k' k0) as [->|Hne]; simpl.
    + destruct (String.eqb_spec k k0); congruence.
    + destruct (String.eqb_spec k k0); auto.
Qed.

Lemma lookup_assign_same (k : string) (v : value) (fs : list (string * value)) :
  lookup k (assign k v fs) = Some v.
Proof.
  induction fs as [|[k0 v0] fs IH]; simpl.
  - rewrite String.eqb_refl. reflexivity.
  - destruct (String.eqb_spec k k0) as [->|Hne]; simpl.
    + rewrite String.eqb_refl. reflexivity.
    + destruct (String.eqb_spec k k0); congruence.
Qed.

(** Writing back the value a property already has changes nothing. *)
Lemma assign_current (k : string) (v : value) (fs : list (string * value)) :
  lookup k fs = Some v -> assign k v fs = fs.
Proof.
  induction fs as [|[k0 v0] fs IH]; simpl; [discriminate|].
  destruct (String.eqb_spec k k0) as [->|Hne]; intros H.
  - congruence.
  - rewrite IH by assumption. reflexivity.
Qed.

(** [{...o, data: d, chunk_info: o.chunk_info}] is [o] with [data] set. *)
Lemma spread_data_chunk_info (fs : list (string * value)) (d ci : value) :
  lookup "chunk_info" fs = Some ci ->
  assign "chunk_info" ci (assign "data" d fs) = assign "data" d fs.
Proof.
  intros H. apply assign_current.
  rewrite lookup_assign_other by discriminate. assumption.
Qed.

(** ** Conversions *)

#[local] Arguments String.append : simpl never.
#[local] Arguments ToString : simpl never.
#[local] Arguments NumberToString : simpl never.

Lemma ToString_text (v : value) : renders v = true -> ToString v = Ok (text v).
Proof. unfold renders, text. destruct (ToString v); [reflexivity | discriminate]. Qed.

Lemma ToString_renders (v : value) (s : string) : ToString v = Ok s -> renders v = true.
Proof. unfold renders. intros ->. reflexivity. Qed.

Lemma ToString_Ok_text (v : value) (s : string) : ToString v = Ok s -> text v = s.
Proof. unfold text. intros ->. reflexivity. Qed.

Lemma ToString_fails (v : value) : renders v = false -> exists e, ToString v = Throw e.
Proof.
  unfold renders. destruct (ToString v) as [s|e]; [discriminate|].
  intros _. exists e. reflexivity.
Qed.

(** The conversion to a number raises only where the conversion to a
    string does. *)
Lemma ToNumber_renders (read : string -> option Z) (v : value) :
  renders v = true -> exists n, ToNumber read v = Ok n.
Proof.
  unfold renders. destruct v as [| | b | n | s | xs | fs | f]; cbn [ToNumber];
    try (intros _; eexists; reflexivity).
  - destruct (ToString (VArr xs)); [intros _; eexists; reflexivity | discriminate].
  - destruct (ToString (VObj fs)); [|discriminate]. intros _.
    destruct (lookup "valueOf" fs) as [[| | | | | | |g]|]; eexists; reflexivity.
Qed.

Lemma ToNumber_Ok_renders (read : string -> option Z) (v : value) (n : option Z) :
  ToNumber read v = Ok n -> renders v = true.
Proof.
  unfold renders. destruct v as [| | b | m | s | xs | fs | f]; cbn [ToNumber];
    try (intros _; reflexivity).
  - destruct b; reflexivity.
  - destruct (ToString (VArr xs)); [intros _; reflexivity | discriminate].
  - destruct (ToString (VObj fs)); [intros _; reflexivity | discriminate].
Qed.

Lemma ToString_array_cons (x : value) (xs : list value) :
  ToString (VArr (x :: xs)) =
    match (match x with VNull | VUndef => Ok "" | _ => ToString x end) with
    | Throw e => Throw e
    | Ok e =>
        match xs with
        | [] => Ok e
        | _ :: _ =>
            match ToString (VArr xs) with
            | Ok r => Ok (e ++ "," ++ r)
            | Throw e' => Throw e'
            end
        end
    end.
Proof. destruct xs; reflexivity. Qed.

(** [String(array)] is [array.join(',')]. *)
Lemma ToString_array (xs : list value) : ToString (VArr xs) = join "," xs.
Proof.
  induction xs as [|x xs IH]; [reflexivity|].
  rewrite ToString_array_cons. cbn [join]. rewrite IH. reflexivity.
Qed.

(** An array whose elements have a text has one. *)
Lemma join_renders (sep : string) (xs : list value) :
  forallb renders xs = true -> exists s, join sep xs = Ok s.
Proof.
  induction xs as [|x xs IH]; intros H; [eexists; reflexivity|].
  cbn [forallb] in H. apply andb_true_iff in H. destruct H as [Hx Hxs].
  destruct (IH Hxs) as (r & Hr). cbn [join]. rewrite Hr.
  assert (He : exists e,
            match x with VNull | VUndef => Ok "" | _ => ToString x end = Ok e).
  { destruct x; try (eexists; reflexivity);
      rewrite (ToString_text _ Hx); eexists; reflexivity. }
  destruct He as (e & ->). destruct xs; eexists; reflexivity.
Qed.

Lemma renders_array (xs : list value) :
  forallb renders xs = true -> renders (VArr xs) = true.
Proof.
  intros H. unfold renders. rewrite ToString_array.
  destruct (join_renders "," xs H) as (s & ->). reflexivity.
Qed.

Lemma chunk_url_text (base name : value) (b n : string) :
  ToString base = Ok b -> ToString name = Ok n -> chunk_url base name = VStr (b ++ n).
Proof.
  intros Hb Hn. unfold chunk_url.
  rewrite (ToString_Ok_text _ _ Hb), (ToString_Ok_text _ _ Hn). reflexivity.
Qed.

(** ** The chunk loops *)

Ltac run_in H :=
  unfold bind, console_log, console_warn, emit, fetch, sleep,
         lift, throw, ret, when, now, get_this, try_catch in H; simpl in H.

Ltac done_run H := injection H as <- <-.

Ltac mstep := unfold interpolate, bind, lift, ret, throw, when; cbv beta iota.
Ltac mstep_in H :=
  unfold interpolate, bind, lift, ret, throw, when in H; cbv beta iota in H.

Section Loops.

Context {host : Host}.

(** A run of the named-list loop: the fetches go to the listed files in
    order; it ends well only when every fetch yields records, with the
    records appended in fetch order; otherwise it stops at the first fetch
    that does not, or before the fetch of a file whose URL has no text. *)
Lemma fetch_named_chunks_run (base : value) (names : list value) :
  forall (chunks : list value) (w w' : World) (out : result (list value)),
  fetch_named_chunks base names chunks w = (out, w') ->
  exists t,
    trace w' = (trace w ++ t)%list /\
    this w' = this w /\
    map fst (fetches t) =
      firstn (List.length (fetches t)) (map (chunk_url base) names) /\
    match out with
    | Ok cs =>
        List.length (fetches t) = List.length names /\
        forallb chunk_good (map snd (fetches t)) = true /\
        cs = (chunks ++ flat_map records (map snd (fetches t)))%list /\
        delays t = repeat 100 (List.length names)
    | Throw e =>
        (exists fs u o,
           fetches t = (fs ++ [(u, o)])%list /\
           forallb chunk_good (map snd fs) = true /\
           chunk_outcome o = Throw e)
        \/
        (forallb chunk_good (map snd (fetches t)) = true /\
         renders base && forallb renders names = false)
    end.
Proof.
  induction names as [|f names IH]; intros chunks w w' out H.
  - run_in H. done_run H. exists []. rewrite !app_nil_r. repeat split; reflexivity.
  - cbn [fetch_named_chunks] in H. unfold interpolate in H.
    unfold bind at 1, lift at 1 in H.
    destruct (ToString base) as [b|eb] eqn:Eb.
    2:{ done_run H. exists []. rewrite app_nil_r.
        split; [reflexivity|]. split; [reflexivity|]. split; [reflexivity|].
        right. split; [reflexivity|]. unfold renders at 1. rewrite Eb. reflexivity. }
    unfold bind at 1, lift at 1 in H.
    destruct (ToString f) as [n|en] eqn:En.
    2:{ done_run H. exists []. rewrite app_nil_r.
        split; [reflexivity|]. split; [reflexivity|]. split; [reflexivity|].
        right. split; [reflexivity|]. cbn [forallb]. unfold renders at 2. rewrite En.
        cbn [andb]. apply andb_false_r. }
    assert (Hrb : renders base = true) by (apply (ToString_renders _ _ Eb)).
    assert (Hrf : renders f = true) by (apply (ToString_renders _ _ En)).
    pose proof (chunk_url_text base f b n Eb En) as Hurl.
    cbn [map]. rewrite Hurl. clear Hurl.
    set (url := (b ++ n)%string) in *.
    run_in H.
    destruct (fetchImpl (VStr url) None (env w)) as [[res|e] env1] eqn:Ef.
    + destruct (res_ok res) eqn:Eok; simpl in H.
      * destruct (res_json res) as [body|e] eqn:Ej.
        -- destruct (iterate body) as [items|e] eqn:Ei.
           ++ apply IH in H. destruct H as (t & Ht & Hthis & Hurls & Hout).
              simpl in Ht, Hthis.
              exists (EvLog (FetchingChunk url)
                      :: EvFetch (VStr url) None (Ok res)
                      :: EvDelay 100 :: t).
              split; [rewrite Ht; rewrite <- !app_assoc; reflexivity|].
              split; [assumption|].
              assert (Hrec : records (Ok res) = items).
              { unfold records, chunk_outcome. rewrite Eok, Ej. simpl. rewrite Ei. reflexivity. }
              assert (Hgood : chunk_good (Ok res) = true).
              { unfold chunk_good, chunk_outcome. rewrite Eok, Ej. simpl. rewrite Ei. reflexivity. }
              split; [simpl; f_equal; assumption|].
              destruct out as [cs|e].
              ** destruct Hout as (Hlen & Hall & Hcs & Hdel).
                 simpl. rewrite Hgood, Hrec, Hlen, Hall, Hdel, Hcs, <- app_assoc.
                 repeat split; reflexivity.
              ** destruct Hout as [(fs & u & o & Hfs & Hall & Ho) | (Hall & Hr)].
                 --- left. exists ((VStr url, Ok res) :: fs), u, o.
                     simpl. rewrite Hfs, Hgood, Hall. repeat split; auto.
                 --- right. simpl. rewrite Hgood, Hall. split; [reflexivity|].
                     rewrite Hrb in *. rewrite Hrf. exact Hr.
           ++ done_run H.
              exists [EvLog (FetchingChunk url); EvFetch (VStr url) None (Ok res)].
              split; [simpl; rewrite <- !app_assoc; reflexivity|].
              split; [reflexivity|]. split; [reflexivity|].
              left. exists [], (VStr url), (Ok res).
              repeat split. unfold chunk_outcome. rewrite Eok, Ej. simpl. assumption.
        -- done_run H.
           exists [EvLog (FetchingChunk url); EvFetch (VStr url) None (Ok res)].
           split; [simpl; rewrite <- !app_assoc; reflexivity|].
           split; [reflexivity|]. split; [reflexivity|].
           left. exists [], (VStr url), (Ok res).
           repeat split. unfold chunk_outcome. rewrite Eok, Ej. reflexivity.
      * done_run H.
        exists [EvLog (FetchingChunk url); EvFetch (VStr url) None (Ok res)].
        split; [simpl; rewrite <- !app_assoc; reflexivity|].
        split; [reflexivity|]. split; [reflexivity|].
        left. exists [], (VStr url), (Ok res).
        repeat split. unfold chunk_outcome. rewrite Eok. reflexivity.
    + done_run H.
      exists [EvLog (FetchingChunk url); EvFetch (VStr url) None (Throw e)].
      split; [simpl; rewrite <- !app_assoc; reflexivity|].
      split; [reflexivity|]. split; [reflexivity|].
      left. exists [], (VStr url), (Throw e).
      repeat split.
Qed.


(** The fallback loop raises at once, before any fetch, when there is an
    iteration to run and the base URL has no text. *)
Lemma fetch_indexed_chunks_no_base (ci : value) (name : string) (e : exn)
  (todo : nat) (i : Z) (chunks : list value) (w : World) :
  truthy ci = true ->
  field ci "chunk_file_name" = VStr name ->
  ToString (field ci "base_download_url") = Throw e ->
  fetch_indexed_chunks (S todo) i ci chunks w = (Throw e, w).
Proof.
  intros Hci Hname Hbase. cbn [fetch_indexed_chunks]. unfold interpolate.
  rewrite !(prop_truthy ci _ Hci), Hname. cbn [replace_extension].
  unfold bind, lift. rewrite Hbase. reflexivity.
Qed.

End Loops.

(** ** The resolver, branch by branch *)

Section Resolver.

Context {host : Host}.

Lemma emitted_run {A : Type} (m : M A) (w w' : World) (out : result A) (t : list event) :
  m w = (out, w') -> trace w' = (trace w ++ t)%list -> emitted m w = t.
Proof.
  intros H Ht. unfold emitted, after. rewrite H. simpl. rewrite Ht.
  apply skipn_length_app.
Qed.

Lemma outcome_run {A : Type} (m : M A) (w w' : World) (out : result A) :
  m w = (out, w') -> outcome m w = out.
Proof. intros H. unfold outcome. rewrite H. reflexivity. Qed.

Lemma after_run {A : Type} (m : M A) (w w' : World) (out : result A) :
  m w = (out, w') -> after m w = w'.
Proof. intros H. unfold after. rewrite H. reflexivity. Qed.

Lemma world_eta (w : World) : {| env := env w; trace := trace w; this := this w |} = w.
Proof. destruct w; reflexivity. Qed.

(** A run that leaves the state as it was added no event. *)
Lemma emitted_still {A : Type} (m : M A) (w : World) (out : result A) :
  m w = (out, w) -> emitted m w = [].
Proof.
  intros H. apply (emitted_run m w w out [] H). rewrite app_nil_r. reflexivity.
Qed.

Lemma logged_trace (w : World) (line : console) :
  trace (logged w line) = (trace w ++ [EvLog line])%list.
Proof. reflexivity. Qed.

(** Plain payload. *)
Lemma handle_plain (r : value) (w : World) :
  r <> VUndef -> r <> VNull ->
  truthy (field r "link") = false ->
  truthy (top_chunk_info r) = false ->
  truthy (nested_chunk_info r) = false ->
  handleChunkedResponse r w = (Ok r, w).
Proof.
  intros Hu Hn Hl Hc Hnest. unfold top_chunk_info, nested_chunk_info in *.
  unfold handleChunkedResponse.
  rewrite !(prop_field r _ Hu Hn). mstep. rewrite and_prop_field. cbv beta iota.
  rewrite Hl, Hnest, Hc. reflexivity.
Qed.

(** The empty-set test of the nested strategy: the console line shows the
    row count, and the run ends there. *)
Lemma handle_nested_empty (r : value) (w : World) :
  direct_link r = false ->
  truthy (nested_chunk_info r) = true ->
  strict_eq_num (field (nested_chunk_info r) "num_chunks") 0
  || strict_eq_num (field (nested_chunk_info r) "rows") 0 = true ->
  handleChunkedResponse r w =
    match ToString (field (nested_chunk_info r) "rows") with
    | Ok shown => (Ok (field r "data"), logged w (NoChunksNeeded shown))
    | Throw e => (Throw e, w)
    end.
Proof.
  intros Hd Hnest Hz.
  assert (Hdata : truthy (field r "data") = true).
  { unfold nested_chunk_info in Hnest.
    destruct (truthy (field r "data")) eqn:E; [reflexivity | congruence]. }
  destruct (field_truthy_defined _ _ Hdata) as [Hu Hn].
  unfold handleChunkedResponse.
  rewrite !(prop_field r _ Hu Hn). mstep. rewrite and_prop_field. cbv beta iota.
  unfold direct_link, top_chunk_info in Hd. rewrite Hd.
  unfold nested_chunk_info in *. rewrite Hdata in *. rewrite Hnest.
  rewrite !(prop_truthy _ _ Hnest). cbv beta iota.
  rewrite Hz.
  destruct (ToString (field (field (field r "data") "chunk_info") "rows")); reflexivity.
Qed.

(** In that case no transport call is made and no timer is set. *)
Lemma handle_nested_empty_quiet (r : value) (w : World) :
  direct_link r = false ->
  truthy (nested_chunk_info r) = true ->
  strict_eq_num (field (nested_chunk_info r) "num_chunks") 0
  || strict_eq_num (field (nested_chunk_info r) "rows") 0 = true ->
  fetches (emitted (handleChunkedResponse r) w) = [] /\
  delays (emitted (handleChunkedResponse r) w) = [] /\
  env (after (handleChunkedResponse r) w) = env w.
Proof.
  intros Hd Hnest Hz.
  pose proof (handle_nested_empty r w Hd Hnest Hz) as E.
  destruct (ToString (field (nested_chunk_info r) "rows")) as [shown|e].
  - rewrite (after_run _ _ _ _ E).
    rewrite (emitted_run _ _ _ _ [EvLog (NoChunksNeeded shown)] E) by reflexivity.
    repeat split.
  - rewrite (after_run _ _ _ _ E), (emitted_still _ _ _ E). repeat split.
Qed.

(** Direct link. *)
Lemma handle_direct_link (r : value) (w : World) :
  direct_link r = true ->
  handleChunkedResponse r w =
    match ToString (field r "link") with
    | Throw e => (Throw e, w)
    | Ok shown =>
        let (out, env1) := fetchImpl (field r "link") None (env w) in
        let w1 := {| env := env1;
                     trace := trace w ++ [EvLog (DirectLink shown);
                                          EvFetch (field r "link") None out];
                     this := this w |} in
        match out with
        | Throw e => (Throw e, w1)
        | Ok res =>
            if negb (res_ok res)
            then (Throw (Error ("Failed to fetch linked data: " ++
                                  NumberToString (res_status res))), w1)
            else if is_csv res
            then (match res_text res with Ok s => Ok (VStr s) | Throw e => Throw e end,
                  {| env := env1;
                     trace := trace w ++ [EvLog (DirectLink shown);
                                          EvFetch (field r "link") None out;
                                          EvLog CsvResponse];
                     this := this w |})
            else match res_json res with
                 | Ok v => (Ok v,
                     {| env := env1;
                        trace := trace w ++ [EvLog (DirectLink shown);
                                             EvFetch (field r "link") None out;
                                             EvLog LinkedDataFetched];
                        this := this w |})
                 | Throw e => (Throw e, w1)
                 end
        end
    end.
Proof.
  intros Hd. unfold direct_link in Hd.
  apply andb_true_iff in Hd. destruct Hd as [Hl Hc].
  destruct (field_truthy_defined _ _ Hl) as [Hu Hn].
  unfold handleChunkedResponse.
  rewrite !(prop_field r _ Hu Hn). mstep.
  unfold top_chunk_info in Hc. rewrite Hl, Hc. cbn [andb]. cbv beta iota.
  destruct (ToString (field r "link")) as [shown|e]; [|reflexivity].
  unfold console_log, emit, fetch. cbn [andb env trace this]. cbv beta iota.
  destruct (fetchImpl (field r "link") None (env w)) as [[res|e] env1].
  - rewrite <- !app_assoc. cbn [app].
    destruct (res_ok res); cbn [negb]; cbv beta iota; [|reflexivity].
    unfold is_csv, present.
    destruct (headers_get "content-type" (res_headers res)) as [ct|]; cbn [andb].
    + destruct (negb (str_empty ct) && includes ct "text/csv"); cbv beta iota.
      * cbn [env trace this]. rewrite <- !app_assoc. cbn [app].
        destruct (res_text res); reflexivity.
      * cbn [env trace this]. rewrite <- !app_assoc. cbn [app].
        destruct (res_json res); reflexivity.
    + cbv beta iota. cbn [env trace this]. rewrite <- !app_assoc. cbn [app].
      destruct (res_json res); reflexivity.
  - rewrite <- !app_assoc. reflexivity.
Qed.

Lemma has_file_names_array (files : list value) :
  files <> [] -> has_file_names (VArr files) = Ok true.
Proof.
  destruct files as [|f files]; [congruence|]. intros _.
  unfold has_file_names. cbn [truthy prop String.eqb Ascii.eqb Bool.eqb].
  cbn [ToNumber]. unfold num_lt. reflexivity.
Qed.

(** The legacy strategy starts with the console line that shows the
    count of chunks: without a text for the count nothing else happens. *)
Lemma handle_legacy_no_count (r : value) (e : exn) (w : World) :
  truthy (top_chunk_info r) = true ->
  truthy (nested_chunk_info r) = false ->
  ToString (field (top_chunk_info r) "total_chunks") = Throw e ->
  handleChunkedResponse r w = (Throw e, w).
Proof.
  intros Hc Hnest Ht.
  destruct (field_truthy_defined _ _ Hc) as [Hu Hn].
  unfold handleChunkedResponse.
  rewrite !(prop_field r _ Hu Hn). mstep.
  rewrite and_prop_field. cbv beta iota.
  unfold top_chunk_info, nested_chunk_info in *.
  rewrite Hc, Hnest. cbn [negb]. rewrite andb_false_r. cbv beta iota.
  rewrite !(prop_truthy _ _ Hc). cbv beta iota.
  rewrite Ht. reflexivity.
Qed.

(** The named-list branch of the legacy strategy, with a list to walk. *)
Lemma handle_legacy_listed (r : value) (files : list value) (w w' : World)
  (out : result value) :
  truthy (top_chunk_info r) = true ->
  truthy (nested_chunk_info r) = false ->
  single_chunk (top_chunk_info r) = false ->
  renders (field (top_chunk_info r) "total_chunks") = true ->
  has_file_names (field (top_chunk_info r) "chunk_file_names") = Ok true ->
  iterate (field (top_chunk_info r) "chunk_file_names") = Ok files ->
  handleChunkedResponse r w = (out, w') ->
  exists out1 w1,
    fetch_named_chunks (field (top_chunk_info r) "base_download_url") files []
      (logged w (ProcessingChunked (text (field (top_chunk_info r) "total_chunks"))))
    = (out1, w1) /\
    match out1 with
    | Ok chunks =>
        out = Ok (VObj (assign "chunk_info" (top_chunk_info r)
                          (assign "data" (VArr chunks) (spread r)))) /\
        w' = logged w1 (Combined (list_length chunks)
                          (text (field (top_chunk_info r) "total_chunks")))
    | Throw e => out = Throw e /\ w' = w1
    end.
Proof.
  intros Hc Hnest Hsingle Htotal Hnames Hiter H.
  destruct (field_truthy_defined _ _ Hc) as [Hu Hn].
  unfold handleChunkedResponse in H.
  rewrite !(prop_field r _ Hu Hn) in H. mstep_in H.
  rewrite and_prop_field in H. cbv beta iota in H.
  unfold top_chunk_info, nested_chunk_info in *.
  rewrite Hc, Hnest in H. cbn [negb] in H. rewrite andb_false_r in H.
  cbv beta iota in H.
  rewrite !(prop_truthy _ _ Hc) in H. cbv beta iota in H.
  rewrite !(ToString_text _ Htotal) in H. cbv beta iota in H.
  unfold single_chunk in Hsingle. rewrite Hsingle, Hnames in H. cbv beta iota in H.
  rewrite Hiter in H. cbv beta iota in H.
  unfold console_log at 1, emit at 1 in H. cbv beta iota in H.
  fold (logged w (ProcessingChunked
                    (text (field (field r "chunk_info") "total_chunks")))) in H.
  destruct (fetch_named_chunks _ files [] _) as [[chunks|e] w1] eqn:E.
  - exists (Ok chunks), w1. split; [reflexivity|].
    unfold console_log, emit in H. injection H as <- <-. split; reflexivity.
  - exists (Throw e), w1. split; [reflexivity|].
    injection H as <- <-. split; reflexivity.
Qed.

(** The same branch when the list is not iterable: no fetch is made. *)
Lemma handle_legacy_not_iterable (r : value) (e : exn) (w : World) :
  truthy (top_chunk_info r) = true ->
  truthy (nested_chunk_info r) = false ->
  single_chunk (top_chunk_info r) = false ->
  has_file_names (field (top_chunk_info r) "chunk_file_names") = Ok true ->
  iterate (field (top_chunk_info r) "chunk_file_names") = Throw e ->
  fetches (emitted (handleChunkedResponse r) w) = [].
Proof.
  intros Hc Hnest Hsingle Hnames Hiter.
  destruct (ToString (field (top_chunk_info r) "total_chunks")) as [shown|e0] eqn:Ht.
  2:{ rewrite (emitted_still _ _ _ (handle_legacy_no_count r e0 w Hc Hnest Ht)).
      reflexivity. }
  destruct (field_truthy_defined _ _ Hc) as [Hu Hn].
  unfold emitted, after, handleChunkedResponse.
  rewrite !(prop_field r _ Hu Hn). mstep.
  rewrite and_prop_field. cbv beta iota.
  unfold top_chunk_info, nested_chunk_info in *.
  rewrite Hc, Hnest. cbn [negb]. rewrite andb_false_r. cbv beta iota.
  rewrite !(prop_truthy _ _ Hc). cbv beta iota.
  rewrite !Ht. cbv beta iota.
  unfold single_chunk in Hsingle. rewrite Hsingle, Hnames. cbv beta iota.
  rewrite Hiter.
  unfold console_log, emit. cbn [snd trace].
  rewrite skipn_length_app. reflexivity.
Qed.

(** The legacy strategy with a list of file names runs the named-list loop
    and puts its result in [data]. *)
Lemma handle_legacy_named (r : value) (files : list value) (w w' : World)
  (out : result value) :
  truthy (top_chunk_info r) = true ->
  truthy (nested_chunk_info r) = false ->
  single_chunk (top_chunk_info r) = false ->
  renders (field (top_chunk_info r) "total_chunks") = true ->
  field (top_chunk_info r) "chunk_file_names" = VArr files ->
  files <> [] ->
  handleChunkedResponse r w = (out, w') ->
  exists out1 w1,
    fetch_named_chunks (field (top_chunk_info r) "base_download_url") files []
      (logged w (ProcessingChunked (text (field (top_chunk_info r) "total_chunks"))))
    = (out1, w1) /\
    match out1 with
    | Ok chunks =>
        out = Ok (VObj (assign "chunk_info" (top_chunk_info r)
                          (assign "data" (VArr chunks) (spread r)))) /\
        w' = logged w1 (Combined (list_length chunks)
                          (text (field (top_chunk_info r) "total_chunks")))
    | Throw e => out = Throw e /\ w' = w1
    end.
Proof.
  intros Hc Hnest Hsingle Htotal Hnames Hne H.
  apply (handle_legacy_listed r files w w' out Hc Hnest Hsingle); try assumption.
  - rewrite Hnames. apply has_file_names_array. assumption.
  - rewrite Hnames. reflexivity.
Qed.

(** The nested strategy past its empty-set test: the test for a list of
    file names comes first, then the console line that shows the count of
    chunks; when either raises nothing else happens. *)
Lemma handle_nested_entry (r : value) (w : World) :
  direct_link r = false ->
  truthy (nested_chunk_info r) = true ->
  strict_eq_num (field (nested_chunk_info r) "num_chunks") 0
  || strict_eq_num (field (nested_chunk_info r) "rows") 0 = false ->
  match has_file_names (field (nested_chunk_info r) "chunk_file_names") with
  | Throw e => handleChunkedResponse r w = (Throw e, w)
  | Ok false => handleChunkedResponse r w = (Ok (field r "data"), w)
  | Ok true =>
      forall e,
        ToString (field (nested_chunk_info r) "num_chunks") = Throw e ->
        handleChunkedResponse r w = (Throw e, w)
  end.
Proof.
  intros Hd Hnest Hz.
  assert (Hdata : truthy (field r "data") = true).
  { unfold nested_chunk_info in Hnest.
    destruct (truthy (field r "data")) eqn:E; [reflexivity | congruence]. }
  destruct (field_truthy_defined _ _ Hdata) as [Hu Hn].
  unfold handleChunkedResponse.
  rewrite !(prop_field r _ Hu Hn). mstep. rewrite and_prop_field. cbv beta iota.
  unfold direct_link, top_chunk_info in Hd. rewrite Hd.
  unfold nested_chunk_info in *. rewrite Hdata in *. rewrite Hnest.
  rewrite !(prop_truthy _ _ Hnest). cbv beta iota.
  rewrite Hz.
  destruct (has_file_names _) as [[|]|e]; try reflexivity.
  intros e Ht. rewrite Ht. reflexivity.
Qed.

(** The nested strategy, past its empty-set test, with a list to walk. *)
Lemma handle_nested_listed (r : value) (files : list value) (w w' : World)
  (out : result value) :
  direct_link r = false ->
  truthy (nested_chunk_info r) = true ->
  strict_eq_num (field (nested_chunk_info r) "num_chunks") 0
  || strict_eq_num (field (nested_chunk_info r) "rows") 0 = false ->
  renders (field (nested_chunk_info r) "num_chunks") = true ->
  has_file_names (field (nested_chunk_info r) "chunk_file_names") = Ok true ->
  iterate (field (nested_chunk_info r) "chunk_file_names") = Ok files ->
  handleChunkedResponse r w = (out, w') ->
  exists out1 w1,
    fetch_named_chunks (field (nested_chunk_info r) "base_download_url") files []
      (logged w (NestedChunks (text (field (nested_chunk_info r) "num_chunks"))))
    = (out1, w1) /\
    match out1 with
    | Ok chunks =>
        out = Ok (VObj (assign "chunk_info" (nested_chunk_info r)
                          (assign "data" (VArr chunks) (spread (field r "data"))))) /\
        w' = logged w1 (CombinedNested (list_length chunks)
                          (text (field (nested_chunk_info r) "num_chunks")))
    | Throw e => out = Throw e /\ w' = w1
    end.
Proof.
  intros Hd Hnest Hz Hcount Hnames Hiter H.
  assert (Hdata : truthy (field r "data") = true).
  { unfold nested_chunk_info in Hnest.
    destruct (truthy (field r "data")) eqn:E; [reflexivity | congruence]. }
  destruct (field_truthy_defined _ _ Hdata) as [Hu Hn].
  unfold handleChunkedResponse in H.
  rewrite !(prop_field r _ Hu Hn) in H. mstep_in H.
  rewrite and_prop_field in H. cbv beta iota in H.
  unfold direct_link, top_chunk_info in Hd. rewrite Hd in H.
  unfold nested_chunk_info in *. rewrite Hdata in *. rewrite Hnest in H.
  rewrite !(prop_truthy _ _ Hnest) in H. cbv beta iota in H.
  rewrite Hz, Hnames in H. cbv beta iota in H.
  rewrite !(ToString_text _ Hcount) in H. cbv beta iota in H.
  rewrite Hiter in H. cbv beta iota in H.
  unfold console_log at 1, emit at 1 in H. cbv beta iota in H.
  fold (logged w (NestedChunks
                    (text (field (field (field r "data") "chunk_info") "num_chunks")))) in H.
  destruct (fetch_named_chunks _ files [] _) as [[chunks|e] w1] eqn:E.
  - exists (Ok chunks), w1. split; [reflexivity|].
    unfold console_log, emit in H. injection H as <- <-. split; reflexivity.
  - exists (Throw e), w1. split; [reflexivity|].
    injection H as <- <-. split; reflexivity.
Qed.

(** The nested strategy without a walk: the list is missing or empty, the
    test for it raises, or the list is not iterable. In each case no fetch
    is made. *)
Lemma handle_nested_quiet (r : value) (w : World) :
  direct_link r = false ->
  truthy (nested_chunk_info r) = true ->
  has_file_names (field (nested_chunk_info r) "chunk_file_names") <> Ok true \/
  renders (field (nested_chunk_info r) "num_chunks") = false \/
  (exists e, iterate (field (nested_chunk_info r) "chunk_file_names") = Throw e) ->
  fetches (emitted (handleChunkedResponse r) w) = [].
Proof.
  intros Hd Hnest Hquiet.
  destruct (strict_eq_num (field (nested_chunk_info r) "num_chunks") 0
            || strict_eq_num (field (nested_chunk_info r) "rows") 0) eqn:Hz.
  { apply (handle_nested_empty_quiet r w Hd Hnest Hz). }
  pose proof (handle_nested_entry r w Hd Hnest Hz) as Hentry.
  destruct (has_file_names (field (nested_chunk_info r) "chunk_file_names"))
    as [[|]|e0] eqn:Hnames.
  2:{ rewrite (emitted_still _ _ _ Hentry). reflexivity. }
  2:{ rewrite (emitted_still _ _ _ Hentry). reflexivity. }
  destruct (ToString (field (nested_chunk_info r) "num_chunks")) as [shown|e0] eqn:Ht.
  2:{ rewrite (emitted_still _ _ _ (Hentry e0 eq_refl)). reflexivity. }
  destruct Hquiet as [Hq | [Hq | (e & Hiter)]].
  { congruence. }
  { unfold renders in Hq. rewrite Ht in Hq. discriminate. }
  assert (Hdata : truthy (field r "data") = true).
  { unfold nested_chunk_info in Hnest.
    destruct (truthy (field r "data")) eqn:E; [reflexivity | congruence]. }
  destruct (field_truthy_defined _ _ Hdata) as [Hu Hn].
  unfold emitted, after, handleChunkedResponse.
  rewrite !(prop_field r _ Hu Hn). mstep.
  rewrite and_prop_field. cbv beta iota.
  unfold direct_link, top_chunk_info in Hd. rewrite Hd.
  unfold nested_chunk_info in *. rewrite Hdata in *. rewrite Hnest.
  rewrite !(prop_truthy _ _ Hnest). cbv beta iota.
  rewrite Hz, Hnames. cbv beta iota. rewrite !Ht. cbv beta iota.
  rewrite Hiter. unfold console_log, emit. cbn [snd trace].
  rewrite skipn_length_app. reflexivity.
Qed.

(** The nested strategy with a list of file names. *)
Lemma handle_nested_named (r : value) (files : list value) (w w' : World)
  (out : result value) :
  direct_link r = false ->
  truthy (nested_chunk_info r) = true ->
  strict_eq_num (field (nested_chunk_info r) "num_chunks") 0
  || strict_eq_num (field (nested_chunk_info r) "rows") 0 = false ->
  renders (field (nested_chunk_info r) "num_chunks") = true ->
  field (nested_chunk_info r) "chunk_file_names" = VArr files ->
  files <> [] ->
  handleChunkedResponse r w = (out, w') ->
  exists out1 w1,
    fetch_named_chunks (field (nested_chunk_info r) "base_download_url") files []
      (logged w (NestedChunks (text (field (nested_chunk_info r) "num_chunks"))))
    = (out1, w1) /\
    match out1 with
    | Ok chunks =>
        out = Ok (VObj (assign "chunk_info" (nested_chunk_info r)
                          (assign "data" (VArr chunks) (spread (field r "data"))))) /\
        w' = logged w1 (CombinedNested (list_length chunks)
                          (text (field (nested_chunk_info r) "num_chunks")))
    | Throw e => out = Throw e /\ w' = w1
    end.
Proof.
  intros Hd Hnest Hz Hcount Hnames Hne H.
  apply (handle_nested_listed r files w w' out Hd Hnest Hz); try assumption.
  - rewrite Hnames. apply has_file_names_array. assumption.
  - rewrite Hnames. reflexivity.
Qed.

(** The legacy strategy without a list of file names runs the fallback
    loop. *)
Lemma handle_legacy_indexed (r : value) (w w' : World) (out : result value) :
  truthy (top_chunk_info r) = true ->
  truthy (nested_chunk_info r) = false ->
  single_chunk (top_chunk_info r) = false ->
  renders (field (top_chunk_info r) "total_chunks") = true ->
  has_file_names (field (top_chunk_info r) "chunk_file_names") = Ok false ->
  handleChunkedResponse r w = (out, w') ->
  exists todo out1 w1,
    indexed_iterations (field (top_chunk_info r) "total_chunks") = Ok todo /\
    fetch_indexed_chunks todo 0 (top_chunk_info r) []
      (logged w (ProcessingChunked (text (field (top_chunk_info r) "total_chunks"))))
    = (out1, w1) /\
    match out1 with
    | Ok chunks =>
        out = Ok (VObj (assign "chunk_info" (top_chunk_info r)
                          (assign "data" (VArr chunks) (spread r)))) /\
        w' = logged w1 (Combined (list_length chunks)
                          (text (field (top_chunk_info r) "total_chunks")))
    | Throw e => out = Throw e /\ w' = w1
    end.
Proof.
  intros Hc Hnest Hsingle Htotal Hnames H.
  destruct (field_truthy_defined _ _ Hc) as [Hu Hn].
  assert (Htodo : exists todo,
            indexed_iterations (field (top_chunk_info r) "total_chunks") = Ok todo).
  { unfold indexed_iterations.
    destruct (ToNumber_renders StringToNumber _ Htotal) as ([n|] & ->);
      eexists; reflexivity. }
  destruct Htodo as (todo & Htodo). exists todo.
  unfold handleChunkedResponse in H.
  rewrite !(prop_field r _ Hu Hn) in H. mstep_in H.
  rewrite and_prop_field in H. cbv beta iota in H.
  unfold top_chunk_info, nested_chunk_info in *.
  rewrite Hc, Hnest in H. cbn [negb] in H. rewrite andb_false_r in H.
  cbv beta iota in H.
  rewrite !(prop_truthy _ _ Hc) in H. cbv beta iota in H.
  rewrite !(ToString_text _ Htotal) in H. cbv beta iota in H.
  unfold single_chunk in Hsingle. rewrite Hsingle, Hnames in H. cbv beta iota in H.
  rewrite Htodo in H. cbv beta iota in H.
  unfold console_log at 1, emit at 1 in H. cbv beta iota in H.
  fold (logged w (ProcessingChunked
                    (text (field (field r "chunk_info") "total_chunks")))) in H.
  destruct (fetch_indexed_chunks todo 0 _ [] _) as [[chunks|e] w1] eqn:E.
  - exists (Ok chunks), w1. split; [exact Htodo|]. split; [reflexivity|].
    unfold console_log, emit in H. injection H as <- <-. split; reflexivity.
  - exists (Throw e), w1. split; [exact Htodo|]. split; [reflexivity|].
    injection H as <- <-. split; reflexivity.
Qed.

(** The fallback loop raises at once when there is an iteration to run and
    the base name is missing. *)
Lemma fetch_indexed_chunks_no_name (ci : value) (todo : nat) (i : Z)
  (chunks : list value) (w : World) :
  truthy ci = true ->
  field ci "chunk_file_name" = VUndef \/ field ci "chunk_file_name" = VNull ->
  exists msg,
    fetch_indexed_chunks (S todo) i ci chunks w = (Throw (TypeError msg), w).
Proof.
  intros Hci Hname. cbn [fetch_indexed_chunks].
  rewrite !(prop_truthy ci _ Hci). mstep.
  destruct Hname as [-> | ->]; cbn [replace_extension prop]; eexists; reflexivity.
Qed.

Lemma truthy_lookup (fs : list (string * value)) (k : string) :
  truthy (field (VObj fs) k) = true -> lookup k fs = Some (field (VObj fs) k).
Proof.
  unfold field. cbn [prop]. destruct (lookup k fs); [reflexivity | discriminate].
Qed.

Lemma chunk_good_ok (res : Response) : chunk_good (Ok res) = true -> res_ok res = true.
Proof.
  unfold chunk_good, chunk_outcome. destruct (res_ok res); [reflexivity | discriminate].
Qed.

Lemma records_array (res : Response) (items : list value) :
  res_ok res = true -> res_json res = Ok (VArr items) -> records (Ok res) = items.
Proof.
  intros Hok Hj. unfold records, chunk_outcome. rewrite Hok, Hj. reflexivity.
Qed.

(** What a resolution that runs the named-list loop shows: fetches in list
    order, and either every fetch good and the records in [data], or a first
    bad fetch, the last one made, whose failure is the outcome, or every
    fetch made good and a failure for want of a text of the base URL or of
    a file name. *)
Lemma named_summary (m : M value) (base : value) (files : list value)
  (line0 : console) (mk : list value -> value) (line1 : list value -> console)
  (w w' : World) (out : result value) :
  m w = (out, w') ->
  (exists out1 w1,
     fetch_named_chunks base files [] (logged w line0) = (out1, w1) /\
     match out1 with
     | Ok chunks => out = Ok (mk chunks) /\ w' = logged w1 (line1 chunks)
     | Throw e => out = Throw e /\ w' = w1
     end) ->
  map fst (fetches (emitted m w)) =
    firstn (List.length (fetches (emitted m w))) (map (chunk_url base) files) /\
  ((forallb chunk_good (map snd (fetches (emitted m w))) = true /\
    List.length (fetches (emitted m w)) = List.length files /\
    out = Ok (mk (flat_map records (map snd (fetches (emitted m w))))))
   \/
   (exists fs u o e,
      fetches (emitted m w) = (fs ++ [(u, o)])%list /\
      forallb chunk_good (map snd fs) = true /\
      chunk_outcome o = Throw e /\
      out = Throw e)
   \/
   (forallb chunk_good (map snd (fetches (emitted m w))) = true /\
    renders base && forallb renders files = false /\
    exists e, out = Throw e)).
Proof.
  intros Hm (out1 & w1 & Hloop & Hout).
  apply fetch_named_chunks_run in Hloop.
  destruct Hloop as (t & Ht & _ & Hurls & Hres).
  rewrite logged_trace in Ht.
  destruct out1 as [chunks|e].
  - destruct Hout as [-> ->]. destruct Hres as (Hlen & Hall & Hcs & _).
    assert (He : emitted m w = (EvLog line0 :: t ++ [EvLog (line1 chunks)])%list).
    { apply (emitted_run m w _ _ _ Hm). rewrite logged_trace, Ht.
      rewrite <- !app_assoc. reflexivity. }
    rewrite He. cbn [fetches]. rewrite fetches_app. cbn [fetches].
    rewrite app_nil_r. split; [assumption|]. left.
    repeat split; try assumption. rewrite Hcs. reflexivity.
  - destruct Hout as [-> ->].
    assert (He : emitted m w = (EvLog line0 :: t)%list).
    { apply (emitted_run m w _ _ _ Hm). rewrite Ht.
      rewrite <- !app_assoc. reflexivity. }
    rewrite He. cbn [fetches]. split; [assumption|]. right.
    destruct Hres as [(fs & u & o & Hfs & Hall & Ho) | (Hall & Hr)].
    + left. exists fs, u, o, e. repeat split; assumption.
    + right. split; [assumption|]. split; [assumption|]. exists e. reflexivity.
Qed.

Lemma in_firstn {A : Type} (x : A) (n : nat) (l : list A) :
  In x (firstn n l) -> In x l.
Proof.
  revert l. induction n as [|n IH]; intros [|y l] H; cbn [firstn In] in *;
    try tauto.
  destruct H as [H | H]; [left; assumption | right; apply IH; assumption].
Qed.

Lemma forallb_snoc_false {A : Type} (p : A -> bool) (l : list A) (x : A) :
  p x = false -> forallb p (l ++ [x]) = false.
Proof.
  intros H. rewrite forallb_app. cbn [forallb]. rewrite H.
  rewrite andb_false_r. reflexivity.
Qed.

(** The single-chunk branch of the legacy strategy: when the count, the
    base URL and the base name have a text, one fetch, of the base name as
    given; otherwise no fetch. *)
Lemma handle_legacy_single (r : value) (w : World) :
  truthy (top_chunk_info r) = true ->
  truthy (nested_chunk_info r) = false ->
  single_chunk (top_chunk_info r) = true ->
  if renders (field (top_chunk_info r) "base_download_url")
     && renders (field (top_chunk_info r) "chunk_file_name")
  then
    exists out,
      fetches (emitted (handleChunkedResponse r) w) =
        [(chunk_url (field (top_chunk_info r) "base_download_url")
            (field (top_chunk_info r) "chunk_file_name"), out)] /\
      outcome (handleChunkedResponse r) w =
        match chunk_outcome out with
        | Ok chunks =>
            Ok (VObj (assign "chunk_info" (top_chunk_info r)
                        (assign "data" (VArr chunks) (spread r))))
        | Throw e => Throw e
        end
  else
    fetches (emitted (handleChunkedResponse r) w) = [] /\
    exists e, outcome (handleChunkedResponse r) w = Throw e.
Proof.
  intros Hc Hnest Hsingle.
  assert (Htotal : ToString (field (top_chunk_info r) "total_chunks") = Ok "1").
  { unfold single_chunk in Hsingle. apply andb_true_iff in Hsingle.
    destruct Hsingle as [_ H1].
    destruct (field (top_chunk_info r) "total_chunks"); try discriminate.
    cbn [strict_eq_num] in H1. apply Z.eqb_eq in H1. subst. reflexivity. }
  destruct (field_truthy_defined _ _ Hc) as [Hu Hn].
  unfold emitted, after, outcome, handleChunkedResponse.
  rewrite !(prop_field r _ Hu Hn). mstep.
  rewrite and_prop_field. cbv beta iota.
  unfold top_chunk_info, nested_chunk_info in *.
  rewrite Hc, Hnest. cbn [negb]. rewrite andb_false_r. cbv beta iota.
  rewrite !(prop_truthy _ _ Hc). cbv beta iota.
  rewrite !Htotal. cbv beta iota.
  unfold single_chunk in Hsingle. rewrite Hsingle.
  unfold chunk_url, text, renders.
  destruct (ToString (field (field r "chunk_info") "base_download_url")) as [b|eb].
  2:{ unfold console_log, emit. cbn [andb fst snd trace].
      rewrite skipn_length_app. split; [reflexivity | eexists; reflexivity]. }
  destruct (ToString (field (field r "chunk_info") "chunk_file_name")) as [n|en].
  2:{ unfold console_log, emit. cbn [andb fst snd trace].
      rewrite skipn_length_app. split; [reflexivity | eexists; reflexivity]. }
  cbn [andb].
  unfold console_log, emit, fetch. cbn [env trace this]. cbv beta iota.
  destruct (fetchImpl _ None (env w)) as [[res|e] env1].
  - exists (Ok res). unfold chunk_outcome.
    destruct (res_ok res); cbn [negb]; cbv beta iota.
    + destruct (res_json res) as [body|e]; cbv beta iota.
      * destruct (iterate body) as [items|e]; cbv beta iota; cbn [fst snd trace];
          rewrite <- !app_assoc, skipn_length_app; split; reflexivity.
      * cbn [fst snd trace]. rewrite <- !app_assoc, skipn_length_app. split; reflexivity.
    + cbn [fst snd trace]. rewrite <- !app_assoc, skipn_length_app. split; reflexivity.
  - exists (Throw e). cbn [fst snd trace chunk_outcome].
    rewrite <- !app_assoc, skipn_length_app. split; reflexivity.
Qed.

Lemma strict_run_quiet (m : M value) (w : World) :
  fetches (emitted m w) = [] -> strict_run m w.
Proof. intros H u res Hin. rewrite H in Hin. destruct Hin. Qed.

(** The named-list loop is strict. *)
Lemma strict_run_named (m : M value) (base : value) (files : list value)
  (line0 : console) (mk : list value -> value) (line1 : list value -> console)
  (w w' : World) (out : result value) :
  m w = (out, w') ->
  (exists out1 w1,
     fetch_named_chunks base files [] (logged w line0) = (out1, w1) /\
     match out1 with
     | Ok chunks => out = Ok (mk chunks) /\ w' = logged w1 (line1 chunks)
     | Throw e => out = Throw e /\ w' = w1
     end) ->
  strict_run m w.
Proof.
  intros E Hrun u res Hin Hbad.
  destruct (named_summary m base files line0 mk line1 w w' out E Hrun) as [_ Hcases].
  rewrite (outcome_run _ _ _ _ E).
  destruct Hcases as [(Hall & _ & _)
                     | [(fs & u' & o & e & Hfs & Hall & Ho & ->) | (Hall & _ & _)]].
  - rewrite forallb_forall in Hall.
    apply (in_map snd) in Hin. apply Hall in Hin. cbn [snd] in Hin.
    apply chunk_good_ok in Hin. congruence.
  - rewrite Hfs in Hin. apply in_app_or in Hin. destruct Hin as [Hin | Hin].
    + rewrite forallb_forall in Hall.
      apply (in_map snd) in Hin. apply Hall in Hin. cbn [snd] in Hin.
      apply chunk_good_ok in Hin. congruence.
    + destruct Hin as [Heq | []]. injection Heq as _ ->.
      unfold chunk_outcome in Ho. rewrite Hbad in Ho. cbn [negb] in Ho.
      congruence.
  - rewrite forallb_forall in Hall.
    apply (in_map snd) in Hin. apply Hall in Hin. cbn [snd] in Hin.
    apply chunk_good_ok in Hin. congruence.
Qed.

(** With a top-level chunk_info that lists files, whatever branch the
    resolver takes is strict: the index-derived fallback is out of reach. *)
Lemma strict_when_listed (r : value) (w : World) :
  truthy (top_chunk_info r) = true ->
  has_file_names (field (top_chunk_info r) "chunk_file_names") = Ok true ->
  strict_run (handleChunkedResponse r) w.
Proof.
  intros Hc Hnames.
  assert (Hd : direct_link r = false).
  { unfold direct_link. rewrite Hc. apply andb_false_r. }
  destruct (handleChunkedResponse r w) as [out w'] eqn:E.
  destruct (truthy (nested_chunk_info r)) eqn:Hnest.
  - destruct (strict_eq_num (field (nested_chunk_info r) "num_chunks") 0
              || strict_eq_num (field (nested_chunk_info r) "rows") 0) eqn:Hz.
    { apply strict_run_quiet. apply (handle_nested_empty_quiet r w Hd Hnest Hz). }
    destruct (has_file_names (field (nested_chunk_info r) "chunk_file_names"))
      as [[|]|e0] eqn:Hn.
    2:{ apply strict_run_quiet. apply handle_nested_quiet; try assumption.
        left. congruence. }
    2:{ apply strict_run_quiet. apply handle_nested_quiet; try assumption.
        left. congruence. }
    destruct (renders (field (nested_chunk_info r) "num_chunks")) eqn:Hcount.
    2:{ apply strict_run_quiet. apply handle_nested_quiet; try assumption.
        right. left. assumption. }
    destruct (iterate (field (nested_chunk_info r) "chunk_file_names"))
      as [files|e] eqn:Hiter.
    + eapply strict_run_named; [exact E|].
      exact (handle_nested_listed r files w w' out Hd Hnest Hz Hcount Hn Hiter E).
    + apply strict_run_quiet. apply handle_nested_quiet; try assumption.
      right. right. exists e. assumption.
  - destruct (renders (field (top_chunk_info r) "total_chunks")) eqn:Htotal.
    2:{ apply strict_run_quiet.
        destruct (ToString_fails _ Htotal) as (e0 & Ht).
        rewrite (emitted_still _ _ _ (handle_legacy_no_count r e0 w Hc Hnest Ht)).
        reflexivity. }
    destruct (single_chunk (top_chunk_info r)) eqn:Hsingle.
    + pose proof (handle_legacy_single r w Hc Hnest Hsingle) as Hrun.
      destruct (renders (field (top_chunk_info r) "base_download_url")
                && renders (field (top_chunk_info r) "chunk_file_name")).
      * destruct Hrun as (o & Hf & Ho).
        intros u res Hin Hbad. rewrite Hf in Hin.
        destruct Hin as [Heq | []]. injection Heq as _ ->.
        rewrite Ho. unfold chunk_outcome. rewrite Hbad. reflexivity.
      * apply strict_run_quiet. apply Hrun.
    + destruct (iterate (field (top_chunk_info r) "chunk_file_names"))
        as [files|e] eqn:Hiter.
      * eapply strict_run_named; [exact E|].
        exact (handle_legacy_listed r files w w' out Hc Hnest Hsingle Htotal
                 Hnames Hiter E).
      * apply strict_run_quiet.
        apply (handle_legacy_not_iterable r e); assumption.
Qed.

End Resolver.

(** ** The rate limiter *)

Section Limiter.

Context {host : Host}.

Lemma rate_limit_log_run (res : Response) (w : World) :
  reset_renders res = true ->
  exists t,
    rate_limit_log res w =
      (Ok tt, {| env := env w; trace := trace w ++ t; this := this w |}) /\
    fetches t = [] /\ delays t = [] /\ warnings t = [].
Proof.
  unfold reset_renders, rate_limit_log. intros Hr.
  destruct (present (headers_get "x-ratelimit-limit" (res_headers res))
            || present (headers_get "x-ratelimit-remaining" (res_headers res))
            || present (headers_get "x-ratelimit-reset" (res_headers res))).
  - destruct (present (headers_get "x-ratelimit-reset" (res_headers res))).
    + destruct (toISOString _) as [d|e]; [|discriminate].
      unfold when, bind, lift, ret, console_log, emit. cbn [env trace this].
      eexists. split; [reflexivity|]. repeat split.
    + unfold when, bind, lift, ret, console_log, emit. cbn [env trace this].
      eexists. split; [reflexivity|]. repeat split.
  - exists []. rewrite app_nil_r, world_eta. repeat split.
Qed.

Lemma rate_limit_wait_run (res : Response) (w : World) :
  exists t,
    rate_limit_wait res w =
      (Ok tt,
       {| env := waited w (pre_emptive_wait res (Date_now (env w)));
          trace := trace w ++ t;
          this := this w |}) /\
    fetches t = [] /\
    delays t =
      match pre_emptive_wait res (Date_now (env w)) with
      | Some ms => [ms]
      | None => []
      end.
Proof.
  unfold pre_emptive_wait, remaining_quota, reset_seconds, rate_limit_wait, waited.
  destruct (headers_get "x-ratelimit-remaining" (res_headers res)) as [remaining|].
  2:{ exists []. cbn [andb when]. unfold ret. rewrite app_nil_r, world_eta. repeat split. }
  destruct (Number_header (Some remaining)) as [q|].
  2:{ exists []. rewrite andb_false_r. cbn [when]. unfold ret.
      rewrite app_nil_r, world_eta. repeat split. }
  destruct (present (headers_get "x-ratelimit-reset" (res_headers res))).
  2:{ exists []. cbn [andb when]. unfold ret. rewrite app_nil_r, world_eta. repeat split. }
  destruct (Number_header (headers_get "x-ratelimit-reset" (res_headers res))) as [s|].
  2:{ exists []. cbn [andb times1000]. destruct (q <=? 1); cbn [when];
      unfold bind, now, ret; rewrite app_nil_r, world_eta; repeat split. }
  cbn [andb times1000].
  destruct (q <=? 1); cbn [when andb].
  2:{ exists []. unfold ret. rewrite app_nil_r, world_eta. repeat split. }
  unfold bind, now. cbv beta iota.
  destruct (0 <? s * 1000 - Date_now (env w)); cbn [when].
  - unfold console_warn, emit, sleep. cbn [env trace this].
    rewrite <- app_assoc. eexists. split; [reflexivity|]. repeat split.
  - exists []. unfold ret. rewrite app_nil_r, world_eta. repeat split.
Qed.

(** When the reset header is not a time [Date] can render, the console line
    of the rate-limit step raises and nothing else happens. *)
Lemma rate_limit_log_throws (res : Response) (w : World) :
  reset_renders res = false ->
  rate_limit_log res w = (Throw (RangeError "Invalid time value"), w).
Proof.
  unfold reset_renders, rate_limit_log. intros Hr.
  destruct (present (headers_get "x-ratelimit-reset" (res_headers res)));
    [|discriminate].
  rewrite orb_true_r. cbn [when].
  destruct (toISOString _) as [d|e] eqn:E; [discriminate|].
  assert (e = RangeError "Invalid time value") as ->.
  { unfold toISOString in E.
    destruct (times1000 _) as [t|]; [|congruence].
    destruct ((-8640000000000000 <=? t) && (t <=? 8640000000000000)); congruence. }
  reflexivity.
Qed.


End Limiter.

(** ** The executor and the hasher *)

Section Executor.

Context {host : Host}.

(** A run of [request] whose transport call returns a response: the console
    line, the call, the rate-limit step, then the status check. *)
Lemma request_run (path : string) (options : RequestInit)
  (query : option (list (string * value))) (w : World) (url : string)
  (res : Response) (env1 : Env) :
  request_url (this w) path query = Ok url ->
  fetchImpl (VStr url) (Some (request_init options)) (env w) = (Ok res, env1) ->
  reset_renders res = true ->
  exists t,
    request path options query w =
      (if negb (res_ok res)
       then Throw (Error ("HTTP error! status: " ++ NumberToString (res_status res)))
       else res_json res,
       {| env := match pre_emptive_wait res (Date_now env1) with
                 | Some ms => setTimeout ms env1
                 | None => env1
                 end;
          trace := trace w ++
                   EvLog (Requesting url)
                   :: EvFetch (VStr url) (Some (request_init options)) (Ok res)
                   :: t;
          this := this w |}) /\
    fetches t = [] /\
    delays t = match pre_emptive_wait res (Date_now env1) with
               | Some ms => [ms]
               | None => []
               end.
Proof.
  intros Hu Hf Hr.
  unfold request. unfold bind at 1, get_this at 1.
  unfold bind at 1, lift at 1. rewrite Hu.
  fold (request_init options).
  unfold bind at 1, console_log at 1, emit at 1.
  unfold bind at 1, fetch at 1. cbn [env trace this]. rewrite Hf.
  unfold bind at 1, rate_limit, bind at 1.
  match goal with |- context [rate_limit_log res ?w1] =>
    destruct (rate_limit_log_run res w1 Hr) as (t1 & E1 & Hf1 & Hd1 & _); rewrite E1 end.
  match goal with |- context [rate_limit_wait res ?w2] =>
    destruct (rate_limit_wait_run res w2) as (t2 & E2 & Hf2 & Hd2); rewrite E2 end.
  cbn [env trace this waited] in *.
  exists (t1 ++ t2)%list.
  rewrite fetches_app, delays_app, Hf1, Hf2, Hd1, Hd2. cbn [app].
  split; [|split; reflexivity].
  rewrite <- !app_assoc. cbn [app].
  destruct (res_ok res); cbn [negb]; unfold throw, lift; reflexivity.
Qed.

(** The same run when the console line of the rate-limit step raises. *)
Lemma request_run_throws (path : string) (options : RequestInit)
  (query : option (list (string * value))) (w : World) (url : string)
  (res : Response) (env1 : Env) :
  request_url (this w) path query = Ok url ->
  fetchImpl (VStr url) (Some (request_init options)) (env w) = (Ok res, env1) ->
  reset_renders res = false ->
  request path options query w =
    (Throw (RangeError "Invalid time value"),
     {| env := env1;
        trace := trace w ++
                 [EvLog (Requesting url);
                  EvFetch (VStr url) (Some (request_init options)) (Ok res)];
        this := this w |}).
Proof.
  intros Hu Hf Hr.
  unfold request. unfold bind at 1, get_this at 1.
  unfold bind at 1, lift at 1. rewrite Hu.
  fold (request_init options).
  unfold bind at 1, console_log at 1, emit at 1.
  unfold bind at 1, fetch at 1. cbn [env trace this]. rewrite Hf.
  unfold bind at 1, rate_limit, bind at 1.
  rewrite rate_limit_log_throws by assumption.
  rewrite <- app_assoc. reflexivity.
Qed.

(** When a value of the query has no text, [request] raises before its
    console line and its transport call. *)
Lemma request_run_unrendered (path : string) (options : RequestInit)
  (query : option (list (string * value))) (w : World) (e : exn) :
  request_url (this w) path query = Throw e ->
  request path options query w = (Throw e, w).
Proof.
  intros Hu. unfold request. unfold bind at 1, get_this at 1.
  unfold bind at 1, lift at 1. rewrite Hu. reflexivity.
Qed.

(** The gate of [requestWithChunking], for a response that is neither
    [null] nor [undefined]: the resolver runs exactly when chunk handling
    is on and the top-level [chunk_info] or [link] is truthy. *)
Lemma requestWithChunking_gate (path : string) (options : RequestInit)
  (query : option (list (string * value))) (handleChunks : option bool)
  (w w1 : World) (r : value) :
  request path options query w = (Ok r, w1) ->
  r <> VUndef -> r <> VNull ->
  requestWithChunking path options query handleChunks w =
    if (match handleChunks with
        | Some b => b
        | None => autoHandleChunkedResponses (this w1)
        end)
       && (truthy (top_chunk_info r) || truthy (field r "link"))
    then handleChunkedResponse r w1
    else (Ok r, w1).
Proof.
  intros Hreq Hu Hn.
  unfold requestWithChunking. unfold bind at 1. rewrite Hreq.
  unfold bind at 1, get_this at 1.
  destruct (match handleChunks with
            | Some b => b
            | None => autoHandleChunkedResponses (this w1)
            end); [|reflexivity].
  rewrite !(prop_field r _ Hu Hn). mstep. cbn [andb]. unfold top_chunk_info.
  destruct (truthy (field r "chunk_info") || truthy (field r "link")); reflexivity.
Qed.

Lemma btoa_fromCharCodes (bs : list Byte.byte) : btoa (fromCharCodes bs) = base64 bs.
Proof.
  unfold btoa, fromCharCodes. rewrite chars_of_chars, map_map. f_equal.
  rewrite <- (map_id bs) at 2. apply map_ext. intros b. apply byte_of_ascii_of_byte.
Qed.

(** The three branches of the hasher compute the same digest. *)
Lemma hashBase64_canonical (s : string) : hashBase64 s = base64 (sha256 (utf8 s)).
Proof.
  unfold hashBase64. destruct crypto_runtime; [apply btoa_fromCharCodes | reflexivity | reflexivity].
Qed.

(** The session update touches the client object only. *)
Lemma store_session_run (res : Response) (response : value) (w : World) :
  exists out sdk,
    store_session res response w =
      (out, {| env := env w; trace := trace w; this := sdk |}).
Proof.
  unfold store_session. unfold bind at 1, lift at 1.
  destruct (prop response "ssoCookieValue") as [sso|e].
  2:{ eexists _, _. rewrite world_eta. reflexivity. }
  destruct (truthy sso).
  - unfold bind, lift, set_ssoCookieValue, set_authcode, when, ret.
    destruct (prop response "authcode") as [code|e]; [destruct (truthy code)|];
      cbn [env trace this]; eexists _, _; reflexivity.
  - unfold bind at 1.
    assert (Hcookie : exists sdk,
      match headers_get "set-cookie" (res_headers res) with
      | Some setCookie =>
          match (if str_empty setCookie then None else match_irsso setCookie) with
          | Some captured => set_ssoCookieValue (VStr captured)
          | None => ret tt
          end
      | None => ret tt
      end w = (Ok tt, {| env := env w; trace := trace w; this := sdk |})).
    { destruct (headers_get "set-cookie" (res_headers res)) as [c|];
        [destruct (if str_empty c then None else match_irsso c)|];
        unfold set_ssoCookieValue, ret; eexists; try reflexivity;
        rewrite world_eta; reflexivity. }
    destruct Hcookie as (sdk & ->).
    unfold bind, lift, set_authcode, when, ret.
    destruct (prop response "authcode") as [code|e]; [destruct (truthy code)|];
      cbn [env trace this]; eexists _, _; reflexivity.
Qed.


End Executor.

(** * The claims *)

(** ** Chunk resolution gate *)

(** C1: evaluation at a response whose only chunk_info is nested under
    [data], with chunk handling left at its default (on). The response does
    exhibit a nested chunk_info, and the resolver, given the response, fetches
    the two chunk files and fills [data.data]; but [requestWithChunking]
    tests the top-level fields only, makes the API call alone and returns the
    decoded body as it is. *)
Theorem requestWithChunking_skips_nested_chunk_info :
  let w := fresh origin_search 0 defaults in
  autoHandleChunkedResponses (this w) = true /\
  truthy (nested_chunk_info nested_response) = true /\
  outcome (requestWithChunking search_series no_options None None) w = Ok nested_response /\
  map fst (fetches (emitted (requestWithChunking search_series no_options None None) w)) =
    [VStr ("https://members-ng.iracing.com" ++ search_series)] /\
  outcome (handleChunkedResponse nested_response) w =
    Ok (VObj [("success", VBool true);
              ("chunk_info", nested_chunk_info nested_response);
              ("params", VObj [("season_year", VNum 2024)]);
              ("data", VArr [rec 1; rec 2; rec 3])]) /\
  map fst (fetches (emitted (handleChunkedResponse nested_response) w)) =
    [VStr (s3 ++ "a.json"); VStr (s3 ++ "b.json")].
Proof. vm_compute. repeat split; reflexivity. Qed.

Example chunk_handling_switched_off :
  let off := {| opt_baseUrl := None; opt_autoHandleChunkedResponses := Some false |} in
  let h := test_host
    [("https://members-ng.iracing.com" ++ search_series, json_response named_response)]
    NodeCrypto in
  outcome (host := h) (requestWithChunking search_series no_options None None)
    (fresh h 0 off) = Ok named_response /\
  outcome (host := h) (requestWithChunking search_series no_options None (Some false))
    (fresh h 0 defaults) = Ok named_response.
Proof. vm_compute. split; reflexivity. Qed.

(** ** Named chunk files *)

(** C2: for every response with a top-level chunk_info whose
    chunk_file_names is a non-empty list, a non-success status on any fetch
    the resolution makes ends it with the error
    [Failed to fetch chunk: <status>]: it throws, so no value, partial or
    not, is returned. In the named-list branch of the legacy strategy (no
    nested chunk_info under [data], not the single-chunk case) every fetch
    goes to one of the named files. *)
Theorem named_chunk_failure_aborts {host : Host} (r : value) (files : list value)
  (w : World) :
  truthy (top_chunk_info r) = true ->
  field (top_chunk_info r) "chunk_file_names" = VArr files ->
  files <> [] ->
  (forall u res,
     In (u, Ok res) (fetches (emitted (handleChunkedResponse r) w)) ->
     res_ok res = false ->
     outcome (handleChunkedResponse r) w =
       Throw (Error ("Failed to fetch chunk: " ++ NumberToString (res_status res)))) /\
  (truthy (nested_chunk_info r) = false ->
   single_chunk (top_chunk_info r) = false ->
   forall u o,
     In (u, o) (fetches (emitted (handleChunkedResponse r) w)) ->
     exists f, In f files /\
       u = chunk_url (field (top_chunk_info r) "base_download_url") f).
Proof.
  intros Hc Hnames Hne.
  assert (Hlist : has_file_names (field (top_chunk_info r) "chunk_file_names") = Ok true).
  { rewrite Hnames. apply has_file_names_array. assumption. }
  split.
  - apply strict_when_listed; assumption.
  - intros Hnest Hsingle u o Hin.
    destruct (renders (field (top_chunk_info r) "total_chunks")) eqn:Htotal.
    2:{ destruct (ToString_fails _ Htotal) as (e0 & Ht).
        rewrite (emitted_still _ _ _ (handle_legacy_no_count r e0 w Hc Hnest Ht)) in Hin.
        destruct Hin. }
    destruct (handleChunkedResponse r w) as [out w'] eqn:E.
    assert (Hiter : iterate (field (top_chunk_info r) "chunk_file_names") = Ok files).
    { rewrite Hnames. reflexivity. }
    pose proof (handle_legacy_listed r files w w' out Hc Hnest Hsingle Htotal Hlist Hiter E)
      as Hrun.
    destruct (named_summary _ _ _ _ _ _ w w' out E Hrun) as [Hurls _].
    apply (in_map fst) in Hin. cbn [fst] in Hin. rewrite Hurls in Hin.
    apply in_firstn in Hin. apply in_map_iff in Hin.
    destruct Hin as (f & <- & Hf). exists f. split; [assumption | reflexivity].
Qed.

Lemma named_chunk_failure_aborts_witness :
  outcome (host := origin_b_fails) (handleChunkedResponse named_response)
    (fresh origin_b_fails 0 defaults)
  = Throw (Error "Failed to fetch chunk: 500").
Proof.
  refine (proj1 (named_chunk_failure_aborts (host := origin_b_fails)
                   named_response [VStr "a.json"; VStr "b.json"; VStr "c.json"]
                   (fresh origin_b_fails 0 defaults)
                   eq_refl eq_refl _)
            (VStr (s3 ++ "b.json")) (failed_response 500) _ eq_refl).
  - discriminate.
  - vm_compute. right. left. reflexivity.
Defined.

Example second_named_file_fails :
  outcome (host := origin_b_fails) (handleChunkedResponse named_response)
    (fresh origin_b_fails 0 defaults)
  = Throw (Error "Failed to fetch chunk: 500") /\
  map fst (fetches (emitted (host := origin_b_fails) (handleChunkedResponse named_response)
                      (fresh origin_b_fails 0 defaults)))
  = [VStr (s3 ++ "a.json"); VStr (s3 ++ "b.json")].
Proof. vm_compute. split; reflexivity. Qed.

Example second_named_file_fails_whole_call :
  outcome (host := origin_api_b_fails)
    (requestWithChunking search_series no_options None None)
    (fresh origin_api_b_fails 0 defaults)
  = Throw (Error "Failed to fetch chunk: 500").
Proof. vm_compute. reflexivity. Qed.

(** ** Index-derived chunk files *)




Example second_indexed_file_fails :
  outcome (host := origin_indexed) (handleChunkedResponse indexed_response)
    (fresh origin_indexed 0 defaults)
  = Ok (VObj [("success", VBool true);
              ("chunk_info", top_chunk_info indexed_response);
              ("data", VArr [rec 1; rec 2; rec 5; rec 6])]) /\
  map fst (fetches (emitted (host := origin_indexed) (handleChunkedResponse indexed_response)
                      (fresh origin_indexed 0 defaults)))
  = [VStr (s3 ++ "results_0.json"); VStr (s3 ++ "results_1.json");
     VStr (s3 ++ "results_2.json")] /\
  warnings (emitted (host := origin_indexed) (handleChunkedResponse indexed_response)
              (fresh origin_indexed 0 defaults))
  = [ChunkStatusFailed 1 404].
Proof. vm_compute. repeat split; reflexivity. Qed.

(** ** Order of concatenation *)

(** C4, as stated, fails at a legacy chunk_info that lists two files, the
    second an object without a text: the first file is fetched and yields
    its records, the URL of the second cannot be built, and the resolution
    ends with the TypeError of the conversion. No fetch has failed, and yet
    the second file is not fetched and no [data] array is returned. The
    same happens before the first fetch when the base URL is such an
    object, and before the walk when the chunk count shown on the console
    is. *)
Lemma textless_name_aborts_walk :
  named_list_source textless_name_response =
    Some (textless_name_response, top_chunk_info textless_name_response) /\
  field (top_chunk_info textless_name_response) "chunk_file_names" =
    VArr [VStr "a.json"; no_text] /\
  map fst (fetches (emitted (host := origin_abc) (handleChunkedResponse textless_name_response)
                      (fresh origin_abc 0 defaults)))
  = [VStr (s3 ++ "a.json")] /\
  forallb chunk_good
    (map snd (fetches (emitted (host := origin_abc)
                         (handleChunkedResponse textless_name_response)
                         (fresh origin_abc 0 defaults))))
  = true /\
  outcome (host := origin_abc) (handleChunkedResponse textless_name_response)
    (fresh origin_abc 0 defaults)
  = Throw (TypeError "Cannot convert object to primitive value") /\
  named_list_source textless_listed_base_response =
    Some (textless_listed_base_response, top_chunk_info textless_listed_base_response) /\
  fetches (emitted (host := origin_abc) (handleChunkedResponse textless_listed_base_response)
             (fresh origin_abc 0 defaults)) = [] /\
  outcome (host := origin_abc) (handleChunkedResponse textless_listed_base_response)
    (fresh origin_abc 0 defaults)
  = Throw (TypeError "Cannot convert object to primitive value") /\
  named_list_source textless_count_response =
    Some (field textless_count_response "data",
          nested_chunk_info textless_count_response) /\
  fetches (emitted (host := origin_abc) (handleChunkedResponse textless_count_response)
             (fresh origin_abc 0 defaults)) = [] /\
  outcome (host := origin_abc) (handleChunkedResponse textless_count_response)
    (fresh origin_abc 0 defaults)
  = Throw (TypeError "Cannot convert object to primitive value") /\
  (forall v,
     outcome (host := origin_abc) (handleChunkedResponse textless_name_response)
       (fresh origin_abc 0 defaults)
     <> Ok v) /\
  List.length (fetches (emitted (host := origin_abc)
                          (handleChunkedResponse textless_name_response)
                          (fresh origin_abc 0 defaults)))
  <> List.length [VStr "a.json"; no_text].
Proof.
  vm_compute. repeat split; try reflexivity.
  - intros v H. discriminate H.
  - discriminate.
Qed.

(** C4 (amended): for a non-empty chunk_file_names list the resolver walks
    (in the nested strategy past its empty-set test, and in the named-list
    branch of the legacy strategy) whose entries have a text, as have the
    base_download_url and the chunk count shown on the console, the chunk
    files are fetched in list order from base_download_url followed by the
    file name; the resolution returns a value exactly when every fetch made
    yields records, and then all the files were fetched and the value is the
    holder of the list (the response, or its [data] object for the nested
    strategy) with [data] set to the records of the chunks in fetch order,
    each chunk's records as parsed, every other property, chunk_info
    included, as it was. The records of a chunk whose body is an array are
    the items of the array. *)
Theorem named_chunks_concatenated_in_order {host : Host} (r holder info : value)
  (files : list value) (w : World) :
  named_list_source r = Some (holder, info) ->
  field info "chunk_file_names" = VArr files ->
  files <> [] ->
  renders (announced_chunks r) = true ->
  renders (field info "base_download_url") = true ->
  forallb renders files = true ->
  map fst (fetches (emitted (handleChunkedResponse r) w)) =
    firstn (List.length (fetches (emitted (handleChunkedResponse r) w)))
      (map (chunk_url (field info "base_download_url")) files) /\
  (forallb chunk_good (map snd (fetches (emitted (handleChunkedResponse r) w))) = true
   <-> exists v, outcome (handleChunkedResponse r) w = Ok v) /\
  (forallb chunk_good (map snd (fetches (emitted (handleChunkedResponse r) w))) = true ->
   map fst (fetches (emitted (handleChunkedResponse r) w)) =
     map (chunk_url (field info "base_download_url")) files /\
   exists fields,
     holder = VObj fields /\
     lookup "chunk_info" fields = Some info /\
     outcome (handleChunkedResponse r) w =
       Ok (VObj (assign "data"
                   (VArr (flat_map records
                            (map snd (fetches (emitted (handleChunkedResponse r) w)))))
                   fields))) /\
  (forall res items,
     res_ok res = true -> res_json res = Ok (VArr items) -> records (Ok res) = items).
Proof.
  intros Hsrc Hnames Hne Hcount Hbase Hfiles.
  destruct (handleChunkedResponse r w) as [out w'] eqn:E.
  rewrite (outcome_run _ _ _ _ E).
  assert (Hsum :
    exists fields mk,
      holder = VObj fields /\ lookup "chunk_info" fields = Some info /\
      (forall chunks, mk chunks = VObj (assign "data" (VArr chunks) fields)) /\
      map fst (fetches (emitted (handleChunkedResponse r) w)) =
        firstn (List.length (fetches (emitted (handleChunkedResponse r) w)))
          (map (chunk_url (field info "base_download_url")) files) /\
      ((forallb chunk_good (map snd (fetches (emitted (handleChunkedResponse r) w))) = true /\
        List.length (fetches (emitted (handleChunkedResponse r) w)) = List.length files /\
        out = Ok (mk (flat_map records (map snd (fetches (emitted (handleChunkedResponse r) w))))))
       \/
       (exists fs u o e,
          fetches (emitted (handleChunkedResponse r) w) = (fs ++ [(u, o)])%list /\
          forallb chunk_good (map snd fs) = true /\
          chunk_outcome o = Throw e /\
          out = Throw e))).
  { assert (Hthree : forall (m : M value) base line0 mk line1,
      renders base && forallb renders files = true ->
      m w = (out, w') ->
      (exists out1 w1,
         fetch_named_chunks base files [] (logged w line0) = (out1, w1) /\
         match out1 with
         | Ok chunks => out = Ok (mk chunks) /\ w' = logged w1 (line1 chunks)
         | Throw e => out = Throw e /\ w' = w1
         end) ->
      map fst (fetches (emitted m w)) =
        firstn (List.length (fetches (emitted m w))) (map (chunk_url base) files) /\
      ((forallb chunk_good (map snd (fetches (emitted m w))) = true /\
        List.length (fetches (emitted m w)) = List.length files /\
        out = Ok (mk (flat_map records (map snd (fetches (emitted m w))))))
       \/
       (exists fs u o e,
          fetches (emitted m w) = (fs ++ [(u, o)])%list /\
          forallb chunk_good (map snd fs) = true /\
          chunk_outcome o = Throw e /\
          out = Throw e))).
    { intros m base line0 mk line1 Hr Hm Hrun.
      destruct (named_summary m base files line0 mk line1 w w' out Hm Hrun)
        as [Hurls [Hgood | [Hbad | (_ & Hno & _)]]].
      - split; [assumption | left; assumption].
      - split; [assumption | right; assumption].
      - congruence. }
    unfold announced_chunks in Hcount.
    unfold named_list_source in Hsrc.
    destruct (direct_link r) eqn:Hd; [discriminate|].
    destruct (truthy (nested_chunk_info r)) eqn:Hnest.
    - destruct (strict_eq_num (field (nested_chunk_info r) "num_chunks") 0
                || strict_eq_num (field (nested_chunk_info r) "rows") 0) eqn:Hz;
        [discriminate|].
      injection Hsrc as <- <-.
      assert (Hobj : exists fields, field r "data" = VObj fields).
      { apply chunk_info_object. unfold nested_chunk_info in Hnest.
        destruct (truthy (field r "data")) eqn:Hdata; [assumption|congruence]. }
      destruct Hobj as (fields & Hobj).
      assert (Hinfo : nested_chunk_info r = field (VObj fields) "chunk_info").
      { unfold nested_chunk_info. rewrite Hobj. reflexivity. }
      exists fields,
        (fun chunks => VObj (assign "chunk_info" (nested_chunk_info r)
                               (assign "data" (VArr chunks) (spread (field r "data"))))).
      split; [assumption|].
      assert (Hl : lookup "chunk_info" fields = Some (nested_chunk_info r)).
      { rewrite Hinfo. apply truthy_lookup. rewrite <- Hinfo. assumption. }
      split; [assumption|].
      split.
      { intros chunks. rewrite Hobj. cbn [spread].
        rewrite spread_data_chunk_info by assumption. reflexivity. }
      pose proof (handle_nested_named r files w w' out Hd Hnest Hz Hcount Hnames Hne E)
        as Hrun.
      assert (Hr : renders (field (nested_chunk_info r) "base_download_url")
                   && forallb renders files = true).
      { rewrite Hbase, Hfiles. reflexivity. }
      exact (Hthree _ _ _ _
               (fun chunks => CombinedNested (list_length chunks)
                                (text (field (nested_chunk_info r) "num_chunks")))
               Hr E Hrun).
    - destruct (truthy (top_chunk_info r)) eqn:Hc; [|discriminate].
      destruct (single_chunk (top_chunk_info r)) eqn:Hsingle; [discriminate|].
      injection Hsrc as <- <-.
      destruct (chunk_info_object r Hc) as (fields & ->).
      exists fields,
        (fun chunks => VObj (assign "chunk_info" (top_chunk_info (VObj fields))
                               (assign "data" (VArr chunks) (spread (VObj fields))))).
      split; [reflexivity|].
      assert (Hl : lookup "chunk_info" fields = Some (top_chunk_info (VObj fields))).
      { apply truthy_lookup. assumption. }
      split; [assumption|].
      split.
      { intros chunks. cbn [spread].
        rewrite spread_data_chunk_info by assumption. reflexivity. }
      pose proof (handle_legacy_named _ files w w' out Hc Hnest Hsingle Hcount Hnames Hne E)
        as Hrun.
      assert (Hr : renders (field (top_chunk_info (VObj fields)) "base_download_url")
                   && forallb renders files = true).
      { rewrite Hbase, Hfiles. reflexivity. }
      exact (Hthree _ _ _ _
               (fun chunks => Combined (list_length chunks)
                                (text (field (top_chunk_info (VObj fields)) "total_chunks")))
               Hr E Hrun). }
  destruct Hsum as (fields & mk & Hholder & Hl & Hmk & Hurls & Hcases).
  split; [assumption|].
  split; [|split].
  - destruct Hcases as [(Hall & _ & ->) | (fs & u & o & e & Hfs & Hall & Ho & ->)].
    + split; [intros _; eexists; reflexivity | intros _; assumption].
    + split.
      * intros Hgood. rewrite Hfs, map_app in Hgood. cbn [map snd] in Hgood.
        rewrite forallb_snoc_false in Hgood; [discriminate|].
        unfold chunk_good. rewrite Ho. reflexivity.
      * intros [v Hv]. discriminate.
  - intros Hgood.
    destruct Hcases as [(_ & Hlen & ->) | (fs & u & o & e & Hfs & Hall & Ho & ->)].
    + split.
      * rewrite Hurls, Hlen. rewrite <- (length_map (chunk_url (field info "base_download_url"))).
        apply firstn_all.
      * exists fields. rewrite Hmk. repeat split; assumption.
    + rewrite Hfs, map_app in Hgood. cbn [map snd] in Hgood.
      rewrite forallb_snoc_false in Hgood; [discriminate|].
      unfold chunk_good. rewrite Ho. reflexivity.
  - apply records_array.
Qed.

Lemma named_chunks_concatenated_in_order_witness :
  map fst (fetches (emitted (host := origin_abc) (handleChunkedResponse named_response)
                      (fresh origin_abc 0 defaults)))
  = map (chunk_url (VStr s3)) [VStr "a.json"; VStr "b.json"; VStr "c.json"] /\
  exists fields,
    named_response = VObj fields /\
    lookup "chunk_info" fields = Some (top_chunk_info named_response) /\
    outcome (host := origin_abc) (handleChunkedResponse named_response)
      (fresh origin_abc 0 defaults)
    = Ok (VObj (assign "data"
                  (VArr (flat_map records
                           (map snd (fetches (emitted (host := origin_abc)
                                                (handleChunkedResponse named_response)
                                                (fresh origin_abc 0 defaults))))))
                  fields)).
Proof.
  refine (proj1 (proj2 (proj2
            (named_chunks_concatenated_in_order (host := origin_abc)
               named_response named_response (top_chunk_info named_response)
               [VStr "a.json"; VStr "b.json"; VStr "c.json"]
               (fresh origin_abc 0 defaults) eq_refl eq_refl _ eq_refl eq_refl eq_refl))) _).
  - discriminate.
  - vm_compute. reflexivity.
Defined.

Example three_named_files :
  outcome (host := origin_abc) (handleChunkedResponse named_response)
    (fresh origin_abc 0 defaults)
  = Ok (VObj [("success", VBool true);
              ("data", VArr [rec 1; rec 2; rec 3; rec 2; rec 0]);
              ("chunk_info", top_chunk_info named_response)]).
Proof. vm_compute. reflexivity. Qed.

Example single_chunk_file :
  let r := VObj [("success", VBool true); ("data", VArr []);
                 ("chunk_info",
                  VObj [("base_download_url", VStr s3);
                        ("chunk_file_name", VStr "a.json");
                        ("total_chunks", VNum 1);
                        ("chunk_size", VNum 1000);
                        ("rows", VNum 2)])] in
  outcome (host := origin_abc) (handleChunkedResponse r) (fresh origin_abc 0 defaults)
  = Ok (VObj [("success", VBool true); ("data", VArr [rec 1; rec 2]);
              ("chunk_info", top_chunk_info r)]) /\
  map fst (fetches (emitted (host := origin_abc) (handleChunkedResponse r)
                      (fresh origin_abc 0 defaults)))
  = [VStr (s3 ++ "a.json")].
Proof. vm_compute. split; reflexivity. Qed.

(** ** Pass-through *)

(** C5, as stated, fails at the payload [null]: it carries neither a link
    nor a chunk_info, top-level or nested, and yet the resolver raises a
    TypeError on it instead of returning it, as does [requestWithChunking]
    when the origin answers [null] and chunk handling is on. *)
Lemma null_payload_not_passed_through :
  truthy (field VNull "link") = false /\
  truthy (top_chunk_info VNull) = false /\
  truthy (nested_chunk_info VNull) = false /\
  outcome (host := no_origin) (handleChunkedResponse VNull) (fresh no_origin 0 defaults)
    = Throw (TypeError "Cannot read properties of null (reading 'link')") /\
  outcome (host := origin_null) (request cars no_options None)
    (fresh origin_null 0 defaults) = Ok VNull /\
  outcome (host := origin_null) (requestWithChunking cars no_options None None)
    (fresh origin_null 0 defaults)
    = Throw (TypeError "Cannot read properties of null (reading 'chunk_info')") /\
  outcome (host := no_origin) (handleChunkedResponse VNull) (fresh no_origin 0 defaults)
    <> Ok VNull.
Proof. vm_compute. repeat split; try reflexivity. discriminate. Qed.

(** A resolved CSV payload is a string, and a string inherits a [link]
    method: resolving it again calls the transport. *)
Example csv_text_is_not_a_fixed_point :
  truthy (field (VStr "cust_id,wins") "link") = true /\
  map fst (fetches (emitted (host := origin_csv) (handleChunkedResponse (VStr "cust_id,wins"))
                      (fresh origin_csv 0 defaults)))
  = [VNative "link"].
Proof. vm_compute. split; reflexivity. Qed.

(** C5 (amended): for every response other than [null] (and [undefined],
    which is not a decoded body) whose [link] read, top-level [chunk_info]
    read and nested [data.chunk_info] read are all falsy, the resolver
    returns the response itself and leaves the state as it was (no event, no
    transport call), so that resolving the result again is again a no-op;
    and when [request] returns such a response, [requestWithChunking]
    returns it as it is, whatever the chunk-handling setting. A bare string
    does not meet the condition: its [link] read yields the inherited
    method, which is truthy. *)
Theorem plain_payload_passed_through {host : Host} (r : value) (w : World) :
  r <> VNull ->
  r <> VUndef ->
  truthy (field r "link") = false ->
  truthy (top_chunk_info r) = false ->
  truthy (nested_chunk_info r) = false ->
  handleChunkedResponse r w = (Ok r, w) /\
  (forall w1, bind (handleChunkedResponse r) handleChunkedResponse w1 = (Ok r, w1)) /\
  (forall path options query handleChunks w0,
     request path options query w0 = (Ok r, w) ->
     requestWithChunking path options query handleChunks w0 = (Ok r, w)).
Proof.
  intros Hn Hu Hl Hc Hnest.
  split; [apply handle_plain; assumption|].
  split.
  - intros w1. unfold bind. rewrite handle_plain by assumption.
    apply handle_plain; assumption.
  - intros path options query handleChunks w0 Hreq.
    unfold requestWithChunking. unfold bind at 1. rewrite Hreq.
    unfold bind at 1, get_this at 1.
    destruct (match handleChunks with
              | Some b => b
              | None => autoHandleChunkedResponses (this w)
              end); [|reflexivity].
    rewrite !(prop_field r _ Hu Hn). mstep.
    unfold top_chunk_info in Hc. rewrite Hc, Hl. reflexivity.
Qed.

Lemma plain_payload_passed_through_witness :
  handleChunkedResponse (host := no_origin) plain_response (fresh no_origin 0 defaults)
  = (Ok plain_response, fresh no_origin 0 defaults).
Proof.
  refine (proj1 (plain_payload_passed_through (host := no_origin) plain_response
                   (fresh no_origin 0 defaults) _ _ eq_refl eq_refl eq_refl)).
  - discriminate.
  - discriminate.
Defined.

(** ** Empty data sets *)

(** C6, as stated, fails at a response that carries a link, no top-level
    chunk_info, and under [data] a chunk_info with no chunks and no rows:
    the direct-link strategy comes first, so the resolver calls the
    transport for the link and returns what the link gives, not [data]. It
    fails, too, at a nested chunk_info with no chunks whose row count is an
    object without a text: the console line of the short-circuit shows the
    row count, the conversion raises, and the resolution ends with that
    TypeError instead of returning [data]. *)
Lemma empty_nested_not_always_returned :
  truthy (nested_chunk_info linked_empty_response) = true /\
  field (nested_chunk_info linked_empty_response) "num_chunks" = VNum 0 /\
  field (nested_chunk_info linked_empty_response) "rows" = VNum 0 /\
  map fst (fetches (emitted (host := origin_csv) (handleChunkedResponse linked_empty_response)
                      (fresh origin_csv 0 defaults)))
  = [VStr (s3 ++ "stats.csv")] /\
  outcome (host := origin_csv) (handleChunkedResponse linked_empty_response)
    (fresh origin_csv 0 defaults)
  = Ok (VStr "cust_id,wins") /\
  direct_link textless_rows_response = false /\
  truthy (nested_chunk_info textless_rows_response) = true /\
  field (nested_chunk_info textless_rows_response) "num_chunks" = VNum 0 /\
  outcome (host := no_origin) (handleChunkedResponse textless_rows_response)
    (fresh no_origin 0 defaults)
  = Throw (TypeError "Cannot convert object to primitive value") /\
  outcome (host := origin_csv) (handleChunkedResponse linked_empty_response)
    (fresh origin_csv 0 defaults)
  <> Ok (field linked_empty_response "data") /\
  outcome (host := no_origin) (handleChunkedResponse textless_rows_response)
    (fresh no_origin 0 defaults)
  <> Ok (field textless_rows_response "data").
Proof. vm_compute. repeat split; try reflexivity; discriminate. Qed.

(** C6 (amended): for every response that is not a direct-link response
    (the first strategy comes first) and whose [data] carries a chunk_info
    with [num_chunks === 0] or [rows === 0] and a row count that has a text,
    the resolver returns [data] as it is, without a transport call or a
    delay: the environment is unchanged. *)
Theorem empty_nested_chunk_info_short_circuits {host : Host} (r : value) (w : World) :
  direct_link r = false ->
  truthy (nested_chunk_info r) = true ->
  strict_eq_num (field (nested_chunk_info r) "num_chunks") 0
  || strict_eq_num (field (nested_chunk_info r) "rows") 0 = true ->
  renders (field (nested_chunk_info r) "rows") = true ->
  outcome (handleChunkedResponse r) w = Ok (field r "data") /\
  fetches (emitted (handleChunkedResponse r) w) = [] /\
  delays (emitted (handleChunkedResponse r) w) = [] /\
  env (after (handleChunkedResponse r) w) = env w.
Proof.
  intros Hd Hnest Hz Hrows.
  pose proof (handle_nested_empty r w Hd Hnest Hz) as E.
  rewrite (ToString_text _ Hrows) in E.
  rewrite (outcome_run _ _ _ _ E), (after_run _ _ _ _ E).
  rewrite (emitted_run _ _ _ _
             [EvLog (NoChunksNeeded (text (field (nested_chunk_info r) "rows")))] E)
    by reflexivity.
  repeat split; reflexivity.
Qed.

Lemma empty_nested_chunk_info_short_circuits_witness :
  outcome (host := no_origin) (handleChunkedResponse empty_nested_response)
    (fresh no_origin 0 defaults)
  = Ok (field empty_nested_response "data").
Proof.
  exact (proj1 (empty_nested_chunk_info_short_circuits (host := no_origin)
                  empty_nested_response (fresh no_origin 0 defaults)
                  eq_refl eq_refl eq_refl eq_refl)).
Defined.

(** The short-circuit makes no transport call and sets no timer even where
    its console line raises. *)
Example textless_rows_quiet :
  fetches (emitted (host := no_origin) (handleChunkedResponse textless_rows_response)
             (fresh no_origin 0 defaults)) = [] /\
  delays (emitted (host := no_origin) (handleChunkedResponse textless_rows_response)
            (fresh no_origin 0 defaults)) = [].
Proof. vm_compute. split; reflexivity. Qed.

(** ** Rate limiting *)





Example quota_left_no_wait :
  let h := test_host
    [("https://members-ng.iracing.com" ++ cars,
      with_headers [("x-ratelimit-remaining", "10"); ("x-ratelimit-reset", "1005")]
        (json_response plain_response))] NodeCrypto in
  delays (emitted (host := h) (request cars no_options None) (fresh h 1000000 defaults)) = [].
Proof. vm_compute. reflexivity. Qed.

(** ** Credentials *)






(** The sign-in of the test origin, in full: the body posted for
    [User@Example.com], and the body posted for the same address in lower
    case. *)
Example sign_in_posts_lower_case :
  map (fun e => match e with
                | EvFetch _ (Some init) _ => body init
                | _ => None
                end)
      (emitted (host := origin_auth) (authenticate user) (fresh origin_auth 0 defaults))
  = [Some (BodyStringify (VObj [("email", VStr "user@example.com");
                                ("password", VStr "8mHBfw==")]));
     None] /\
  emitted (host := origin_auth) (authenticate user) (fresh origin_auth 0 defaults)
  = emitted (host := origin_auth)
      (authenticate {| email := "user@example.com"; password := "secret" |})
      (fresh origin_auth 0 defaults).
Proof. vm_compute. split; reflexivity. Qed.

(** ** Direct links *)

(** C9, as stated, fails at a response whose link is an object without a
    text and that carries no chunk_info: the console line that shows the
    link comes before the call, the conversion of the link raises, and the
    resolution ends with that TypeError without having called the
    transport. *)
Lemma textless_link_not_fetched :
  truthy (field textless_link_response "link") = true /\
  truthy (top_chunk_info textless_link_response) = false /\
  outcome (host := origin_csv) (handleChunkedResponse textless_link_response)
    (fresh origin_csv 0 defaults)
  = Throw (TypeError "Cannot convert object to primitive value") /\
  fetches (emitted (host := origin_csv) (handleChunkedResponse textless_link_response)
             (fresh origin_csv 0 defaults))
  = [] /\
  fetches (emitted (host := origin_csv) (handleChunkedResponse textless_link_response)
             (fresh origin_csv 0 defaults))
  <> [(field textless_link_response "link",
       fst (fetchImpl (Host := origin_csv) (field textless_link_response "link") None
              (env (fresh origin_csv 0 defaults))))].
Proof. vm_compute. repeat split; try reflexivity. discriminate. Qed.

(** C9 (amended): for every response with a link that has a text and no
    top-level chunk_info, the resolver makes exactly one transport call, to
    the link; a rejection of the transport propagates; a non-success status
    throws [Failed to fetch linked data: <status>]; otherwise, when the
    content-type of the fetched response contains [text/csv] the result is
    the text of the body, as a string, and when it does not the result is
    the decoded JSON body itself. *)
Theorem direct_link_resolution {host : Host} (r : value) (w : World) :
  truthy (field r "link") = true ->
  truthy (top_chunk_info r) = false ->
  renders (field r "link") = true ->
  fetches (emitted (handleChunkedResponse r) w) =
    [(field r "link", fst (fetchImpl (field r "link") None (env w)))] /\
  outcome (handleChunkedResponse r) w =
    match fst (fetchImpl (field r "link") None (env w)) with
    | Throw e => Throw e
    | Ok res =>
        if negb (res_ok res)
        then Throw (Error ("Failed to fetch linked data: " ++
                             NumberToString (res_status res)))
        else if is_csv res
        then match res_text res with Ok s => Ok (VStr s) | Throw e => Throw e end
        else res_json res
    end.
Proof.
  intros Hl Hc Hr.
  assert (Hd : direct_link r = true).
  { unfold direct_link. rewrite Hl, Hc. reflexivity. }
  pose proof (handle_direct_link r w Hd) as E.
  rewrite (ToString_text _ Hr) in E.
  set (shown := text (field r "link")) in *.
  destruct (fetchImpl (field r "link") None (env w)) as [[res|e] env1]; cbn [fst].
  - destruct (res_ok res); cbn [negb] in *.
    + destruct (is_csv res).
      * rewrite (outcome_run _ _ _ _ E).
        rewrite (emitted_run _ _ _ _
                   [EvLog (DirectLink shown);
                    EvFetch (field r "link") None (Ok res);
                    EvLog CsvResponse] E) by reflexivity.
        split; reflexivity.
      * destruct (res_json res) as [v|e].
        -- rewrite (outcome_run _ _ _ _ E).
           rewrite (emitted_run _ _ _ _
                      [EvLog (DirectLink shown);
                       EvFetch (field r "link") None (Ok res);
                       EvLog LinkedDataFetched] E) by reflexivity.
           split; reflexivity.
        -- rewrite (outcome_run _ _ _ _ E).
           rewrite (emitted_run _ _ _ _
                      [EvLog (DirectLink shown);
                       EvFetch (field r "link") None (Ok res)] E) by reflexivity.
           split; reflexivity.
    + rewrite (outcome_run _ _ _ _ E).
      rewrite (emitted_run _ _ _ _
                 [EvLog (DirectLink shown);
                  EvFetch (field r "link") None (Ok res)] E) by reflexivity.
      split; reflexivity.
  - rewrite (outcome_run _ _ _ _ E).
    rewrite (emitted_run _ _ _ _
               [EvLog (DirectLink shown);
                EvFetch (field r "link") None (Throw e)] E) by reflexivity.
    split; reflexivity.
Qed.

Lemma direct_link_resolution_witness :
  outcome (host := origin_csv) (handleChunkedResponse link_response)
    (fresh origin_csv 0 defaults)
  = Ok (VStr "cust_id,wins") /\
  outcome (host := origin_member) (handleChunkedResponse json_link_response)
    (fresh origin_member 0 defaults)
  = Ok member_info /\
  outcome (host := origin_member_down) (handleChunkedResponse json_link_response)
    (fresh origin_member_down 0 defaults)
  = Throw (Error "Failed to fetch linked data: 403").
Proof.
  split; [|split].
  - exact (proj2 (direct_link_resolution (host := origin_csv) link_response
                    (fresh origin_csv 0 defaults) eq_refl eq_refl eq_refl)).
  - exact (proj2 (direct_link_resolution (host := origin_member) json_link_response
                    (fresh origin_member 0 defaults) eq_refl eq_refl eq_refl)).
  - exact (proj2 (direct_link_resolution (host := origin_member_down) json_link_response
                    (fresh origin_member_down 0 defaults) eq_refl eq_refl eq_refl)).
Defined.

(** The three cases in full: one call each, to the link. *)
Example linked_documents :
  map fst (fetches (emitted (host := origin_csv) (handleChunkedResponse link_response)
                      (fresh origin_csv 0 defaults)))
  = [VStr (s3 ++ "stats.csv")] /\
  map fst (fetches (emitted (host := origin_member) (handleChunkedResponse json_link_response)
                      (fresh origin_member 0 defaults)))
  = [VStr (s3 ++ "member.json")] /\
  outcome (host := origin_member) (handleChunkedResponse json_link_response)
    (fresh origin_member 0 defaults)
  = Ok (VObj [("cust_id", VNum 7); ("display_name", VStr "A Driver")]) /\
  outcome (host := no_origin) (handleChunkedResponse json_link_response)
    (fresh no_origin 0 defaults)
  = Throw (Rejected "network error").
Proof. vm_compute. repeat split; reflexivity. Qed.

(** ** Missing base name *)

(** C10: in the legacy strategy (top-level chunk_info, no nested chunk_info
    under [data]) with [total_chunks >= 1], no non-empty chunk_file_names
    and no chunk_file_name ([undefined] or [null]), the resolution throws a
    TypeError, raised by the extension stripping before the first fetch: no
    chunk is fetched and no warning is printed, so nothing is skipped. *)
Theorem fallback_requires_chunk_file_name {host : Host} (r : value) (n : Z)
  (w : World) :
  truthy (top_chunk_info r) = true ->
  truthy (nested_chunk_info r) = false ->
  field (top_chunk_info r) "chunk_file_name" = VUndef \/
  field (top_chunk_info r) "chunk_file_name" = VNull ->
  field (top_chunk_info r) "total_chunks" = VNum n ->
  1 <= n ->
  has_file_names (field (top_chunk_info r) "chunk_file_names") = Ok false ->
  (exists msg, outcome (handleChunkedResponse r) w = Throw (TypeError msg)) /\
  fetches (emitted (handleChunkedResponse r) w) = [] /\
  warnings (emitted (handleChunkedResponse r) w) = [].
Proof.
  intros Hc Hnest Hname Htotal Hn Hnames.
  assert (Hsingle : single_chunk (top_chunk_info r) = false).
  { unfold single_chunk. destruct Hname as [-> | ->]; reflexivity. }
  destruct (handleChunkedResponse r w) as [out w'] eqn:E.
  rewrite (outcome_run _ _ _ _ E).
  assert (Hcount : renders (field (top_chunk_info r) "total_chunks") = true).
  { rewrite Htotal. reflexivity. }
  destruct (handle_legacy_indexed r w w' out Hc Hnest Hsingle Hcount Hnames E)
    as (todo0 & out1 & w1 & Htodo & Hloop & Hout).
  rewrite Htotal in Htodo. cbn in Htodo. injection Htodo as <-.
  destruct (Z.to_nat n) as [|todo] eqn:En; [lia|].
  destruct (fetch_indexed_chunks_no_name (top_chunk_info r) todo 0 []
              (logged w (ProcessingChunked
                           (text (field (top_chunk_info r) "total_chunks"))))
              Hc Hname) as (msg & Hthrow).
  rewrite Hthrow in Hloop. injection Hloop as <- <-.
  destruct Hout as [-> ->].
  rewrite (emitted_run _ _ _ _
             [EvLog (ProcessingChunked (text (field (top_chunk_info r) "total_chunks")))] E)
    by reflexivity.
  split; [exists msg; reflexivity|]. split; reflexivity.
Qed.

Lemma fallback_requires_chunk_file_name_witness :
  fetches (emitted (host := no_origin) (handleChunkedResponse nameless_response)
             (fresh no_origin 0 defaults)) = [].
Proof.
  refine (proj1 (proj2 (fallback_requires_chunk_file_name (host := no_origin)
                          nameless_response 2 (fresh no_origin 0 defaults)
                          eq_refl eq_refl (or_introl eq_refl) eq_refl _ eq_refl))).
  vm_compute. discriminate.
Defined.

(** * Further properties *)

(** ** Confinement

    A computation confined to a kind of event leaves the client object
    alone and adds only events of that kind; the property goes through
    sequencing, so it is read off the text of a method. *)

Section Confinement.

Context {host : Host}.

Lemma confined_ret {A : Type} (kind : event -> bool) (a : A) : confined kind (ret a).
Proof. intros w. exists []. rewrite app_nil_r. repeat split. Qed.

Lemma confined_throw {A : Type} (kind : event -> bool) (e : exn) :
  confined kind (throw (A := A) e).
Proof. intros w. exists []. rewrite app_nil_r. repeat split. Qed.

Lemma confined_lift {A : Type} (kind : event -> bool) (r : result A) :
  confined kind (lift r).
Proof. intros w. exists []. rewrite app_nil_r. repeat split. Qed.

Lemma confined_now (kind : event -> bool) : confined kind now.
Proof. intros w. exists []. rewrite app_nil_r. repeat split. Qed.

Lemma confined_get_this (kind : event -> bool) : confined kind get_this.
Proof. intros w. exists []. rewrite app_nil_r. repeat split. Qed.

Lemma confined_emit (kind : event -> bool) (e : event) :
  kind e = true -> confined kind (emit e).
Proof.
  intros He w. exists [e]. cbn [after snd emit trace this forallb].
  rewrite He. repeat split.
Qed.

Lemma confined_log (kind : event -> bool) (line : console) :
  kind (EvLog line) = true -> confined kind (console_log line).
Proof. apply confined_emit. Qed.

Lemma confined_warn (kind : event -> bool) (line : console) :
  kind (EvWarn line) = true -> confined kind (console_warn line).
Proof. apply confined_emit. Qed.

Lemma confined_fetch (kind : event -> bool) (url : value) (init : option RequestInit) :
  (forall out, kind (EvFetch url init out) = true) -> confined kind (fetch url init).
Proof.
  intros He w. unfold after, fetch.
  destruct (fetchImpl url init (env w)) as [out env1].
  exists [EvFetch url init out]. cbn [snd trace this forallb].
  rewrite He. repeat split.
Qed.

Lemma confined_sleep (kind : event -> bool) (ms : Z) :
  kind (EvDelay ms) = true -> confined kind (sleep ms).
Proof.
  intros He w. exists [EvDelay ms]. cbn [after snd sleep trace this forallb].
  rewrite He. repeat split.
Qed.

Lemma confined_bind {A B : Type} (kind : event -> bool) (m : M A) (k : A -> M B) :
  confined kind m -> (forall a, confined kind (k a)) -> confined kind (bind m k).
Proof.
  intros Hm Hk w. destruct (Hm w) as (t1 & Ht1 & Hthis1 & Hk1).
  unfold after, bind in *. destruct (m w) as [[a|e] w1]; cbn [snd] in *.
  - destruct (Hk a w1) as (t2 & Ht2 & Hthis2 & Hk2). unfold after in *.
    exists (t1 ++ t2)%list. rewrite Ht2, Ht1, Hthis2, Hthis1, forallb_app, Hk1, Hk2.
    rewrite app_assoc. repeat split.
  - exists t1. repeat split; assumption.
Qed.

Lemma confined_try_catch {A : Type} (kind : event -> bool) (m : M A)
  (handler : exn -> M A) :
  confined kind m -> (forall e, confined kind (handler e)) ->
  confined kind (try_catch m handler).
Proof.
  intros Hm Hh w. destruct (Hm w) as (t1 & Ht1 & Hthis1 & Hk1).
  unfold after, try_catch in *. destruct (m w) as [[a|e] w1]; cbn [snd] in *.
  - exists t1. repeat split; assumption.
  - destruct (Hh e w1) as (t2 & Ht2 & Hthis2 & Hk2). unfold after in *.
    exists (t1 ++ t2)%list. rewrite Ht2, Ht1, Hthis2, Hthis1, forallb_app, Hk1, Hk2.
    rewrite app_assoc. repeat split.
Qed.

Lemma confined_when (kind : event -> bool) (b : bool) (m : M unit) :
  confined kind m -> confined kind (when b m).
Proof. intros Hm. destruct b; [exact Hm | apply confined_ret]. Qed.

Lemma confined_any {A : Type} (kind : event -> bool) (m : M A) :
  confined kind m -> confined any_event m.
Proof.
  intros Hm w. destruct (Hm w) as (t & Ht & Hthis & _).
  exists t. repeat split; try assumption.
  apply forallb_forall. reflexivity.
Qed.

End Confinement.

Ltac confine_with known :=
  repeat first
    [ known
    | apply confined_ret
    | apply confined_throw
    | apply confined_lift
    | apply confined_now
    | apply confined_get_this
    | apply confined_log; reflexivity
    | apply confined_warn; reflexivity
    | apply confined_sleep; reflexivity
    | apply confined_fetch; intros ?; reflexivity
    | apply confined_when
    | apply confined_try_catch; [| intros ?]
    | apply confined_bind; [| intros ?]
    | match goal with
      | |- confined _ (if ?b then _ else _) => destruct b
      | |- confined _ (match ?x with _ => _ end) => destruct x
      end
    | progress cbv zeta ].

Ltac confine := confine_with fail.

Section Confined.

Context {host : Host}.

(** The two loops and the resolver only download. *)
Lemma confined_fetch_named_chunks (base : value) (names chunks : list value) :
  confined download_event (fetch_named_chunks base names chunks).
Proof.
  revert chunks. induction names as [|f names IH]; intros chunks;
    cbn [fetch_named_chunks]; confine; apply IH.
Qed.

Lemma confined_fetch_indexed_chunks (todo : nat) (i : Z) (ci : value)
  (chunks : list value) :
  confined download_event (fetch_indexed_chunks todo i ci chunks).
Proof.
  revert i chunks. induction todo as [|todo IH]; intros i chunks;
    cbn [fetch_indexed_chunks]; confine; apply IH.
Qed.

Lemma confined_handleChunkedResponse (r : value) :
  confined download_event (handleChunkedResponse r).
Proof.
  unfold handleChunkedResponse. confine;
    first [apply confined_fetch_named_chunks | apply confined_fetch_indexed_chunks].
Qed.

(** [request] and [requestWithChunking] leave the client object alone. *)
Lemma confined_request (path : string) (options : RequestInit)
  (query : option (list (string * value))) :
  confined any_event (request path options query).
Proof. unfold request. confine. Qed.

Lemma confined_requestWithChunking (path : string) (options : RequestInit)
  (query : option (list (string * value))) (handleChunks : option bool) :
  confined any_event (requestWithChunking path options query handleChunks).
Proof.
  unfold requestWithChunking.
  confine_with ltac:(first
    [ apply confined_request
    | apply (confined_any download_event); apply confined_handleChunkedResponse ]).
Qed.

End Confined.

(** ** The executor: one call, status, query string, headers *)

Section Request.

Context {host : Host}.

(** What the transport answers, when the URL can be built. *)
Lemma transport_answer_url (path : string) (options : RequestInit)
  (query : option (list (string * value))) (w : World) (url : string) :
  request_url (this w) path query = Ok url ->
  transport_answer path options query w =
    fetchImpl (VStr url) (Some (request_init options)) (env w).
Proof. intros Hu. unfold transport_answer. rewrite Hu. reflexivity. Qed.

(** The transport answers with a response only when the URL was built. *)
Lemma transport_answer_Ok (path : string) (options : RequestInit)
  (query : option (list (string * value))) (w : World) (res : Response) (env1 : Env) :
  transport_answer path options query w = (Ok res, env1) ->
  exists url,
    request_url (this w) path query = Ok url /\
    fetchImpl (VStr url) (Some (request_init options)) (env w) = (Ok res, env1).
Proof.
  unfold transport_answer.
  destruct (request_url (this w) path query) as [url|e]; [|discriminate].
  intros Hf. exists url. split; [reflexivity | assumption].
Qed.

(** A run of [request] whose transport call is rejected. *)
Lemma request_run_rejected (path : string) (options : RequestInit)
  (query : option (list (string * value))) (w : World) (url : string) (e : exn)
  (env1 : Env) :
  request_url (this w) path query = Ok url ->
  fetchImpl (VStr url) (Some (request_init options)) (env w) = (Throw e, env1) ->
  request path options query w =
    (Throw e,
     {| env := env1;
        trace := trace w ++
                 [EvLog (Requesting url);
                  EvFetch (VStr url) (Some (request_init options)) (Throw e)];
        this := this w |}).
Proof.
  intros Hu Hf.
  unfold request. unfold bind at 1, get_this at 1.
  unfold bind at 1, lift at 1. rewrite Hu.
  fold (request_init options).
  unfold bind at 1, console_log at 1, emit at 1.
  unfold bind at 1, fetch at 1. cbn [env trace this]. rewrite Hf.
  rewrite <- app_assoc. reflexivity.
Qed.

(** Every run of [request] that builds its URL: the console line, the one
    transport call, then events that are not transport calls. *)
Lemma request_events (path : string) (options : RequestInit)
  (query : option (list (string * value))) (w : World) (url : string) :
  request_url (this w) path query = Ok url ->
  exists rest,
    emitted (request path options query) w =
      EvLog (Requesting url)
      :: EvFetch (VStr url) (Some (request_init options))
           (fst (transport_answer path options query w))
      :: rest /\
    fetches rest = [].
Proof.
  intros Hu. rewrite (transport_answer_url path options query w url Hu).
  destruct (fetchImpl (VStr url) (Some (request_init options)) (env w))
    as [[res|e] env1] eqn:Hf; cbn [fst].
  - destruct (reset_renders res) eqn:Hr.
    + destruct (request_run path options query w url res env1 Hu Hf Hr)
        as (t & E & Hft & _).
      exists t. split; [|assumption].
      apply (emitted_run _ _ _ _ _ E). reflexivity.
    + pose proof (request_run_throws path options query w url res env1 Hu Hf Hr) as E.
      exists []. split; [|reflexivity].
      apply (emitted_run _ _ _ _ _ E). reflexivity.
  - pose proof (request_run_rejected path options query w url e env1 Hu Hf) as E.
    exists []. split; [|reflexivity].
    apply (emitted_run _ _ _ _ _ E). reflexivity.
Qed.

Lemma query_params_rendered (q : list (string * value)) : query_params q = rendered q.
Proof.
  unfold rendered. induction q as [|[k v] q IH]; [reflexivity|].
  destruct v; cbn [query_params filter snd is_undefined negb texts];
    try exact IH; rewrite IH;
    match goal with
    | |- context [ToString ?x] => destruct (ToString x)
    end;
    try reflexivity;
    destruct (texts _); reflexivity.
Qed.

Lemma headers_get_app (name : string) (a b : list (string * string)) :
  headers_get name (a ++ b) =
    match headers_get name a with
    | Some v => Some v
    | None => headers_get name b
    end.
Proof.
  induction a as [|[k v] a IH]; cbn [app headers_get]; [reflexivity|].
  destruct (String.eqb name k); [reflexivity | exact IH].
Qed.

(** Reading a merged record: the last value given for the name, or else the
    value the base has. *)
Lemma set_headers_get (name : string) (given base : list (string * string)) :
  headers_get name (set_headers given base) =
    match headers_get name (rev given) with
    | Some v => Some v
    | None => headers_get name base
    end.
Proof.
  revert base. induction given as [|[k v] given IH]; intros base;
    cbn [set_headers rev]; [reflexivity|].
  rewrite IH, headers_get_app. cbn [headers_get].
  destruct (headers_get name (rev given)); [reflexivity|].
  induction base as [|[k' v'] base IHb]; cbn [headers_get].
  - destruct (String.eqb name k); reflexivity.
  - destruct (String.eqb_spec k k') as [->|Hk]; cbn [headers_get].
    + destruct (String.eqb name k'); reflexivity.
    + destruct (String.eqb_spec name k'); [|exact IHb].
      subst. destruct (String.eqb_spec k' k); [congruence | reflexivity].
Qed.

End Request.

(** X1: every run of [request] makes at most one transport call: exactly
    one, to the URL built from the base URL, the path and the query, when
    every value of the query has a text, and none when a value has not,
    the failure of the conversion being the outcome; when the transport
    rejects, [request] fails with the same reason, without a wait and
    without a retry. *)
Theorem request_makes_one_transport_call {host : Host} (path : string)
  (options : RequestInit) (query : option (list (string * value))) (w : World) :
  match request_url (this w) path query with
  | Ok url =>
      fetches (emitted (request path options query) w) =
        [(VStr url, fst (transport_answer path options query w))]
  | Throw e =>
      fetches (emitted (request path options query) w) = [] /\
      request path options query w = (Throw e, w)
  end /\
  (forall e,
     fst (transport_answer path options query w) = Throw e ->
     outcome (request path options query) w = Throw e /\
     delays (emitted (request path options query) w) = [] /\
     env (after (request path options query) w) =
       snd (transport_answer path options query w)).
Proof.
  destruct (request_url (this w) path query) as [url|e0] eqn:Hu.
  - split.
    + destruct (request_events path options query w url Hu) as (rest & -> & Hrest).
      cbn [fetches]. rewrite Hrest. reflexivity.
    + intros e He.
      rewrite (transport_answer_url path options query w url Hu) in *.
      destruct (fetchImpl (VStr url) (Some (request_init options)) (env w))
        as [out env1] eqn:Hf.
      cbn [fst snd] in *. subst out.
      pose proof (request_run_rejected path options query w url e env1 Hu Hf) as E.
      rewrite (outcome_run _ _ _ _ E), (after_run _ _ _ _ E).
      rewrite (emitted_run _ _ _ _ _ E eq_refl). repeat split.
  - pose proof (request_run_unrendered path options query w e0 Hu) as E.
    split.
    + split; [|exact E]. rewrite (emitted_still _ _ _ E). reflexivity.
    + intros e He. unfold transport_answer in *. rewrite Hu in *.
      cbn [fst snd] in *. injection He as <-.
      rewrite (outcome_run _ _ _ _ E), (after_run _ _ _ _ E), (emitted_still _ _ _ E).
      repeat split.
Qed.

(** X2: when the transport answers and the rate-limit line can be printed,
    [request] returns the decoded body of a response with a success status
    and throws [HTTP error! status: N] for any other; the status is looked
    at after the rate-limit step, so the wait for the reset is made for a
    refused request too; the client object is left as it was. *)
Theorem request_checks_status_after_wait {host : Host} (path : string)
  (options : RequestInit) (query : option (list (string * value))) (w : World)
  (res : Response) (env1 : Env) :
  transport_answer path options query w = (Ok res, env1) ->
  reset_renders res = true ->
  outcome (request path options query) w =
    (if res_ok res then res_json res
     else Throw (Error ("HTTP error! status: " ++ NumberToString (res_status res)))) /\
  delays (emitted (request path options query) w) =
    match pre_emptive_wait res (Date_now env1) with
    | Some ms => [ms]
    | None => []
    end /\
  this (after (request path options query) w) = this w.
Proof.
  intros Hf Hr.
  destruct (transport_answer_Ok path options query w res env1 Hf) as (url & Hu & Hf').
  destruct (request_run path options query w url res env1 Hu Hf' Hr)
    as (t & E & Hft & Hdt).
  rewrite (outcome_run _ _ _ _ E), (after_run _ _ _ _ E).
  rewrite (emitted_run _ _ _ _ _ E eq_refl).
  cbn [delays this]. rewrite Hdt.
  destruct (res_ok res); repeat split.
Qed.

Lemma request_checks_status_after_wait_witness :
  outcome (host := origin_throttled) (request cars no_options None)
    (fresh origin_throttled 1000000 defaults)
  = Throw (Error "HTTP error! status: 429") /\
  delays (emitted (host := origin_throttled) (request cars no_options None)
            (fresh origin_throttled 1000000 defaults))
  = [5000].
Proof.
  destruct (request_checks_status_after_wait (host := origin_throttled)
              cars no_options None (fresh origin_throttled 1000000 defaults)
              _ _ eq_refl eq_refl) as (Hout & Hdel & _).
  split; [exact Hout | exact Hdel].
Defined.

(** X3: the URL [request] calls is the base URL followed by the path when
    the query is missing or empty; otherwise a question mark and the encoded
    pairs follow, one pair per entry of the query whose value is not
    [undefined], in the order of the entries, each value as [String] renders
    it ([null] is sent as the text null); and when [String] raises on a
    value, [request] raises with it, before its console line and without a
    call. *)
Theorem request_query_string {host : Host} (path : string) (options : RequestInit)
  (w : World) :
  (forall query,
     query = None \/ query = Some [] ->
     map fst (fetches (emitted (request path options query) w)) =
       [VStr (baseUrl (this w) ++ path)]) /\
  (forall q pairs,
     q <> [] ->
     rendered q = Ok pairs ->
     map fst (fetches (emitted (request path options (Some q)) w)) =
       [VStr ((baseUrl (this w) ++ path) ++ "?" ++ URLSearchParams_toString pairs)]) /\
  (forall q e,
     q <> [] ->
     rendered q = Throw e ->
     request path options (Some q) w = (Throw e, w)) /\
  (forall k, rendered [(k, VNull)] = Ok [(k, "null")]) /\
  (forall k k' s, rendered [(k, VUndef); (k', VStr s)] = Ok [(k', s)]).
Proof.
  split; [|split; [|split; [|split]]].
  - intros query Hq.
    assert (Hu : request_url (this w) path query = Ok (baseUrl (this w) ++ path)).
    { destruct Hq as [-> | ->]; reflexivity. }
    destruct (request_events path options query w _ Hu) as (rest & -> & Hrest).
    cbn [fetches map fst]. rewrite Hrest. reflexivity.
  - intros q pairs Hq Hp.
    assert (Hu : request_url (this w) path (Some q) =
                 Ok ((baseUrl (this w) ++ path) ++ "?" ++ URLSearchParams_toString pairs)).
    { unfold request_url. destruct q as [|kv q]; [congruence|].
      cbn [is_nil negb]. rewrite query_params_rendered, Hp. reflexivity. }
    destruct (request_events path options (Some q) w _ Hu) as (rest & -> & Hrest).
    cbn [fetches map fst]. rewrite Hrest. reflexivity.
  - intros q e Hq Hp. apply request_run_unrendered.
    unfold request_url. destruct q as [|kv q]; [congruence|].
    cbn [is_nil negb]. rewrite query_params_rendered, Hp. reflexivity.
  - intros k. reflexivity.
  - intros k k' s. reflexivity.
Qed.

(** X4: the options [request] hands to the transport carry the caller's
    method and body, credentials [include] whatever the caller asked for,
    and one record of headers in which a name the caller gave has the last
    value given for it, and any other name has its default: [Content-Type]
    and [User-Agent] are sent unless the caller gives a header of exactly
    that name. The call is made whenever the URL can be built; a query value
    without a text ends the run before it. *)
Theorem request_sends_merged_headers {host : Host} (path : string)
  (options : RequestInit) (query : option (list (string * value))) (w : World) :
  match request_url (this w) path query with
  | Ok url =>
      exists answer rest sent,
        emitted (request path options query) w =
          EvLog (Requesting url)
          :: EvFetch (VStr url)
               (Some {| method := method options;
                        headers := Some (HeadersRecord sent);
                        body := body options;
                        credentials := Some "include" |})
               answer
          :: rest /\
        forall name,
          headers_get name sent =
            match headers_get name (rev (given_headers options)) with
            | Some v => Some v
            | None => headers_get name default_headers
            end
  | Throw e => emitted (request path options query) w = []
  end.
Proof.
  destruct (request_url (this w) path query) as [url|e] eqn:Hu.
  - destruct (request_events path options query w url Hu) as (rest & E & _).
    unfold request_init in E.
    eexists _, rest, _. split; [exact E|].
    intros name. unfold given_headers.
    destruct (headers options) as [h|]; [apply set_headers_get | reflexivity].
  - apply (emitted_still _ _ _ (request_run_unrendered path options query w e Hu)).
Qed.

(** X5: when the response carries a reset header that is not a time [Date]
    can render (it does not read as a number, or lies beyond the range of
    time values), [request] throws a RangeError from the rate-limit line,
    whatever the status and the body of the response; it makes no wait. *)
Theorem request_fails_on_unreadable_reset {host : Host} (path : string)
  (options : RequestInit) (query : option (list (string * value))) (w : World)
  (res : Response) (env1 : Env) :
  transport_answer path options query w = (Ok res, env1) ->
  reset_renders res = false ->
  outcome (request path options query) w = Throw (RangeError "Invalid time value") /\
  delays (emitted (request path options query) w) = [] /\
  env (after (request path options query) w) = env1.
Proof.
  intros Hf Hr.
  destruct (transport_answer_Ok path options query w res env1 Hf) as (url & Hu & Hf').
  pose proof (request_run_throws path options query w url res env1 Hu Hf' Hr) as E.
  rewrite (outcome_run _ _ _ _ E), (after_run _ _ _ _ E).
  rewrite (emitted_run _ _ _ _ _ E eq_refl). repeat split.
Qed.

Lemma request_fails_on_unreadable_reset_witness :
  outcome (host := origin_bad_reset) (request cars no_options None)
    (fresh origin_bad_reset 0 defaults)
  = Throw (RangeError "Invalid time value").
Proof.
  exact (proj1 (request_fails_on_unreadable_reset (host := origin_bad_reset)
                  cars no_options None (fresh origin_bad_reset 0 defaults)
                  _ _ eq_refl eq_refl)).
Defined.

(** ** Signing in *)

Lemma match_irsso_eq (s : string) :
  match_irsso s =
    match (if prefixb "irsso_membersv2=" s then
             if str_empty (take_until_semicolon (drop 16 s)) then None
             else Some (take_until_semicolon (drop 16 s))
           else None) with
    | Some v => Some v
    | None =>
        match s with
        | EmptyString => None
        | String _ s' => match_irsso s'
        end
    end.
Proof. destruct s; reflexivity. Qed.

Lemma prefixb_drop (p s : string) :
  prefixb p s = true -> s = p ++ drop (String.length p) s.
Proof.
  revert s. induction p as [|a p IH]; intros s H; [reflexivity|].
  destruct s as [|b s]; [discriminate|]. cbn [prefixb] in H.
  apply andb_true_iff in H. destruct H as [Hab Hp].
  apply Ascii.eqb_eq in Hab. subst b.
  cbn [String.length drop]. change (String a p ++ drop (String.length p) s)
    with (String a (p ++ drop (String.length p) s)).
  f_equal. apply IH. assumption.
Qed.

(** The capture runs up to the first semicolon, or to the end. *)
Lemma take_until_semicolon_split (s : string) :
  ~ In ";"%char (chars (take_until_semicolon s)) /\
  exists post,
    s = take_until_semicolon s ++ post /\ (post = "" \/ prefixb ";" post = true).
Proof.
  induction s as [|c s [Hno (post & Hs & Hpost)]]; cbn [take_until_semicolon].
  - split; [intros [] | exists ""; split; [reflexivity | left; reflexivity]].
  - destruct (Ascii.eqb_spec c ";"%char) as [->|Hc].
    + split; [intros [] |].
      exists (String ";" s). split; [reflexivity | right; reflexivity].
    + split.
      * cbn [chars list_ascii_of_string In]. intros [H | H]; [congruence|].
        apply Hno. exact H.
      * exists post. split; [|assumption].
        change (String c (take_until_semicolon s) ++ post)
          with (String c (take_until_semicolon s ++ post)).
        f_equal. assumption.
Qed.

Lemma take_until_semicolon_app (v post : string) :
  ~ In ";"%char (chars v) ->
  post = "" \/ prefixb ";" post = true ->
  take_until_semicolon (v ++ post) = v.
Proof.
  intros Hno Hpost. induction v as [|c v IH].
  - change ("" ++ post) with post.
    destruct Hpost as [-> | H]; [reflexivity|].
    destruct post as [|p post]; [reflexivity|].
    cbn [prefixb] in H. apply andb_true_iff in H. destruct H as [H _].
    apply Ascii.eqb_eq in H. subst p. reflexivity.
  - change (String c v ++ post) with (String c (v ++ post)).
    cbn [take_until_semicolon].
    destruct (Ascii.eqb_spec c ";"%char) as [->|Hc].
    + exfalso. apply Hno. left. reflexivity.
    + f_equal. apply IH. intros H. apply Hno. right. exact H.
Qed.

(** X6: what [setCookie.match(/irsso_membersv2=([^;]+)/)] captures: a
    non-empty text without a semicolon that follows the cookie name in the
    header and runs to the next semicolon or to the end of the header; and
    a header that starts with the cookie gives its value. *)
Theorem match_irsso_captures_cookie_value :
  (forall s v,
     match_irsso s = Some v ->
     v <> "" /\
     ~ In ";"%char (chars v) /\
     exists pre post,
       s = pre ++ "irsso_membersv2=" ++ v ++ post /\
       (post = "" \/ prefixb ";" post = true)) /\
  (forall v post,
     v <> "" ->
     ~ In ";"%char (chars v) ->
     post = "" \/ prefixb ";" post = true ->
     match_irsso ("irsso_membersv2=" ++ v ++ post) = Some v).
Proof.
  split.
  - intros s. induction s as [|c s IH]; intros v H; rewrite match_irsso_eq in H.
    + discriminate.
    + destruct (prefixb "irsso_membersv2=" (String c s)) eqn:Hp.
      * pose proof (prefixb_drop "irsso_membersv2=" (String c s) Hp) as Hkey.
        destruct (take_until_semicolon_split (drop 16 (String c s)))
          as (Hno & post & Hs & Hpost).
        change (String.length "irsso_membersv2=") with 16%nat in Hkey.
        remember (drop 16 (String c s)) as tail eqn:Htail. clear Htail.
        remember (take_until_semicolon tail) as v0 eqn:Hv0. clear Hv0.
        destruct (str_empty v0) eqn:He.
        -- destruct (IH v H) as (Hne & Hno' & pre & post' & -> & Hpost').
           split; [assumption|]. split; [assumption|].
           exists (String c pre), post'. split; [reflexivity | assumption].
        -- injection H as <-.
           split; [intros E; rewrite E in He; discriminate|].
           split; [assumption|].
           exists "", post. split; [|assumption].
           rewrite <- Hs. exact Hkey.
      * destruct (IH v H) as (Hne & Hno & pre & post & -> & Hpost).
        split; [assumption|]. split; [assumption|].
        exists (String c pre), post. split; [reflexivity | assumption].
  - intros v post Hne Hno Hpost. rewrite match_irsso_eq.
    change (prefixb "irsso_membersv2=" ("irsso_membersv2=" ++ v ++ post)) with true.
    change (drop 16 ("irsso_membersv2=" ++ v ++ post)) with (v ++ post).
    cbv iota. rewrite (take_until_semicolon_app v post Hno Hpost).
    destruct v; [congruence | reflexivity].
Qed.

Section SignIn.

Context {host : Host}.

(** The session update for a body that is neither [undefined] nor [null]. *)
Lemma store_session_defined (res : Response) (response : value) (w : World) :
  response <> VUndef -> response <> VNull ->
  store_session res response w =
    (Ok tt,
     {| env := env w;
        trace := trace w;
        this :=
          {| baseUrl := baseUrl (this w);
             autoHandleChunkedResponses := autoHandleChunkedResponses (this w);
             ssoCookieValue :=
               if truthy (field response "ssoCookieValue")
               then field response "ssoCookieValue"
               else match session_cookie res with
                    | Some token => VStr token
                    | None => ssoCookieValue (this w)
                    end;
             authcode :=
               if truthy (field response "authcode")
               then field response "authcode"
               else authcode (this w) |} |}).
Proof.
  intros Hu Hn. unfold store_session, session_cookie.
  rewrite !(prop_field response _ Hu Hn). mstep.
  destruct (truthy (field response "ssoCookieValue")).
  - unfold set_ssoCookieValue, set_authcode.
    destruct (truthy (field response "authcode")); reflexivity.
  - destruct (headers_get "set-cookie" (res_headers res)) as [c|].
    + destruct (if str_empty c then None else match_irsso c);
        unfold set_ssoCookieValue, set_authcode;
        destruct (truthy (field response "authcode")); cbn [env trace this];
        try reflexivity; destruct w as [e t [b a s c0]]; reflexivity.
    + unfold set_authcode.
      destruct (truthy (field response "authcode")); cbn [env trace this];
        try reflexivity; destruct w as [e t [b a s c0]]; reflexivity.
Qed.

(** The session update fails only on a body that is [undefined] or [null],
    and then changes nothing. *)
Lemma store_session_throws (res : Response) (response : value) (w w' : World) (e : exn) :
  store_session res response w = (Throw e, w') -> w' = w.
Proof.
  destruct response as [| | b | n | s | xs | fs | f];
    try (rewrite store_session_defined by discriminate; discriminate).
  - unfold store_session. mstep. cbn [prop]. intros [= _ <-]. reflexivity.
  - unfold store_session. mstep. cbn [prop]. intros [= _ <-]. reflexivity.
Qed.

Lemma authenticate_unfold (req : AuthRequest) (w : World) :
  zod_email (email req) = true ->
  authenticate req w =
    let (out, env1) :=
      fetchImpl (VStr (baseUrl (this w) ++ AUTH)) (Some (auth_init req)) (env w) in
    let w1 := {| env := env1;
                 trace := trace w ++ [EvFetch (VStr (baseUrl (this w) ++ AUTH))
                                        (Some (auth_init req)) out];
                 this := this w |} in
    match out with
    | Throw e => (Throw e, w1)
    | Ok res =>
        if negb (res_ok res)
        then (Throw (Error ("HTTP error! status: " ++ NumberToString (res_status res))), w1)
        else match res_json res with
             | Throw e => (Throw e, w1)
             | Ok response =>
                 match store_session res response
                         (logged w1 (AuthenticationResponse response)) with
                 | (Ok _, w2) => (Ok response, w2)
                 | (Throw e, w2) => (Throw e, w2)
                 end
             end
    end.
Proof.
  intros Hz. unfold authenticate. rewrite Hz. cbn [negb].
  unfold bind at 1, get_this at 1. unfold bind at 1, fetch at 1.
  rewrite hashBase64_canonical. fold (auth_body req). fold (auth_init req).
  destruct (fetchImpl _ _ (env w)) as [[res|e] env1]; [|reflexivity].
  destruct (res_ok res); cbn [negb]; [|reflexivity].
  unfold bind at 1, lift at 1.
  destruct (res_json res) as [response|e]; [|reflexivity].
  unfold bind at 1, console_log at 1, emit at 1. unfold bind at 1.
  fold (logged {| env := env1;
                  trace := trace w ++ [EvFetch (VStr (baseUrl (this w) ++ AUTH))
                                         (Some (auth_init req)) (Ok res)];
                  this := this w |} (AuthenticationResponse response)).
  destruct (store_session res response _) as [[u|e] w2]; reflexivity.
Qed.

End SignIn.

(** X7: a sign-in the origin accepts returns the decoded body and stores
    the session: the token is the [ssoCookieValue] of the body when it has
    one, otherwise the value of the [irsso_membersv2] cookie of the
    response, otherwise the token held before; the auth code is the
    [authcode] of the body when it has one; the base URL and the chunk
    setting are left alone; one transport call is made. *)
Theorem authenticate_stores_session {host : Host} (req : AuthRequest) (w : World)
  (res : Response) (env1 : Env) (response : value) :
  zod_email (email req) = true ->
  fetchImpl (VStr (baseUrl (this w) ++ AUTH)) (Some (auth_init req)) (env w)
    = (Ok res, env1) ->
  res_ok res = true ->
  res_json res = Ok response ->
  response <> VUndef ->
  response <> VNull ->
  outcome (authenticate req) w = Ok response /\
  ssoCookieValue (this (after (authenticate req) w)) =
    (if truthy (field response "ssoCookieValue")
     then field response "ssoCookieValue"
     else match session_cookie res with
          | Some token => VStr token
          | None => ssoCookieValue (this w)
          end) /\
  authcode (this (after (authenticate req) w)) =
    (if truthy (field response "authcode")
     then field response "authcode"
     else authcode (this w)) /\
  baseUrl (this (after (authenticate req) w)) = baseUrl (this w) /\
  autoHandleChunkedResponses (this (after (authenticate req) w)) =
    autoHandleChunkedResponses (this w) /\
  fetches (emitted (authenticate req) w) = [(VStr (baseUrl (this w) ++ AUTH), Ok res)].
Proof.
  intros Hz Hf Hok Hj Hu Hn.
  unfold outcome, after, emitted, after.
  rewrite (authenticate_unfold req w Hz), Hf, Hok, Hj. cbn [negb].
  rewrite (store_session_defined res response _ Hu Hn).
  cbn [fst snd env trace this logged].
  rewrite <- app_assoc, skipn_length_app. repeat split.
Qed.

Lemma authenticate_stores_session_witness :
  ssoCookieValue (this (after (host := origin_auth) (authenticate user)
                          (fresh origin_auth 0 defaults)))
  = VStr "sso-1".
Proof.
  refine (proj1 (proj2 (authenticate_stores_session (host := origin_auth)
                          user (fresh origin_auth 0 defaults) _ _ session_body
                          eq_refl eq_refl eq_refl eq_refl _ _)));
    discriminate.
Defined.

(** X8: a sign-in that fails, for whatever reason (the e-mail check, the
    transport, the status, the body), leaves the client object as it was:
    no token and no auth code is stored. *)
Theorem authenticate_failure_keeps_session {host : Host} (req : AuthRequest)
  (w : World) (e : exn) :
  outcome (authenticate req) w = Throw e ->
  this (after (authenticate req) w) = this w.
Proof.
  unfold outcome, after.
  destruct (zod_email (email req)) eqn:Hz.
  2:{ unfold authenticate. rewrite Hz. reflexivity. }
  rewrite (authenticate_unfold req w Hz).
  destruct (fetchImpl _ _ (env w)) as [[res|e1] env1]; [|reflexivity].
  destruct (res_ok res); cbn [negb]; [|reflexivity].
  destruct (res_json res) as [response|e1]; [|reflexivity].
  destruct (store_session res response _) as [[u|e1] w2] eqn:E.
  - discriminate.
  - intros _. apply store_session_throws in E. subst w2. reflexivity.
Qed.

Lemma authenticate_failure_keeps_session_witness :
  this (after (host := origin_auth_refused) (authenticate user)
          (fresh origin_auth_refused 0 defaults))
  = constructor defaults.
Proof.
  exact (authenticate_failure_keeps_session (host := origin_auth_refused)
           user (fresh origin_auth_refused 0 defaults)
           (Error "HTTP error! status: 401") eq_refl).
Defined.

(** ** The resolver: switch, single chunk, missing lists, pauses *)

Section Resolution.

Context {host : Host}.

Lemma emitted_confined {A : Type} (kind : event -> bool) (m : M A) (w : World) :
  confined kind m ->
  trace (after m w) = (trace w ++ emitted m w)%list /\
  this (after m w) = this w /\
  forallb kind (emitted m w) = true.
Proof.
  intros Hm. destruct (Hm w) as (t & Ht & Hthis & Hk).
  unfold emitted. rewrite Ht, skipn_length_app. repeat split; assumption.
Qed.

(** One pause follows each chunk the named-list loop reads. *)
Lemma fetch_named_chunks_pauses (base : value) (names : list value) :
  forall (chunks : list value) (w w' : World) (out : result (list value)),
  fetch_named_chunks base names chunks w = (out, w') ->
  exists t,
    trace w' = (trace w ++ t)%list /\
    delays t = repeat 100 (chunks_read (fetches t)).
Proof.
  induction names as [|f names IH]; intros chunks w w' out H.
  - run_in H. done_run H. exists []. rewrite app_nil_r. split; reflexivity.
  - cbn [fetch_named_chunks] in H. unfold interpolate in H.
    unfold bind at 1, lift at 1 in H.
    destruct (ToString base) as [b|eb].
    2:{ done_run H. exists []. rewrite app_nil_r. split; reflexivity. }
    unfold bind at 1, lift at 1 in H.
    destruct (ToString f) as [n|en].
    2:{ done_run H. exists []. rewrite app_nil_r. split; reflexivity. }
    set (url := (b ++ n)%string) in *.
    run_in H.
    destruct (fetchImpl (VStr url) None (env w)) as [[res|e] env1] eqn:Ef.
    + destruct (res_ok res) eqn:Eok; simpl in H.
      * destruct (res_json res) as [body|e] eqn:Ej.
        -- destruct (iterate body) as [items|e] eqn:Ei.
           ++ apply IH in H. destruct H as (t & Ht & Hd). simpl in Ht.
              exists (EvLog (FetchingChunk url)
                      :: EvFetch (VStr url) None (Ok res)
                      :: EvDelay 100 :: t).
              split; [rewrite Ht; rewrite <- !app_assoc; reflexivity|].
              cbn [delays fetches]. unfold chunks_read in *. cbn [map snd filter].
              unfold chunk_good at 1, chunk_outcome. rewrite Eok, Ej. cbn [negb].
              rewrite Ei. cbn [List.length repeat]. rewrite Hd. reflexivity.
           ++ done_run H.
              exists [EvLog (FetchingChunk url); EvFetch (VStr url) None (Ok res)].
              split; [simpl; rewrite <- !app_assoc; reflexivity|].
              cbn [delays fetches]. unfold chunks_read. cbn [map snd filter].
              unfold chunk_good, chunk_outcome. rewrite Eok, Ej. cbn [negb].
              rewrite Ei. reflexivity.
        -- done_run H.
           exists [EvLog (FetchingChunk url); EvFetch (VStr url) None (Ok res)].
           split; [simpl; rewrite <- !app_assoc; reflexivity|].
           cbn [delays fetches]. unfold chunks_read. cbn [map snd filter].
           unfold chunk_good, chunk_outcome. rewrite Eok, Ej. reflexivity.
      * done_run H.
        exists [EvLog (FetchingChunk url); EvFetch (VStr url) None (Ok res)].
        split; [simpl; rewrite <- !app_assoc; reflexivity|].
        cbn [delays fetches]. unfold chunks_read. cbn [map snd filter].
        unfold chunk_good, chunk_outcome. rewrite Eok. reflexivity.
    + done_run H.
      exists [EvLog (FetchingChunk url); EvFetch (VStr url) None (Throw e)].
      split; [simpl; rewrite <- !app_assoc; reflexivity|].
      reflexivity.
Qed.

(** One pause follows each chunk the fallback loop reads; a chunk it skips
    is followed by none. *)
Lemma fetch_indexed_chunks_pauses (ci : value) :
  forall (todo : nat) (i : Z) (chunks : list value) (w w' : World)
         (out : result (list value)),
  fetch_indexed_chunks todo i ci chunks w = (out, w') ->
  exists t,
    trace w' = (trace w ++ t)%list /\
    delays t = repeat 100 (chunks_read (fetches t)).
Proof.
  induction todo as [|todo IH]; intros i chunks w w' out H.
  - run_in H. done_run H. exists []. rewrite app_nil_r. split; reflexivity.
  - cbn [fetch_indexed_chunks] in H. unfold bind at 1, lift at 1 in H.
    destruct (prop ci "chunk_file_name") as [name|e0].
    2:{ done_run H. exists []. rewrite app_nil_r. split; reflexivity. }
    unfold bind at 1, lift at 1 in H.
    destruct (replace_extension name) as [stem|e0].
    2:{ done_run H. exists []. rewrite app_nil_r. split; reflexivity. }
    cbv zeta in H. unfold bind at 1, lift at 1 in H.
    destruct (prop ci "base_download_url") as [base_download_url|e0].
    2:{ done_run H. exists []. rewrite app_nil_r. split; reflexivity. }
    unfold interpolate in H. unfold bind at 1, lift at 1 in H.
    destruct (ToString base_download_url) as [base|e0].
    2:{ done_run H. exists []. rewrite app_nil_r. split; reflexivity. }
    cbv zeta in H. unfold bind at 1, lift at 1 in H.
    destruct (prop ci "total_chunks") as [total_chunks|e0].
    2:{ done_run H. exists []. rewrite app_nil_r. split; reflexivity. }
    unfold bind at 1, lift at 1 in H.
    destruct (ToString total_chunks) as [total|e0].
    2:{ done_run H. exists []. rewrite app_nil_r. split; reflexivity. }
    set (url := (base ++ (stem ++ "_" ++ NumberToString i ++ ".json"))%string) in *.
    set (line := FetchingIndexedChunk (i + 1) total url) in *.
    run_in H.
    destruct (fetchImpl (VStr url) None (env w)) as [[res|e] env1] eqn:Ef.
    + destruct (res_ok res) eqn:Eok; simpl in H.
      * destruct (res_json res) as [body|e] eqn:Ej.
        -- destruct (iterate body) as [items|e] eqn:Ei.
           ++ apply IH in H. destruct H as (t & Ht & Hd). simpl in Ht.
              exists (EvLog line :: EvFetch (VStr url) None (Ok res) :: EvDelay 100 :: t).
              split; [rewrite Ht; rewrite <- !app_assoc; reflexivity|].
              cbn [delays fetches]. unfold chunks_read in *. cbn [map snd filter].
              unfold chunk_good at 1, chunk_outcome. rewrite Eok, Ej. cbn [negb].
              rewrite Ei. cbn [List.length repeat]. rewrite Hd. reflexivity.
           ++ apply IH in H. destruct H as (t & Ht & Hd). simpl in Ht.
              exists (EvLog line :: EvFetch (VStr url) None (Ok res)
                      :: EvWarn (ChunkFetchError i e) :: t).
              split; [rewrite Ht; rewrite <- !app_assoc; reflexivity|].
              cbn [delays fetches]. unfold chunks_read in *. cbn [map snd filter].
              unfold chunk_good at 1, chunk_outcome. rewrite Eok, Ej. cbn [negb].
              rewrite Ei. exact Hd.
        -- apply IH in H. destruct H as (t & Ht & Hd). simpl in Ht.
           exists (EvLog line :: EvFetch (VStr url) None (Ok res)
                   :: EvWarn (ChunkFetchError i e) :: t).
           split; [rewrite Ht; rewrite <- !app_assoc; reflexivity|].
           cbn [delays fetches]. unfold chunks_read in *. cbn [map snd filter].
           unfold chunk_good at 1, chunk_outcome. rewrite Eok, Ej. exact Hd.
      * apply IH in H. destruct H as (t & Ht & Hd). simpl in Ht.
        exists (EvLog line :: EvFetch (VStr url) None (Ok res)
                :: EvWarn (ChunkStatusFailed i (res_status res)) :: t).
        split; [rewrite Ht; rewrite <- !app_assoc; reflexivity|].
        cbn [delays fetches]. unfold chunks_read in *. cbn [map snd filter].
        unfold chunk_good at 1, chunk_outcome. rewrite Eok. exact Hd.
    + apply IH in H. destruct H as (t & Ht & Hd). simpl in Ht.
      exists (EvLog line :: EvFetch (VStr url) None (Throw e)
              :: EvWarn (ChunkFetchError i e) :: t).
      split; [rewrite Ht; rewrite <- !app_assoc; reflexivity|].
      cbn [delays fetches]. unfold chunks_read in *. cbn [map snd filter].
      exact Hd.
Qed.

(** The events of a resolution that runs a loop between two console lines
    (or stops inside the loop): its fetches and pauses are those of the
    loop. *)
Lemma loop_events {L : Type} (m : M value) (loop : M L) (line0 : console)
  (mk : L -> value) (line1 : L -> console) (w w' : World) (out : result value) :
  m w = (out, w') ->
  (exists out1 w1,
     loop (logged w line0) = (out1, w1) /\
     match out1 with
     | Ok chunks => out = Ok (mk chunks) /\ w' = logged w1 (line1 chunks)
     | Throw e => out = Throw e /\ w' = w1
     end) ->
  forall t,
    trace (after loop (logged w line0)) = (trace (logged w line0) ++ t)%list ->
    fetches (emitted m w) = fetches t /\ delays (emitted m w) = delays t.
Proof.
  intros Hm (out1 & w1 & Hloop & Hout) t Ht.
  rewrite (after_run _ _ _ _ Hloop), logged_trace in Ht.
  destruct out1 as [chunks|e]; destruct Hout as [-> ->].
  - rewrite (emitted_run m w _ _ (EvLog line0 :: t ++ [EvLog (line1 chunks)])%list Hm).
    + cbn [fetches delays]. rewrite fetches_app, delays_app. cbn [fetches delays].
      rewrite !app_nil_r. split; reflexivity.
    + rewrite logged_trace, Ht, <- !app_assoc. reflexivity.
  - rewrite (emitted_run m w _ _ (EvLog line0 :: t)%list Hm).
    + split; reflexivity.
    + rewrite Ht, <- !app_assoc. reflexivity.
Qed.

End Resolution.

(** X9: with chunk handling switched off, by the argument of the call or,
    when the call leaves it out, by the option of the client,
    [requestWithChunking] is [request]: the same outcome, the same events,
    the same state; no response is resolved. *)
Theorem requestWithChunking_without_handling {host : Host} (path : string)
  (options : RequestInit) (query : option (list (string * value)))
  (handleChunks : option bool) (w : World) :
  handleChunks = Some false \/
  (handleChunks = None /\ autoHandleChunkedResponses (this w) = false) ->
  requestWithChunking path options query handleChunks w = request path options query w.
Proof.
  intros Hoff. unfold requestWithChunking. unfold bind at 1.
  destruct (emitted_confined _ _ w (confined_request path options query))
    as (_ & Hthis & _).
  unfold after in Hthis.
  destruct (request path options query w) as [[r|e] w1]; [|reflexivity].
  cbn [snd] in Hthis. unfold bind at 1, get_this at 1.
  destruct Hoff as [-> | [-> Hauto]]; [reflexivity|].
  rewrite Hthis, Hauto. reflexivity.
Qed.

Lemma requestWithChunking_without_handling_witness :
  requestWithChunking (host := origin_search) search_series no_options None None
    (fresh origin_search 0 unresolved)
  = request (host := origin_search) search_series no_options None
      (fresh origin_search 0 unresolved).
Proof.
  exact (requestWithChunking_without_handling (host := origin_search)
           search_series no_options None None (fresh origin_search 0 unresolved)
           (or_intror (conj eq_refl eq_refl))).
Defined.

(** X10: the single-chunk case of the legacy strategy (a [chunk_file_name]
    together with [total_chunks === 1]). When the base URL and the name
    have a text: one transport call, to the base URL followed by the name as
    given, and no pause; a rejection, a non-success status or a body that is
    not a list of records is the failure of the resolution; otherwise the
    response is returned with [data] set to the records of the chunk. When
    one of them has no text, the resolution raises before any call. A list
    of file names in the same chunk_info is not looked at. *)
Theorem single_chunk_fetched_by_name {host : Host} (r : value) (w : World) :
  truthy (top_chunk_info r) = true ->
  truthy (nested_chunk_info r) = false ->
  single_chunk (top_chunk_info r) = true ->
  exists fields,
    r = VObj fields /\
    delays (emitted (handleChunkedResponse r) w) = [] /\
    if renders (field (top_chunk_info r) "base_download_url")
       && renders (field (top_chunk_info r) "chunk_file_name")
    then
      exists answer,
        fetches (emitted (handleChunkedResponse r) w) =
          [(chunk_url (field (top_chunk_info r) "base_download_url")
              (field (top_chunk_info r) "chunk_file_name"), answer)] /\
        outcome (handleChunkedResponse r) w =
          match chunk_outcome answer with
          | Ok chunks => Ok (VObj (assign "data" (VArr chunks) fields))
          | Throw e => Throw e
          end
    else
      fetches (emitted (handleChunkedResponse r) w) = [] /\
      exists e, outcome (handleChunkedResponse r) w = Throw e.
Proof.
  intros Hc Hnest Hsingle.
  pose proof (handle_legacy_single r w Hc Hnest Hsingle) as Hrun.
  assert (Hquiet : delays (emitted (handleChunkedResponse r) w) = []).
  { pose proof (emitted_confined download_event (handleChunkedResponse r) w
                  (confined_handleChunkedResponse r)) as (_ & _ & Hkind).
    assert (Hfew : (List.length (fetches (emitted (handleChunkedResponse r) w)) <= 1)%nat).
    { destruct (renders (field (top_chunk_info r) "base_download_url")
                && renders (field (top_chunk_info r) "chunk_file_name")).
      - destruct Hrun as (o & -> & _). cbn. lia.
      - destruct Hrun as (-> & _). cbn. lia. }
    clear Hrun.
    destruct (handleChunkedResponse r w) as [out w'] eqn:E.
    assert (Htotal : ToString (field (top_chunk_info r) "total_chunks") = Ok "1").
    { unfold single_chunk in Hsingle. apply andb_true_iff in Hsingle.
      destruct Hsingle as [_ H1].
      destruct (field (top_chunk_info r) "total_chunks"); try discriminate.
      cbn [strict_eq_num] in H1. apply Z.eqb_eq in H1. subst. reflexivity. }
    destruct (field_truthy_defined _ _ Hc) as [Hu Hn].
    revert Hkind Hfew. unfold emitted, after. rewrite E. cbn [snd].
    unfold handleChunkedResponse in E.
    rewrite !(prop_field r _ Hu Hn) in E. mstep_in E.
    rewrite and_prop_field in E. cbv beta iota in E.
    unfold top_chunk_info, nested_chunk_info in *.
    rewrite Hc, Hnest in E. cbn [negb] in E. rewrite andb_false_r in E.
    cbv beta iota in E.
    rewrite !(prop_truthy _ _ Hc) in E. cbv beta iota in E.
    rewrite !Htotal in E. cbv beta iota in E.
    unfold single_chunk in Hsingle. rewrite Hsingle in E.
    destruct (ToString (field (field r "chunk_info") "base_download_url")) as [b|eb].
    2:{ unfold console_log, emit in E. injection E as <- <-. cbn [trace].
        rewrite skipn_length_app. reflexivity. }
    destruct (ToString (field (field r "chunk_info") "chunk_file_name")) as [n|en].
    2:{ unfold console_log, emit in E. injection E as <- <-. cbn [trace].
        rewrite skipn_length_app. reflexivity. }
    unfold console_log, emit, fetch in E. cbn [env trace this] in E.
    cbv beta iota in E.
    destruct (fetchImpl _ None (env w)) as [[res|e] env1].
    - destruct (res_ok res); cbn [negb] in E; cbv beta iota in E.
      + destruct (res_json res) as [body|e]; cbv beta iota in E.
        * destruct (iterate body) as [items|e]; cbv beta iota in E;
            injection E as <- <-; cbn [trace];
            rewrite <- !app_assoc, skipn_length_app; reflexivity.
        * injection E as <- <-. cbn [trace].
          rewrite <- !app_assoc, skipn_length_app. reflexivity.
      + injection E as <- <-. cbn [trace].
        rewrite <- !app_assoc, skipn_length_app. reflexivity.
    - injection E as <- <-. cbn [trace].
      rewrite <- !app_assoc, skipn_length_app. reflexivity. }
  destruct (chunk_info_object r Hc) as (fields & ->).
  assert (Hl : lookup "chunk_info" fields = Some (top_chunk_info (VObj fields))).
  { apply truthy_lookup. assumption. }
  exists fields. split; [reflexivity|]. split; [exact Hquiet|].
  destruct (renders (field (top_chunk_info (VObj fields)) "base_download_url")
            && renders (field (top_chunk_info (VObj fields)) "chunk_file_name")).
  - destruct Hrun as (answer & Hf & Ho). exists answer. split; [exact Hf|].
    rewrite Ho. destruct (chunk_outcome answer) as [chunks|e]; [|reflexivity].
    cbn [spread]. rewrite (spread_data_chunk_info fields (VArr chunks) _ Hl).
    reflexivity.
  - exact Hrun.
Qed.

Lemma single_chunk_fetched_by_name_witness :
  exists fields,
    single_response = VObj fields /\
    delays (emitted (host := origin_example) (handleChunkedResponse single_response)
              (fresh origin_example 0 defaults))
    = [] /\
    exists answer,
      fetches (emitted (host := origin_example) (handleChunkedResponse single_response)
                 (fresh origin_example 0 defaults))
      = [(VStr "https://example.com/chunk_0.json", answer)] /\
      outcome (host := origin_example) (handleChunkedResponse single_response)
        (fresh origin_example 0 defaults)
      = match chunk_outcome answer with
        | Ok chunks => Ok (VObj (assign "data" (VArr chunks) fields))
        | Throw e => Throw e
        end.
Proof.
  exact (single_chunk_fetched_by_name (host := origin_example) single_response
           (fresh origin_example 0 defaults) eq_refl eq_refl eq_refl).
Defined.

(** X11: a nested chunk_info that announces chunks and rows but has no
    list of file names, or an empty one, is not resolved: the resolver
    returns [response.data] as it is, the enclosing response dropped,
    without a transport call, a console line or any other effect; and when
    the test for the list raises (the length of the list is an object
    without a number), the resolution raises with it, without any effect
    either. *)
Theorem nested_without_file_names_returned_as_is {host : Host} (r : value) (w : World) :
  direct_link r = false ->
  truthy (nested_chunk_info r) = true ->
  strict_eq_num (field (nested_chunk_info r) "num_chunks") 0
  || strict_eq_num (field (nested_chunk_info r) "rows") 0 = false ->
  (has_file_names (field (nested_chunk_info r) "chunk_file_names") = Ok false ->
   handleChunkedResponse r w = (Ok (field r "data"), w)) /\
  (forall e,
     has_file_names (field (nested_chunk_info r) "chunk_file_names") = Throw e ->
     handleChunkedResponse r w = (Throw e, w)).
Proof.
  intros Hd Hnest Hz.
  pose proof (handle_nested_entry r w Hd Hnest Hz) as Hentry.
  split.
  - intros Hnames. rewrite Hnames in Hentry. exact Hentry.
  - intros e Hnames. rewrite Hnames in Hentry. exact Hentry.
Qed.

Lemma nested_without_file_names_returned_as_is_witness :
  handleChunkedResponse (host := no_origin) unlisted_nested_response
    (fresh no_origin 0 defaults)
  = (Ok (field unlisted_nested_response "data"), fresh no_origin 0 defaults).
Proof.
  exact (proj1 (nested_without_file_names_returned_as_is (host := no_origin)
                  unlisted_nested_response (fresh no_origin 0 defaults)
                  eq_refl eq_refl eq_refl) eq_refl).
Defined.

(** X12: in the legacy strategy without a usable list of file names and
    outside the single-chunk case, a [total_chunks] that converts to a
    number and is not a positive one (missing, not numeric, zero or
    negative) leaves the fallback loop without an iteration: nothing is
    fetched, and the response is returned with [data] set to the empty list,
    whatever [data] it carried. *)
Theorem fallback_without_chunks_empties_data {host : Host} (r : value) (w : World)
  (count : option Z) :
  truthy (top_chunk_info r) = true ->
  truthy (nested_chunk_info r) = false ->
  single_chunk (top_chunk_info r) = false ->
  has_file_names (field (top_chunk_info r) "chunk_file_names") = Ok false ->
  ToNumber StringToNumber (field (top_chunk_info r) "total_chunks") = Ok count ->
  num_lt (Some 0) count = false ->
  exists fields,
    r = VObj fields /\
    outcome (handleChunkedResponse r) w = Ok (VObj (assign "data" (VArr []) fields)) /\
    fetches (emitted (handleChunkedResponse r) w) = [] /\
    delays (emitted (handleChunkedResponse r) w) = [] /\
    env (after (handleChunkedResponse r) w) = env w.
Proof.
  intros Hc Hnest Hsingle Hnames Hcount Htotal.
  assert (Hshown : renders (field (top_chunk_info r) "total_chunks") = true).
  { apply (ToNumber_Ok_renders StringToNumber _ _ Hcount). }
  destruct (chunk_info_object r Hc) as (fields & ->).
  assert (Hl : lookup "chunk_info" fields = Some (top_chunk_info (VObj fields))).
  { apply truthy_lookup. assumption. }
  exists fields. split; [reflexivity|].
  destruct (handleChunkedResponse (VObj fields) w) as [out w'] eqn:E.
  destruct (handle_legacy_indexed _ w w' out Hc Hnest Hsingle Hshown Hnames E)
    as (todo & out1 & w1 & Htodo & Hloop & Hout).
  assert (Hzero : todo = O).
  { unfold indexed_iterations in Htodo. rewrite Hcount in Htodo.
    unfold num_lt in Htotal. destruct count as [n|].
    - injection Htodo as <-. apply Z.ltb_ge in Htotal. lia.
    - injection Htodo as <-. reflexivity. }
  subst todo. cbn [fetch_indexed_chunks] in Hloop. unfold ret in Hloop.
  injection Hloop as <- <-. destruct Hout as [-> ->].
  rewrite (outcome_run _ _ _ _ E), (after_run _ _ _ _ E).
  rewrite (emitted_run _ _ _ _
             [EvLog (ProcessingChunked
                       (text (field (top_chunk_info (VObj fields)) "total_chunks")));
              EvLog (Combined (list_length [])
                       (text (field (top_chunk_info (VObj fields)) "total_chunks")))] E).
  - cbn [spread]. rewrite (spread_data_chunk_info fields (VArr []) _ Hl).
    repeat split.
  - unfold logged. cbn [trace]. rewrite <- app_assoc. reflexivity.
Qed.

Lemma fallback_without_chunks_empties_data_witness :
  exists fields,
    chunkless_response = VObj fields /\
    outcome (host := no_origin) (handleChunkedResponse chunkless_response)
      (fresh no_origin 0 defaults)
    = Ok (VObj (assign "data" (VArr []) fields)) /\
    fetches (emitted (host := no_origin) (handleChunkedResponse chunkless_response)
               (fresh no_origin 0 defaults)) = [] /\
    delays (emitted (host := no_origin) (handleChunkedResponse chunkless_response)
              (fresh no_origin 0 defaults)) = [] /\
    env (after (host := no_origin) (handleChunkedResponse chunkless_response)
           (fresh no_origin 0 defaults)) = 0.
Proof.
  exact (fallback_without_chunks_empties_data (host := no_origin) chunkless_response
           (fresh no_origin 0 defaults) None
           eq_refl eq_refl eq_refl eq_refl eq_refl eq_refl).
Defined.

(** X13: a resolution that walks a non-empty list of file names (nested
    strategy or legacy named list) pauses 100 ms once after each chunk it
    has read, the last one included, and not after the fetch that fails:
    when it succeeds, the pauses are as many as the files. *)
Theorem named_chunks_paced {host : Host} (r holder info : value)
  (files : list value) (w : World) :
  named_list_source r = Some (holder, info) ->
  field info "chunk_file_names" = VArr files ->
  files <> [] ->
  delays (emitted (handleChunkedResponse r) w) =
    repeat 100 (chunks_read (fetches (emitted (handleChunkedResponse r) w))) /\
  (forall v,
     outcome (handleChunkedResponse r) w = Ok v ->
     delays (emitted (handleChunkedResponse r) w) = repeat 100 (List.length files)).
Proof.
  intros Hsrc Hnames Hne.
  destruct (handleChunkedResponse r w) as [out w'] eqn:E.
  rewrite (outcome_run _ _ _ _ E).
  assert (Hrun :
    (emitted (handleChunkedResponse r) w = [] /\ exists e, out = Throw e) \/
    exists base line0 mk line1,
    exists out1 w1,
      fetch_named_chunks base files [] (logged w line0) = (out1, w1) /\
      match out1 with
      | Ok chunks => out = Ok (mk chunks) /\ w' = logged w1 (line1 chunks)
      | Throw e => out = Throw e /\ w' = w1
      end).
  { unfold named_list_source in Hsrc.
    destruct (direct_link r) eqn:Hd; [discriminate|].
    destruct (truthy (nested_chunk_info r)) eqn:Hnest.
    - destruct (strict_eq_num (field (nested_chunk_info r) "num_chunks") 0
                || strict_eq_num (field (nested_chunk_info r) "rows") 0) eqn:Hz;
        [discriminate|].
      injection Hsrc as <- <-.
      destruct (renders (field (nested_chunk_info r) "num_chunks")) eqn:Hcount.
      + right.
        eexists _, _, _, (fun chunks => CombinedNested (list_length chunks) _).
        exact (handle_nested_named r files w w' out Hd Hnest Hz Hcount Hnames Hne E).
      + left. destruct (ToString_fails _ Hcount) as (e & Ht).
        pose proof (handle_nested_entry r w Hd Hnest Hz) as Hentry.
        rewrite Hnames, (has_file_names_array files Hne) in Hentry.
        specialize (Hentry e Ht). rewrite Hentry in E. injection E as <- <-.
        split; [exact (emitted_still _ _ _ Hentry) | exists e; reflexivity].
    - destruct (truthy (top_chunk_info r)) eqn:Hc; [|discriminate].
      destruct (single_chunk (top_chunk_info r)) eqn:Hsingle; [discriminate|].
      injection Hsrc as <- <-.
      destruct (renders (field (top_chunk_info r) "total_chunks")) eqn:Hcount.
      + right.
        eexists _, _, _, (fun chunks => Combined (list_length chunks) _).
        exact (handle_legacy_named r files w w' out Hc Hnest Hsingle Hcount Hnames Hne E).
      + left. destruct (ToString_fails _ Hcount) as (e & Ht).
        pose proof (handle_legacy_no_count r e w Hc Hnest Ht) as Hquiet.
        rewrite Hquiet in E. injection E as <- <-.
        split; [exact (emitted_still _ _ _ Hquiet) | exists e; reflexivity]. }
  destruct Hrun as [(-> & e & ->) | (base & line0 & mk & line1 & Hrun)].
  { split; [reflexivity | intros v Hv; discriminate Hv]. }
  pose proof Hrun as (out1 & w1 & Hloop & Hout).
  destruct (fetch_named_chunks_pauses _ _ _ _ _ _ Hloop) as (t & Ht & Hpaced).
  destruct (loop_events _ _ line0 mk line1 w w' out E Hrun t) as [Hf Hd].
  { rewrite (after_run _ _ _ _ Hloop). exact Ht. }
  rewrite Hf, Hd. split; [exact Hpaced|].
  intros v Hv. destruct out1 as [chunks|e]; [|destruct Hout; congruence].
  apply fetch_named_chunks_run in Hloop.
  destruct Hloop as (t' & Ht' & _ & _ & _ & _ & _ & Hdel).
  rewrite Ht' in Ht. apply app_inv_head in Ht. subst t'. exact Hdel.
Qed.

Lemma named_chunks_paced_witness :
  delays (emitted (host := origin_abc) (handleChunkedResponse named_response)
            (fresh origin_abc 0 defaults))
  = repeat 100 (chunks_read
                  (fetches (emitted (host := origin_abc)
                              (handleChunkedResponse named_response)
                              (fresh origin_abc 0 defaults)))).
Proof.
  refine (proj1 (named_chunks_paced (host := origin_abc)
                   named_response named_response (top_chunk_info named_response)
                   [VStr "a.json"; VStr "b.json"; VStr "c.json"]
                   (fresh origin_abc 0 defaults) eq_refl eq_refl _)).
  discriminate.
Defined.

(** X14: the index-derived fallback pauses 100 ms once after each chunk it
    has read; a chunk it skips (a rejection, a non-success status, a body
    that is not a list) is followed by no pause. *)
Theorem indexed_chunks_paced {host : Host} (r : value) (w : World) :
  truthy (top_chunk_info r) = true ->
  truthy (nested_chunk_info r) = false ->
  single_chunk (top_chunk_info r) = false ->
  has_file_names (field (top_chunk_info r) "chunk_file_names") = Ok false ->
  delays (emitted (handleChunkedResponse r) w) =
    repeat 100 (chunks_read (fetches (emitted (handleChunkedResponse r) w))).
Proof.
  intros Hc Hnest Hsingle Hnames.
  destruct (renders (field (top_chunk_info r) "total_chunks")) eqn:Hcount.
  2:{ destruct (ToString_fails _ Hcount) as (e & Ht).
      rewrite (emitted_still _ _ _ (handle_legacy_no_count r e w Hc Hnest Ht)).
      reflexivity. }
  destruct (handleChunkedResponse r w) as [out w'] eqn:E.
  destruct (handle_legacy_indexed r w w' out Hc Hnest Hsingle Hcount Hnames E)
    as (todo & Hrun).
  pose proof Hrun as (out1 & w1 & _ & Hloop & Hout).
  destruct (fetch_indexed_chunks_pauses _ _ _ _ _ _ _ Hloop) as (t & Ht & Hpaced).
  destruct (loop_events _ (fetch_indexed_chunks todo 0 (top_chunk_info r) []) _ _
              (fun chunks => Combined (list_length chunks)
                               (text (field (top_chunk_info r) "total_chunks")))
              w w' out E (ex_intro _ out1 (ex_intro _ w1 (conj Hloop Hout))) t)
    as [Hf Hd].
  { rewrite (after_run _ _ _ _ Hloop). exact Ht. }
  rewrite Hf, Hd. exact Hpaced.
Qed.

Lemma indexed_chunks_paced_witness :
  delays (emitted (host := origin_indexed) (handleChunkedResponse indexed_response)
            (fresh origin_indexed 0 defaults))
  = repeat 100 (chunks_read
                  (fetches (emitted (host := origin_indexed)
                              (handleChunkedResponse indexed_response)
                              (fresh origin_indexed 0 defaults)))).
Proof.
  exact (indexed_chunks_paced (host := origin_indexed) indexed_response
           (fresh origin_indexed 0 defaults) eq_refl eq_refl eq_refl eq_refl).
Defined.

Example two_of_three_indexed_chunks_paced :
  delays (emitted (host := origin_indexed) (handleChunkedResponse indexed_response)
            (fresh origin_indexed 0 defaults))
  = [100; 100].
Proof. vm_compute. reflexivity. Qed.

(** X15: every transport call the resolver makes, whichever strategy it
    takes and however it ends, is a call with the URL alone: no method, no
    headers, no body and no credentials option go to a link or to a chunk
    file; and every pause it makes is one of 100 ms. *)
Theorem resolver_downloads_without_options {host : Host} (r : value) (w : World) :
  forallb download_event (emitted (handleChunkedResponse r) w) = true.
Proof.
  apply (emitted_confined download_event (handleChunkedResponse r) w).
  apply confined_handleChunkedResponse.
Qed.

(** ** Parameter validation *)

Lemma parse_array_value (item : ZodType) (v x : value) :
  parse (z_array item) v = Ok x -> exists ys, x = VArr ys.
Proof.
  cbn [parse]. destruct v; try discriminate.
  match goal with |- match ?X with _ => _ end = _ -> _ => destruct X end.
  - intros [= <-]. eexists; reflexivity.
  - discriminate.
Qed.

(** A parsed value has a text. *)
Lemma parse_renders (t : ZodType) :
  joins_arrays t = true ->
  forall v x, parse t v = Ok x -> renders x = true.
Proof.
  induction t as [| | | item IH | inner IH | inner IH]; intros Hj v x H.
  - destruct v; cbn in H; try discriminate; injection H as <-; reflexivity.
  - destruct v; cbn in H; try discriminate; injection H as <-; reflexivity.
  - destruct v as [| | [|] | | | | |]; cbn in H; try discriminate;
      injection H as <-; reflexivity.
  - cbn [parse] in H.
    destruct v as [| | b | n | s | xs | fs | f]; try discriminate.
    cbn [joins_arrays] in Hj. specialize (IH Hj).
    match type of H with match ?X with _ => _ end = _ =>
      destruct X as [ys|e] eqn:E end; [|discriminate].
    injection H as <-. apply renders_array.
    revert ys E. induction xs as [|x0 xs IHxs]; intros ys E.
    + injection E as <-. reflexivity.
    + destruct (parse item x0) as [y|e1] eqn:Ex; [|discriminate].
      match type of E with match ?X with _ => _ end = _ =>
        destruct X as [ys'|e2] eqn:E' end; [|discriminate].
      injection E as <-. cbn [forallb].
      rewrite (IH x0 y Ex), (IHxs ys' eq_refl). reflexivity.
  - cbn [parse] in H.
    destruct (parse inner v) as [[| | | | | ys | |]|e]; try discriminate.
    destruct (join "," ys); [|discriminate]. injection H as <-. reflexivity.
  - cbn [parse] in H. cbn [joins_arrays] in Hj.
    destruct v; try (injection H as <-; reflexivity); apply (IH Hj _ _ H).
Qed.

(** A parse that fails, fails with a [ZodError]. *)
Lemma parse_throws_ZodError (t : ZodType) :
  joins_arrays t = true ->
  forall v e, parse t v = Throw e -> exists issue, e = ZodError issue.
Proof.
  induction t as [| | | item IH | inner IH | inner IH]; intros Hj v e H.
  - destruct v; cbn in H; try discriminate; injection H as <-; eexists; reflexivity.
  - destruct v; cbn in H; try discriminate; injection H as <-; eexists; reflexivity.
  - destruct v; cbn in H; try discriminate; injection H as <-; eexists; reflexivity.
  - cbn [parse] in H.
    destruct v as [| | b | n | s | xs | fs | f];
      try (injection H as <-; eexists; reflexivity).
    cbn [joins_arrays] in Hj. specialize (IH Hj).
    induction xs as [|x xs IHxs]; [discriminate|].
    destruct (parse item x) as [y|e1] eqn:Ex.
    + match type of IHxs with match ?X with _ => _ end = _ -> _ =>
        destruct X as [ys|e2] end.
      * discriminate.
      * apply IHxs. injection H as <-. reflexivity.
    + injection H as <-. apply (IH x). assumption.
  - cbn [parse] in H.
    destruct inner as [| | | item | inner' | inner']; cbn [joins_arrays] in Hj;
      try discriminate.
    destruct (parse (z_array item) v) as [x|e1] eqn:Ex.
    + pose proof (parse_renders (z_array item) Hj v x Ex) as Hr.
      destruct (parse_array_value item v x Ex) as (ys & ->).
      unfold renders in Hr. rewrite ToString_array in Hr.
      destruct (join "," ys); discriminate.
    + injection H as <-. apply (IH Hj v). assumption.
  - cbn [parse] in H. cbn [joins_arrays] in Hj.
    destruct v; try discriminate; apply (IH Hj _ _ H).
Qed.

Lemma parse_shape_throws_ZodError (shape : ZodObject) (fs : list (string * value)) :
  forallb (fun kt => joins_arrays (snd kt)) shape = true ->
  forall e, parse_shape shape fs = Throw e -> exists issue, e = ZodError issue.
Proof.
  induction shape as [|[k t] shape IH]; intros Hj e H; [discriminate|].
  cbn [forallb snd] in Hj. apply andb_true_iff in Hj. destruct Hj as [Ht Hs].
  cbn [parse_shape] in H.
  destruct (parse t _) as [v|e1] eqn:Ep.
  - destruct (parse_shape shape fs) as [rest|e2]; [discriminate|].
    injection H as <-. apply IH; [assumption | reflexivity].
  - injection H as <-. exact (parse_throws_ZodError t Ht _ _ Ep).
Qed.

(** A key whose value does not pass the check of its type makes the parse
    of the object fail. *)
Lemma parse_shape_rejects (shape : ZodObject) (fs : list (string * value))
  (k : string) (t : ZodType) :
  In (k, t) shape ->
  accepts t (field (VObj fs) k) = false ->
  exists e, parse_shape shape fs = Throw e.
Proof.
  intros Hin Hbad. induction shape as [|[k' t'] shape IH]; [destruct Hin|].
  cbn [parse_shape].
  destruct Hin as [[= -> ->] | Hin].
  - unfold accepts, field in Hbad. cbn [prop] in Hbad.
    destruct (lookup k fs) as [v|];
      destruct (parse t _) as [v'|e]; try discriminate; eexists; reflexivity.
  - destruct (parse t' _) as [v'|e]; [|eexists; reflexivity].
    destruct (IH Hin) as (e & ->). eexists; reflexivity.
Qed.

Lemma safeParse_rejects (shape : ZodObject) (params : value) :
  forallb (fun kt => joins_arrays (snd kt)) shape = true ->
  (forall fields, params <> VObj fields) \/
  (exists k t, In (k, t) shape /\ accepts t (field params k) = false) ->
  exists issue, safeParse shape params = Throw (ZodError issue).
Proof.
  intros Hj Hbad. unfold safeParse.
  destruct params as [| | b | n | s | xs | fs | f];
    try (eexists; reflexivity).
  destruct Hbad as [Hno | (k & t & Hin & Hacc)]; [exfalso; apply (Hno fs); reflexivity|].
  destruct (parse_shape_rejects shape fs k t Hin Hacc) as (e & He).
  rewrite He. destruct (parse_shape_throws_ZodError shape fs Hj e He) as (issue & ->).
  eexists; reflexivity.
Qed.

(** An object whose values pass the checks of all the keys is accepted. *)
Lemma safeParse_accepts (shape : ZodObject) (fs : list (string * value)) :
  (forall k t, In (k, t) shape -> accepts t (field (VObj fs) k) = true) ->
  exists data, safeParse shape (VObj fs) = Ok data.
Proof.
  intros Hkeys. unfold safeParse.
  assert (E : exists data, parse_shape shape fs = Ok data).
  { induction shape as [|[k t] shape IH]; [eexists; reflexivity|].
    cbn [parse_shape].
    pose proof (Hkeys k t (or_introl eq_refl)) as Hk.
    unfold accepts, field in Hk. cbn [prop] in Hk.
    destruct IH as (rest & ->).
    { intros k' t' Hin. apply Hkeys. right. exact Hin. }
    destruct (lookup k fs) as [v|];
      destruct (parse t _) as [v'|e]; try discriminate; eexists; reflexivity. }
  destruct E as (data & ->). eexists; reflexivity.
Qed.

(** A shape whose keys are all optional accepts the empty object. *)
Lemma safeParse_empty (shape : ZodObject) :
  all_optional shape = true -> safeParse shape (VObj []) = Ok (VObj []).
Proof.
  intros H. unfold safeParse.
  assert (E : parse_shape shape [] = Ok []).
  { induction shape as [|[k t] shape IH]; [reflexivity|].
    cbn [all_optional forallb snd] in H. apply andb_true_iff in H.
    destruct H as [Ht Hs]. destruct t; try discriminate.
    cbn [parse_shape lookup parse]. rewrite (IH Hs). reflexivity. }
  rewrite E. reflexivity.
Qed.

(** The parsed object keeps the keys of the schema only, the list joined. *)
Example members_parsed :
  safeParse MemberGetParamsSchema
    (VObj [("cust_ids", VArr [VNum 12; VNum 7]); ("page", VNum 1)])
  = Ok (VObj [("cust_ids", VStr "12,7")]).
Proof. reflexivity. Qed.

Example league_id_required :
  safeParse LeagueGetParamsSchema (VObj [("include_licenses", VBool true)])
  = Throw (ZodError "Required").
Proof. reflexivity. Qed.

Example league_id_mistyped :
  safeParse LeagueGetParamsSchema (VObj [("league_id", VStr "12")])
  = Throw (ZodError "Expected number, received string").
Proof. reflexivity. Qed.

(** ** The data methods *)

Ltac head_of t :=
  lazymatch t with
  | ?f _ => head_of f
  | _ => t
  end.

Ltac unfold_method :=
  lazymatch goal with
  | |- ?l = _ => let h := head_of l in unfold h
  end.

Ltac method_row :=
  intros params w; cbn [dm_call dm_params dm_via dm_endpoint api_call];
  first
    [ reflexivity
    | unfold_method; unfold bind, when, validate, lift, ret;
      first
        [ destruct (truthy params);
          [ match goal with
            | |- context [safeParse ?s params] => destruct (safeParse s params)
            end; reflexivity
          | reflexivity ]
        | match goal with
          | |- context [safeParse ?s params] => destruct (safeParse s params)
          end; reflexivity ] ].

Section Methods.

Context {host : Host}.

(** Each data method is its row of the table: the check of the parameters
    when it has some (always, or when [params] is truthy), then the call. *)
Lemma data_methods_conform (m : DataMethod) :
  In m data_methods ->
  forall params w,
    dm_call m params w =
      match dm_params m with
      | NoParams => api_call (dm_via m) (dm_endpoint m) None w
      | OptionalParams schema =>
          if truthy params then
            match safeParse schema params with
            | Ok _ => api_call (dm_via m) (dm_endpoint m) (query_of params) w
            | Throw e => (Throw e, w)
            end
          else api_call (dm_via m) (dm_endpoint m) (query_of params) w
      | RequiredParams schema =>
          match safeParse schema params with
          | Ok _ => api_call (dm_via m) (dm_endpoint m) (query_of params) w
          | Throw e => (Throw e, w)
          end
      end.
Proof.
  intros Hin. unfold data_methods in Hin. cbn [In] in Hin.
  repeat (destruct Hin as [<- | Hin]; [method_row|]).
  destruct Hin.
Qed.

End Methods.

Section Table.

Context {host : Host}.

(** The schemas of the table apply their transforms to arrays, and the
    schema of a method whose [params] may be left out requires no key. *)
Lemma data_methods_schemas (m : DataMethod) :
  In m data_methods ->
  forallb (fun kt => joins_arrays (snd kt)) (schema_of (dm_params m)) = true /\
  (forall schema, dm_params m = OptionalParams schema -> all_optional schema = true).
Proof.
  intros Hin. unfold data_methods in Hin. cbn [In] in Hin.
  repeat (destruct Hin as [<- | Hin];
          [split; [reflexivity | cbn [dm_params]; intros schema [= <-]; reflexivity]
          | ]);
    try (split; [reflexivity | cbn [dm_params]; intros schema H; discriminate H]).
  destruct Hin.
Qed.

Lemma emitted_nothing {A : Type} (m : M A) (w : World) (out : result A) :
  m w = (out, w) -> emitted m w = [].
Proof.
  intros H. apply (emitted_run m w w out [] H). rewrite app_nil_r. reflexivity.
Qed.

(** What [requestWithChunking] does once [request] has returned [r]. *)
Lemma confined_after_request (handleChunks : option bool) (r : value) :
  confined download_event
    (bind get_this (fun sdk =>
       if match handleChunks with
          | Some b => b
          | None => autoHandleChunkedResponses sdk
          end
       then bind (lift (prop r "chunk_info")) (fun chunk_info =>
              bind (lift (prop r "link")) (fun link =>
                if truthy chunk_info || truthy link
                then handleChunkedResponse r
                else ret r))
       else ret r)).
Proof. confine_with ltac:(apply confined_handleChunkedResponse). Qed.

(** The events of [requestWithChunking] start with those of [request]. *)
Lemma requestWithChunking_events (path : string) (options : RequestInit)
  (query : option (list (string * value))) (handleChunks : option bool) (w : World) :
  exists more,
    emitted (requestWithChunking path options query handleChunks) w =
      (emitted (request path options query) w ++ more)%list.
Proof.
  destruct (emitted_confined _ _ w (confined_request path options query))
    as (Ht & _ & _).
  unfold emitted at 1, after at 1, requestWithChunking, bind at 1.
  unfold after in Ht.
  destruct (request path options query w) as [[r|e] w1] eqn:E; cbn [snd] in Ht.
  - match goal with |- context [snd (?k w1)] =>
      assert (Hk : exists t, trace (snd (k w1)) = (trace w1 ++ t)%list) end.
    { destruct (confined_after_request handleChunks r w1) as (t & Hk & _).
      exists t. exact Hk. }
    destruct Hk as (t & Hk). exists t. rewrite Hk, Ht, <- app_assoc.
    apply skipn_length_app.
  - exists []. rewrite app_nil_r. cbn [snd]. rewrite Ht. apply skipn_length_app.
Qed.

(** The first transport call of a data call is the one [request] makes. *)
Lemma api_call_first_fetch (via : Transport) (path : string)
  (query : option (list (string * value))) (w : World) (url : string) :
  request_url (this w) path query = Ok url ->
  exists answer rest,
    fetches (emitted (api_call via path query) w) = (VStr url, answer) :: rest.
Proof.
  intros Hu.
  destruct (request_events path no_options query w url Hu) as (t & E & Ht).
  destruct via; cbn [api_call].
  - rewrite E. cbn [fetches]. rewrite Ht. eexists _, _. reflexivity.
  - destruct (requestWithChunking_events path no_options query None w) as (more & ->).
    rewrite E, fetches_app. cbn [fetches app]. rewrite Ht. eexists _, _. reflexivity.
Qed.

(** A value [request] returns is the decoded body of the response to its
    one transport call. *)
Lemma request_returns_body (path : string) (options : RequestInit)
  (query : option (list (string * value))) (w : World) (v : value) :
  outcome (request path options query) w = Ok v ->
  exists url res,
    request_url (this w) path query = Ok url /\
    fetches (emitted (request path options query) w) = [(VStr url, Ok res)] /\
    res_ok res = true /\
    res_json res = Ok v.
Proof.
  intros Hv.
  destruct (request_url (this w) path query) as [url|e0] eqn:Hu.
  2:{ rewrite (outcome_run _ _ _ _ (request_run_unrendered path options query w e0 Hu))
        in Hv. discriminate. }
  exists url.
  destruct (request_events path options query w url Hu) as (t & E & Ht).
  rewrite E. cbn [fetches]. rewrite Ht.
  rewrite (transport_answer_url path options query w url Hu).
  destruct (fetchImpl (VStr url) (Some (request_init options)) (env w))
    as [[res|e] env1] eqn:Hf; cbn [fst].
  - exists res. split; [reflexivity|]. split; [reflexivity|].
    destruct (reset_renders res) eqn:Hr.
    + destruct (request_run path options query w url res env1 Hu Hf Hr) as (t' & E' & _).
      rewrite (outcome_run _ _ _ _ E') in Hv.
      destruct (res_ok res); cbn [negb] in Hv; [split; [reflexivity | assumption]|].
      discriminate.
    + pose proof (request_run_throws path options query w url res env1 Hu Hf Hr) as E'.
      rewrite (outcome_run _ _ _ _ E') in Hv. discriminate.
  - pose proof (request_run_rejected path options query w url e env1 Hu Hf) as E'.
    rewrite (outcome_run _ _ _ _ E') in Hv. discriminate.
Qed.

Lemma confined_api_call (via : Transport) (path : string)
  (query : option (list (string * value))) :
  confined any_event (api_call via path query).
Proof.
  destruct via; [apply confined_request | apply confined_requestWithChunking].
Qed.

End Table.

(** X16: a data method that checks its parameters (always, or when they
    are given and truthy) throws a [ZodError] when they are not an object
    or when the value of a key of its schema does not pass the check of
    the key's type, and does so before anything else: no console line, no
    transport call, the state as it was. *)
Theorem invalid_params_rejected_before_network {host : Host} (m : DataMethod)
  (schema : ZodObject) (params : value) (w : World) :
  In m data_methods ->
  dm_params m = RequiredParams schema \/
  (dm_params m = OptionalParams schema /\ truthy params = true) ->
  (forall fields, params <> VObj fields) \/
  (exists k t, In (k, t) schema /\ accepts t (field params k) = false) ->
  exists issue, dm_call m params w = (Throw (ZodError issue), w).
Proof.
  intros Hin Hkind Hbad.
  destruct (data_methods_schemas m Hin) as [Hj _].
  rewrite (data_methods_conform m Hin).
  destruct Hkind as [Hp | [Hp Ht]]; rewrite Hp in *; cbn [schema_of] in Hj;
    destruct (safeParse_rejects schema params Hj Hbad) as (issue & E);
    exists issue; [|rewrite Ht]; rewrite E; reflexivity.
Qed.

Lemma invalid_params_rejected_before_network_witness :
  exists issue,
    getLeague (host := no_origin) (VObj [("league_id", VStr "12")])
      (fresh no_origin 0 defaults)
    = (Throw (ZodError issue), fresh no_origin 0 defaults).
Proof.
  refine (invalid_params_rejected_before_network (host := no_origin)
            {| dm_call := getLeague; dm_endpoint := ApiEndpoints.LEAGUE_GET;
               dm_params := RequiredParams LeagueGetParamsSchema;
               dm_via := ViaRequest |}
            LeagueGetParamsSchema (VObj [("league_id", VStr "12")])
            (fresh no_origin 0 defaults) _ (or_introl eq_refl) _).
  - unfold data_methods. cbn [In]. do 16 right. left. reflexivity.
  - right. exists "league_id", z_number. split; [left; reflexivity | reflexivity].
Defined.

(** X17: the query string of a data call is made from the parameters as
    the caller gave them, not from the parsed object: when the parameters
    are an object with at least one key and the value of every key of the
    schema passes the check of its type, the first transport call goes to
    the base URL, the endpoint of the method, a question mark and the
    encoded pairs of all the keys given with a defined value, the keys the
    schema does not know included, each value as [String] renders it; and
    when one of these values has no text (a key the schema does not check
    can hold any value), the call raises with the failure of [String],
    before any console line or transport call. *)
Theorem params_sent_as_given {host : Host} (m : DataMethod) (schema : ZodObject)
  (fields : list (string * value)) (w : World) :
  In m data_methods ->
  dm_params m = RequiredParams schema \/ dm_params m = OptionalParams schema ->
  (forall k t, In (k, t) schema -> accepts t (field (VObj fields) k) = true) ->
  fields <> [] ->
  match rendered fields with
  | Ok pairs =>
      exists answer rest,
        fetches (emitted (dm_call m (VObj fields)) w) =
          (VStr ((baseUrl (this w) ++ dm_endpoint m) ++ "?" ++
                 URLSearchParams_toString pairs), answer) :: rest
  | Throw e => dm_call m (VObj fields) w = (Throw e, w)
  end.
Proof.
  intros Hin Hkind Hkeys Hne.
  destruct (safeParse_accepts schema fields Hkeys) as (data & Hparse).
  assert (E : dm_call m (VObj fields) w =
              api_call (dm_via m) (dm_endpoint m) (Some fields) w).
  { rewrite (data_methods_conform m Hin).
    destruct Hkind as [-> | ->]; cbn [truthy]; rewrite Hparse; reflexivity. }
  assert (Hu : request_url (this w) (dm_endpoint m) (Some fields) =
               match rendered fields with
               | Ok pairs =>
                   Ok ((baseUrl (this w) ++ dm_endpoint m) ++ "?" ++
                       URLSearchParams_toString pairs)
               | Throw e => Throw e
               end).
  { unfold request_url. destruct fields as [|kv fields]; [congruence|].
    cbn [is_nil negb]. rewrite query_params_rendered. reflexivity. }
  destruct (rendered fields) as [pairs|e].
  - destruct (api_call_first_fetch (dm_via m) (dm_endpoint m) (Some fields) w _ Hu)
      as (answer & rest & Hf).
    exists answer, rest.
    unfold emitted, after in *. rewrite E, Hf. reflexivity.
  - rewrite E.
    pose proof (request_run_unrendered (dm_endpoint m) no_options (Some fields) w e Hu)
      as Hreq.
    destruct (dm_via m); cbn [api_call]; [exact Hreq|].
    unfold requestWithChunking, bind. rewrite Hreq. reflexivity.
Qed.

Lemma params_sent_as_given_witness :
  exists answer rest,
    fetches (emitted (host := no_origin)
               (getLeague (VObj [("league_id", VNum 12); ("page", VNum 2)]))
               (fresh no_origin 0 defaults))
    = (VStr "https://members-ng.iracing.com/data/league/get?league_id=12&page=2",
       answer) :: rest.
Proof.
  refine (params_sent_as_given (host := no_origin)
            {| dm_call := getLeague; dm_endpoint := ApiEndpoints.LEAGUE_GET;
               dm_params := RequiredParams LeagueGetParamsSchema;
               dm_via := ViaRequest |}
            LeagueGetParamsSchema [("league_id", VNum 12); ("page", VNum 2)]
            (fresh no_origin 0 defaults) _ (or_introl eq_refl) _ _).
  - unfold data_methods. cbn [In]. do 16 right. left. reflexivity.
  - intros k t [[= <- <-] | [[= <- <-] | []]]; reflexivity.
  - discriminate.
Defined.

(** A key the schema does not know, holding an object without a text. *)
Example textless_param_raises :
  getLeague (host := no_origin) (VObj [("league_id", VNum 12); ("extra", no_text)])
    (fresh no_origin 0 defaults)
  = (Throw (TypeError "Cannot convert object to primitive value"),
     fresh no_origin 0 defaults).
Proof. reflexivity. Qed.

(** X18: a data method whose parameters may be left out treats a falsy
    argument ([undefined], [null], ...) and the empty object alike: no
    check fails, no query string is sent, and the call is the one made
    without an argument. *)
Theorem optional_params_may_be_omitted {host : Host} (m : DataMethod)
  (schema : ZodObject) (params : value) (w : World) :
  In m data_methods ->
  dm_params m = OptionalParams schema ->
  truthy params = false \/ params = VObj [] ->
  dm_call m params w = dm_call m VUndef w /\
  exists answer rest,
    fetches (emitted (dm_call m params) w) =
      (VStr (baseUrl (this w) ++ dm_endpoint m), answer) :: rest.
Proof.
  intros Hin Hp Hnone.
  destruct (data_methods_schemas m Hin) as [_ Hopt].
  specialize (Hopt schema Hp).
  assert (E : dm_call m params w = api_call (dm_via m) (dm_endpoint m) None w).
  { rewrite (data_methods_conform m Hin), Hp.
    destruct Hnone as [Hf | ->].
    - unfold query_of. rewrite Hf. reflexivity.
    - cbn [truthy]. rewrite (safeParse_empty schema Hopt).
      destruct (dm_via m); reflexivity. }
  split.
  - rewrite E, (data_methods_conform m Hin), Hp. reflexivity.
  - destruct (api_call_first_fetch (dm_via m) (dm_endpoint m) None w
                (baseUrl (this w) ++ dm_endpoint m) eq_refl)
      as (answer & rest & Hf).
    exists answer, rest. unfold emitted, after in *. rewrite E, Hf. reflexivity.
Qed.

Lemma optional_params_may_be_omitted_witness :
  getMemberAwards (host := no_origin) (VObj []) (fresh no_origin 0 defaults)
  = getMemberAwards (host := no_origin) VUndef (fresh no_origin 0 defaults).
Proof.
  refine (proj1 (optional_params_may_be_omitted (host := no_origin)
            {| dm_call := getMemberAwards; dm_endpoint := ApiEndpoints.MEMBER_AWARDS;
               dm_params := OptionalParams MemberAwardsParamsSchema;
               dm_via := ViaRequest |}
            MemberAwardsParamsSchema (VObj []) (fresh no_origin 0 defaults)
            _ eq_refl (or_intror eq_refl))).
  unfold data_methods. cbn [In]. do 28 right. left. reflexivity.
Defined.

(** X19: a data method built on [request] makes at most one transport call
    and, when it returns, returns the decoded body of the response to that
    call as it is: a [link] or a [chunk_info] in the body is not followed. *)
Theorem request_methods_return_body_unresolved {host : Host} (m : DataMethod)
  (params : value) (w : World) :
  In m data_methods ->
  dm_via m = ViaRequest ->
  (List.length (fetches (emitted (dm_call m params) w)) <= 1)%nat /\
  (forall v,
     outcome (dm_call m params) w = Ok v ->
     exists url res,
       fetches (emitted (dm_call m params) w) = [(url, Ok res)] /\
       res_json res = Ok v).
Proof.
  intros Hin Hvia.
  assert (Hcases :
    (exists e, dm_call m params w = (Throw e, w)) \/
    (exists query, dm_call m params w = request (dm_endpoint m) no_options query w)).
  { rewrite (data_methods_conform m Hin), Hvia. cbn [api_call].
    destruct (dm_params m) as [|schema|schema].
    - right. eexists; reflexivity.
    - destruct (truthy params).
      + destruct (safeParse schema params); [right | left]; eexists; reflexivity.
      + right. eexists; reflexivity.
    - destruct (safeParse schema params); [right | left]; eexists; reflexivity. }
  destruct Hcases as [(e & E) | (query & E)].
  - rewrite (emitted_nothing _ _ _ E), (outcome_run _ _ _ _ E).
    split; [cbn; lia | discriminate].
  - unfold emitted, after, outcome. rewrite E.
    fold (after (request (dm_endpoint m) no_options query) w).
    fold (emitted (request (dm_endpoint m) no_options query) w).
    fold (outcome (request (dm_endpoint m) no_options query) w).
    split.
    + destruct (request_url (this w) (dm_endpoint m) query) as [url|e] eqn:Hu.
      * destruct (request_events (dm_endpoint m) no_options query w url Hu)
          as (t & -> & Ht).
        cbn [fetches]. rewrite Ht. cbn. lia.
      * rewrite (emitted_still _ _ _
                   (request_run_unrendered (dm_endpoint m) no_options query w e Hu)).
        cbn. lia.
    + intros v Hv.
      destruct (request_returns_body _ _ _ _ _ Hv) as (url & res & _ & Hf & _ & Hj).
      eexists _, res. split; [exact Hf | exact Hj].
Qed.

Lemma request_methods_return_body_unresolved_witness :
  (List.length (fetches (emitted (host := origin_csv)
                           (getResults (VObj [("subsession_id", VNum 1%Z)]))
                           (fresh origin_csv 0%Z defaults))) <= 1)%nat.
Proof.
  refine (proj1 (request_methods_return_body_unresolved (host := origin_csv)
            {| dm_call := getResults; dm_endpoint := ApiEndpoints.RESULTS_GET;
               dm_params := RequiredParams ResultsGetParamsSchema;
               dm_via := ViaRequest |}
            (VObj [("subsession_id", VNum 1)]) (fresh origin_csv 0 defaults)
            _ eq_refl)).
  unfold data_methods. cbn [In]. do 35 right. left. reflexivity.
Defined.

(** X20: no data method writes to the client object: the base URL, the
    chunk setting, the session token and the auth code are after the call,
    however it ends, what they were before it. Only [authenticate] stores
    a session. *)
Theorem data_methods_keep_client {host : Host} (m : DataMethod) (params : value)
  (w : World) :
  In m data_methods ->
  this (after (dm_call m params) w) = this w.
Proof.
  intros Hin. unfold after. rewrite (data_methods_conform m Hin).
  assert (Hcall : forall query,
    this (snd (api_call (dm_via m) (dm_endpoint m) query w)) = this w).
  { intros query.
    destruct (emitted_confined _ _ w (confined_api_call (dm_via m) (dm_endpoint m) query))
      as (_ & Hthis & _).
    exact Hthis. }
  destruct (dm_params m) as [|schema|schema].
  - apply Hcall.
  - destruct (truthy params); [|apply Hcall].
    destruct (safeParse schema params); [apply Hcall | reflexivity].
  - destruct (safeParse schema params); [apply Hcall | reflexivity].
Qed.

Lemma data_methods_keep_client_witness :
  this (after (host := origin_search) getCars (fresh origin_search 0 defaults))
  = constructor defaults.
Proof.
  refine (data_methods_keep_client (host := origin_search)
            {| dm_call := fun _ => getCars; dm_endpoint := ApiEndpoints.CAR_GET;
               dm_params := NoParams; dm_via := ViaRequestWithChunking |}
            VUndef (fresh origin_search 0 defaults) _).
  unfold data_methods. cbn [In]. do 1 right. left. reflexivity.
Defined.

(** X21: [requestWithChunking] calls the API once, through [request]: the
    events of a run are those of [request], followed by events of a
    download only (transport calls without options, pauses of 100 ms,
    console lines); when [request] fails, nothing follows and the failure is
    the failure of the call. *)
Theorem requestWithChunking_calls_api_once {host : Host} (path : string)
  (options : RequestInit) (query : option (list (string * value)))
  (handleChunks : option bool) (w : World) :
  exists more,
    emitted (requestWithChunking path options query handleChunks) w =
      (emitted (request path options query) w ++ more)%list /\
    forallb download_event more = true /\
    (forall e,
       outcome (request path options query) w = Throw e ->
       more = [] /\
       outcome (requestWithChunking path options query handleChunks) w = Throw e).
Proof.
  destruct (emitted_confined _ _ w (confined_request path options query))
    as (Ht & _ & _).
  unfold emitted at 1, after at 1, outcome, requestWithChunking.
  unfold bind at 1 3. unfold after in Ht.
  destruct (request path options query w) as [[r|e] w1] eqn:E; cbn [snd fst] in *.
  - match goal with |- context [snd (?k w1)] =>
      assert (Hk : exists t, trace (snd (k w1)) = (trace w1 ++ t)%list /\
                             forallb download_event t = true) end.
    { destruct (confined_after_request handleChunks r w1) as (t & Hk & _ & Hd).
      exists t. split; [exact Hk | exact Hd]. }
    destruct Hk as (t & Hk & Hd). exists t. rewrite Hk, Ht, <- app_assoc.
    split; [apply skipn_length_app|]. split; [assumption | discriminate].
  - exists []. rewrite app_nil_r, Ht.
    split; [apply skipn_length_app|]. split; [reflexivity|].
    intros e0 [= <-]. split; [reflexivity|].
    unfold bind. rewrite E. reflexivity.
Qed.

(** ** List-valued parameters *)

(** An array of numbers is parsed to itself. *)
Lemma parse_number_array (xs : list value) (data : value) :
  parse (z_array z_number) (VArr xs) = Ok data -> data = VArr xs.
Proof.
  cbn [parse]. revert data. induction xs as [|x xs IH]; intros data H.
  - injection H as <-. reflexivity.
  - destruct x; try discriminate.
    match type of IH with forall _, match ?X with _ => _ end = _ -> _ =>
      destruct X as [ys|e] end; [|discriminate].
    injection H as <-. specialize (IH (VArr ys) eq_refl).
    injection IH as ->. reflexivity.
Qed.

(** X22: for a list-valued parameter that passes its check, the text
    [request] puts in the query string, [String(value)] of the list as
    given, is the text the transform of the schema computes,
    [arr.join(',')]: the numbers in order, separated by commas. *)
Theorem list_params_sent_comma_joined (key : string) (xs : list value) (data : value) :
  parse (z_transform_join (z_array z_number)) (VArr xs) = Ok data ->
  exists joined,
    join "," xs = Ok joined /\
    data = VStr joined /\
    rendered [(key, VArr xs)] = Ok [(key, joined)] /\
    query_params [(key, VArr xs)] = Ok [(key, joined)].
Proof.
  intros H.
  change (parse (z_transform_join (z_array z_number)) (VArr xs))
    with (match parse (z_array z_number) (VArr xs) with
          | Ok (VArr ys) =>
              match join "," ys with
              | Ok joined => Ok (VStr joined)
              | Throw e => Throw e
              end
          | Ok _ => Throw (TypeError "arr.join is not a function")
          | Throw e => Throw e
          end) in H.
  destruct (parse (z_array z_number) (VArr xs)) as [v|e] eqn:E; [|discriminate].
  apply parse_number_array in E. subst v.
  destruct (join "," xs) as [joined|e] eqn:Hj; [|discriminate].
  injection H as <-. exists joined.
  split; [reflexivity|]. split; [reflexivity|].
  split.
  - unfold rendered. cbn [filter snd is_undefined negb texts].
    rewrite ToString_array, Hj. reflexivity.
  - cbn [query_params]. rewrite ToString_array, Hj. reflexivity.
Qed.

Lemma list_params_sent_comma_joined_witness :
  query_params [("cust_ids", VArr [VNum 12; VNum 7; VNum 30])] =
    Ok [("cust_ids", "12,7,30")].
Proof.
  destruct (list_params_sent_comma_joined "cust_ids"
              [VNum 12; VNum 7; VNum 30] (VStr "12,7,30") eq_refl)
    as (joined & Hj & _ & _ & Hq).
  vm_compute in Hj. injection Hj as <-. exact Hq.
Defined.

(** X23: [authenticate] makes at most one transport call and never pauses:
    the rate-limit headers of the sign-in response are not looked at. *)
Theorem authenticate_never_waits {host : Host} (req : AuthRequest) (w : World) :
  delays (emitted (authenticate req) w) = [] /\
  (List.length (fetches (emitted (authenticate req) w)) <= 1)%nat.
Proof.
  unfold emitted, after.
  destruct (zod_email (email req)) eqn:Hz.
  2:{ unfold authenticate. rewrite Hz. cbn [negb snd throw].
      rewrite <- (app_nil_r (trace w)) at 2 4. rewrite !skipn_length_app.
      split; [reflexivity | cbn; lia]. }
  rewrite (authenticate_unfold req w Hz).
  destruct (fetchImpl _ _ (env w)) as [[res|e] env1].
  2:{ cbn [snd trace]. rewrite skipn_length_app. split; [reflexivity | cbn; lia]. }
  destruct (res_ok res); cbn [negb].
  2:{ cbn [snd trace]. rewrite skipn_length_app. split; [reflexivity | cbn; lia]. }
  destruct (res_json res) as [response|e].
  2:{ cbn [snd trace]. rewrite skipn_length_app. split; [reflexivity | cbn; lia]. }
  match goal with |- context [store_session res response ?w1] =>
    destruct (store_session_run res response w1) as (out & sdk & ->) end.
  destruct out as [u|e]; cbn [snd trace logged];
    rewrite <- app_assoc, skipn_length_app; split; try reflexivity; cbn; lia.
Qed.

(** ** The base name of the fallback *)

(** X24: what [chunk_file_name.replace(/\.\w+$/, '')] removes: when the name
    ends in a dot followed by one or more word characters (letters, digits,
    underscore), exactly that extension, the last one only; in every
    other case nothing, so a name without an extension keeps a trailing
    dot, a dash in its last part, or all of its text. *)
Theorem strip_extension_removes_last_extension :
  (forall stem ext,
     ext <> "" ->
     forallb is_word_char (chars ext) = true ->
     strip_extension (stem ++ "." ++ ext) = stem) /\
  (forall s,
     (forall stem ext,
        ext <> "" ->
        forallb is_word_char (chars ext) = true ->
        s <> stem ++ "." ++ ext) ->
     strip_extension s = s).
Proof.
  split.
  - intros stem ext Hne Hw. unfold strip_extension.
    rewrite !chars_app. cbn [chars list_ascii_of_string app].
    rewrite rev_app_distr. cbn [rev]. rewrite <- app_assoc. cbn [app].
    change (list_ascii_of_string ext) with (chars ext).
    rewrite span_word_run.
    + destruct (rev (chars ext)) as [|x l] eqn:E.
      * apply (f_equal (@rev ascii)) in E. rewrite rev_involutive in E. cbn in E.
        apply (f_equal of_chars) in E. rewrite of_chars_chars in E. contradiction.
      * cbn [Ascii.eqb Bool.eqb]. rewrite rev_involutive. apply of_chars_chars.
    + rewrite forallb_forall in *. intros x Hx. apply Hw. apply in_rev. assumption.
    + reflexivity.
  - intros s Hno.
    destruct (string_dec (strip_extension s) s) as [E | E]; [exact E|].
    exfalso. unfold strip_extension in E.
    destruct (span_word (rev (chars s))) as [w r] eqn:Es.
    destruct (span_word_split _ _ _ Es) as [Hrev Hw].
    destruct w as [|x w]; [congruence|].
    destruct r as [|dot rest]; [congruence|].
    destruct (Ascii.eqb_spec dot "."%char) as [->|Hd]; [|congruence].
    apply (Hno (of_chars (rev rest)) (of_chars (rev (x :: w)))).
    + intros H0. apply (f_equal chars) in H0. rewrite chars_of_chars in H0.
      cbn [chars list_ascii_of_string rev] in H0.
      destruct (rev w); discriminate H0.
    + rewrite chars_of_chars. rewrite forallb_forall in *.
      intros c Hc. apply Hw. apply in_rev. assumption.
    + rewrite <- (of_chars_chars s) at 1.
      rewrite <- (of_chars_chars (of_chars (rev rest) ++ "." ++ of_chars (rev (x :: w)))).
      rewrite !chars_app, !chars_of_chars. f_equal.
      rewrite <- (rev_involutive (chars s)), Hrev, rev_app_distr.
      cbn [rev]. rewrite <- app_assoc. reflexivity.
Qed.
